(** * Bioy classifier: taxonomic assignment of BLAST hits

    A shallow embedding of [bioy_pkg/subcommands/classifier.py].  The pandas
    tables of the program are lists of records (one record per row, the list
    order is the row order), the columns that exist once per rank are finite
    maps keyed by the rank name, and a cell that pandas shows as null / NaN is
    an absent key or [None]. *)

From Stdlib Require Import QArith Qround ZArith List Bool Lia Sorted Permutation.
From Stdlib Require Import Ascii String.
From Stdlib Require OrderedTypeEx.
From stdpp Require Import base option list strings gmap.

Local Open Scope string_scope.
Local Open Scope list_scope.

(** ** Floating point columns

    The numeric columns ([pident], [qcovs], the thresholds) are float64.  The
    program only compares them, so a float is either NaN or a finite value,
    the finite values being ordered as the rationals they denote.  Every
    comparison with NaN is false, as in IEEE 754. *)

Inductive pyfloat : Type :=
| NaN
| Fin (q : Q).

Definition Qltb (a b : Q) : bool := negb (Qle_bool b a).

(** [a < b] *)
Definition flt (a b : pyfloat) : bool :=
  match a, b with
  | Fin x, Fin y => Qltb x y
  | _, _ => false
  end.

(** [a <= b] *)
Definition fle (a b : pyfloat) : bool :=
  match a, b with
  | Fin x, Fin y => Qle_bool x y
  | _, _ => false
  end.

(** [a >= b] *)
Definition fge (a b : pyfloat) : bool := fle b a.

(** [a == b] *)
Definition feq (a b : pyfloat) : bool :=
  match a, b with
  | Fin x, Fin y => Qeq_bool x y
  | _, _ => false
  end.

(** Truth value of an optional float argument: [None] and [0.0] are false. *)
Definition truthy (o : option pyfloat) : bool :=
  match o with
  | None => false
  | Some NaN => true
  | Some (Fin q) => negb (Qeq_bool q 0)
  end.

(** ** Exceptions *)

Inductive exn : Type :=
| IndexError
| KeyError
| ValueError
| ZeroDivisionError.

Inductive result (A : Type) : Type :=
| Ok (a : A)
| Raise (e : exn).

Arguments Ok {A} a.
Arguments Raise {A} e.

#[global] Instance result_ret : MRet result := fun A a => Ok a.

#[global] Instance result_bind : MBind result := fun A B k m =>
  match m with
  | Ok a => k a
  | Raise e => Raise e
  end.

Fixpoint rmapM {A B : Type} (f : A -> result B) (l : list A) : result (list B) :=
  match l with
  | [] => Ok []
  | a :: l' => b ← f a; bs ← rmapM f l'; Ok (b :: bs)
  end.

(** ** Rows of the working table [blast_results]

    One record carries every column the table ever has; a column that has
    not been joined in yet is null.  [rank_ids] holds the rank columns of
    the taxonomy ([root] ... [species]: rank name to tax_id at that rank) and
    [thresholds] the columns [<rank>_threshold]. *)

Record hit : Type := mkHit {
  qseqid : string;
  sseqid : option string;
  pident : pyfloat;
  qcovs : pyfloat;
  tax_id : option string;
  accession : option string;
  tax_name : option string;
  rank : option string;
  rank_ids : gmap string string;
  thresholds : gmap string Q;
  assignment_tax_id : option string;
  assignment_threshold : pyfloat;
  assignment_tax_name : option string;
  assignment_rank : option string;
  specimen : option string;
  condensed_id : option string;
  assignment_hash : option Z;
  starred : option bool;
  assignment : option string
}.

(** [df['<r>_threshold']] for one row *)
Definition threshold (h : hit) (r : string) : pyfloat :=
  match thresholds h !! r with
  | Some q => Fin q
  | None => NaN
  end.

Definition isnull {A : Type} (o : option A) : bool :=
  match o with
  | None => true
  | Some _ => false
  end.

Definition notnull {A : Type} (o : option A) : bool := negb (isnull o).

(** ** raw_filtering *)

Definition raw_filtering (blast_results : list hit)
    (min_coverage max_identity min_identity : option pyfloat) : list hit :=
  let blast_results :=
    if truthy min_coverage then
      List.filter (fun h => fge (qcovs h) (default NaN min_coverage)) blast_results
    else blast_results in
  let blast_results :=
    if truthy max_identity then
      List.filter (fun h => fle (pident h) (default NaN max_identity)) blast_results
    else blast_results in
  let blast_results :=
    if truthy min_identity then
      List.filter (fun h => fge (pident h) (default NaN min_identity)) blast_results
    else blast_results in
  blast_results.

(** ** star *)

Definition set_starred (b : bool) (h : hit) : hit :=
  mkHit (qseqid h) (sseqid h) (pident h) (qcovs h) (tax_id h) (accession h)
    (tax_name h) (rank h) (rank_ids h) (thresholds h) (assignment_tax_id h)
    (assignment_threshold h) (assignment_tax_name h) (assignment_rank h)
    (specimen h) (condensed_id h) (assignment_hash h) (Some b) (assignment h).

Definition star (df : list hit) (starred : pyfloat) : list hit :=
  let any := existsb (fun x => fge x starred) (map pident df) in
  map (set_starred any) df.

(** ** find_tax_id and select_valid_hits *)

(** [ranks.index(r)] *)
Fixpoint index (ranks : list string) (r : string) : option nat :=
  match ranks with
  | [] => None
  | x :: ranks' =>
      if String.eqb x r then Some O
      else match index ranks' r with
           | Some i => Some (S i)
           | None => None
           end
  end.

(** The non-null cells of the row among the given rank columns, in column
    order: [series[cols]] followed by [series[~series.isnull()]]. *)
Definition nonnull_cells (series : hit) (cols : list string) : list (string * string) :=
  omap (fun k => match rank_ids series !! k with
                 | Some v => Some (k, v)
                 | None => None
                 end) cols.

(** [value in valids[key].unique()] *)
Definition in_column (value : string) (valids : list hit) (key : string) : bool :=
  existsb (fun v => match rank_ids v !! key with
                    | Some x => String.eqb x value
                    | None => false
                    end) valids.

Definition find_tax_id (series : hit) (valids : list hit) (r : string)
    (ranks : list string) : result (option string) :=
  match index ranks r with
  | None => Raise ValueError
  | Some i =>
      match nonnull_cells series (drop i ranks) with
      | [] => Raise IndexError
      | (key, value) :: _ =>
          Ok (if in_column value valids key then None else Some value)
      end
  end.

(** [df[thresholds < pidents]] for the threshold column of rank [r] *)
Definition valid_hits (df : list hit) (r : string) : list hit :=
  List.filter (fun h => flt (threshold h r) (pident h)) df.

Definition set_assignment (t : option string) (thr : pyfloat) (h : hit) : hit :=
  mkHit (qseqid h) (sseqid h) (pident h) (qcovs h) (tax_id h) (accession h)
    (tax_name h) (rank h) (rank_ids h) (thresholds h) t thr
    (assignment_tax_name h) (assignment_rank h)
    (specimen h) (condensed_id h) (assignment_hash h) (starred h) (assignment h).

(** The body of the loop once [valid] is known to hold a row with a tax_id at
    rank [r].  The program builds the column [tax_ids] from the rows that
    have an id at [r] and from [find_tax_id] on the others, and the
    assignment to [valid[ASSIGNMENT_TAX_ID]] aligns it on the row index: every
    row receives its own entry. *)
Definition assign_at (valid : list hit) (r : string) (ranks : list string)
    : result (list hit) :=
  let na_ids := map (fun h => isnull (rank_ids h !! r)) valid in
  tax_ids ←
    (if existsb id na_ids then
       let have_ids := List.filter (fun h => notnull (rank_ids h !! r)) valid in
       rmapM (fun h => if isnull (rank_ids h !! r)
                       then find_tax_id h have_ids r ranks
                       else Ok (rank_ids h !! r)) valid
     else Ok (map (fun h => rank_ids h !! r) valid));
  let valid := map (fun '(h, t) => set_assignment t (threshold h r) h)
                   (combine valid tax_ids) in
  Ok (List.filter (fun h => notnull (assignment_tax_id h)) valid).

(** [for r in ranks: ...]; [todo] is what is left of the loop, [ranks] the
    whole list (used by [find_tax_id]).  Falling off the loop returns
    Python's [None]. *)
Fixpoint select_loop (df : list hit) (ranks todo : list string)
    : result (option (list hit)) :=
  match todo with
  | [] => Ok None
  | r :: todo' =>
      let valid := valid_hits df r in
      match valid with
      | [] => select_loop df ranks todo'
      | _ :: _ =>
          if forallb (fun h => isnull (rank_ids h !! r)) valid
          then select_loop df ranks todo'
          else out ← assign_at valid r ranks; Ok (Some out)
      end
  end.

Definition select_valid_hits (df : list hit) (ranks : list string)
    : result (option (list hit)) :=
  select_loop df ranks ranks.


(** ** Table operations of pandas used by the program *)

Section Tables.
Context {A : Type}.

(** A stable sort: rows that compare equal keep their relative order.
    [le x y] says that [x] may stand before [y]. *)
Fixpoint insert_by (le : A -> A -> bool) (x : A) (l : list A) : list A :=
  match l with
  | [] => [x]
  | y :: l' => if le x y then x :: y :: l' else y :: insert_by le x l'
  end.

Fixpoint sort_by (le : A -> A -> bool) (l : list A) : list A :=
  match l with
  | [] => []
  | x :: l' => insert_by le x (sort_by le l')
  end.

Context {K : Type} `{EqDecision K}.

(** [unique()] / [drop_duplicates()]: the first occurrence of every value,
    in order of appearance. *)
Fixpoint unique (l : list K) : list K :=
  match l with
  | [] => []
  | x :: l' => x :: List.filter (fun y => negb (bool_decide (y = x))) (unique l')
  end.

(** The rows of one group, in table order. *)
Definition group_rows (key : A -> K) (k : K) (l : list A) : list A :=
  List.filter (fun a => bool_decide (key a = k)) l.

(** [groupby(by=key, sort=False)]: the groups in order of first
    appearance. *)
Definition groupby (key : A -> K) (l : list A) : list (K * list A) :=
  map (fun k => (k, group_rows key k l)) (unique (map key l)).
End Tables.

(** [iloc[-1]] *)
Definition iloc_last {A : Type} (l : list A) : result A :=
  match List.last (map Some l) None with
  | Some a => Ok a
  | None => Raise IndexError
  end.

(** ** The rank threshold table

    A table indexed by tax_id (the index may repeat a tax_id) whose columns
    are the ranks; an empty cell (NaN) is an absent key. *)

Definition threshold_table : Type := list (string * gmap string Q).

(** [groupby(level=0).last()]: one row per tax_id, the tax_ids in sorted
    order, holding in every column the last value of the group that is not
    null (pandas' [last] skips the null cells column by column). *)
Definition last_row (rows : list (gmap string Q)) : gmap string Q :=
  foldl (fun acc row => row ∪ acc) ∅ rows.

Definition groupby_last (t : threshold_table) : threshold_table :=
  map (fun k => (k, last_row (map snd (group_rows fst k t))))
      (sort_by String.leb (unique (map fst t))).

(** Lines 607-615 of [action]: the default table, and the rows of the user's
    file appended to it when [--rank-thresholds] is given. *)
Definition merge_rank_thresholds (defaults : threshold_table)
    (user : option threshold_table) : threshold_table :=
  match user with
  | Some u => groupby_last (defaults ++ u)
  | None => defaults
  end.

(** The cell of the table for taxon [tid] and rank [r] (of the first row
    indexed by [tid]); NaN when there is no such row or the cell is empty. *)
Definition table_threshold (t : threshold_table) (tid r : string) : pyfloat :=
  match group_rows fst tid t with
  | [] => NaN
  | row :: _ => match row.2 !! r with
                | Some q => Fin q
                | None => NaN
                end
  end.

(** ** target_rank *)

(** [ranks.index(x) if x in ranks else -1]; a null rank is not in [ranks]. *)
Definition rank_index (ranks : list string) (x : option string) : Z :=
  match x with
  | Some r => match index ranks r with
              | Some i => Z.of_nat i
              | None => (-1)%Z
              end
  | None => (-1)%Z
  end.

Definition target_rank (s : list (option string)) (ranks : list string)
    : result (option string) :=
  let s := map (fun x => (rank_index ranks x, x)) s in
  let sorted := sort_by (fun a b => Z.leb a.1 b.1) s in
  x ← iloc_last sorted; Ok x.2.

(** ** The summary table [output] *)

(** A percentage of the summary is the result of a division: besides NaN
    and the finite values it can be an infinity ([x / 0] is [inf] or [-inf]
    in pandas when [x] is not zero, and NaN when it is). *)
Inductive xfloat : Type :=
| XNaN
| XFin (q : Q)
| XInf (positive : bool).

Record out_row : Type := mkOut {
  o_specimen : string;
  o_assignment_hash : option Z;
  o_assignment : string;
  o_max_percent : pyfloat;
  o_min_percent : pyfloat;
  o_min_threshold : pyfloat;
  o_target_rank : option string;
  o_reads : Z;
  o_pct_reads : xfloat;
  o_clusters : Z;
  o_corrected : option Z;
  o_pct_corrected : xfloat;
  o_assignment_id : option nat
}.

Definition set_assignment_id (i : nat) (o : out_row) : out_row :=
  mkOut (o_specimen o) (o_assignment_hash o) (o_assignment o) (o_max_percent o)
    (o_min_percent o) (o_min_threshold o) (o_target_rank o) (o_reads o)
    (o_pct_reads o) (o_clusters o) (o_corrected o) (o_pct_corrected o) (Some i).

Definition drop_assignment_hash (o : out_row) : out_row :=
  mkOut (o_specimen o) None (o_assignment o) (o_max_percent o)
    (o_min_percent o) (o_min_threshold o) (o_target_rank o) (o_reads o)
    (o_pct_reads o) (o_clusters o) (o_corrected o) (o_pct_corrected o)
    (o_assignment_id o).

(** [assignment_id]: [reset_index(drop=True)] numbers the rows of the group
    0, 1, 2, ... in their order. *)
Definition assignment_id (df : list out_row) : list out_row :=
  imap set_assignment_id df.

(** The first sort column: [corrected] with [--copy-numbers], else [reads]. *)
Definition count_column (copy_numbers : bool) (o : out_row) : Z :=
  if copy_numbers then default 0%Z (o_corrected o) else o_reads o.

(** [a] may stand before [b] in
    [output.sort(columns=[count, 'clusters', 'assignment'], ascending=False)]:
    the single flag [ascending=False] holds for the three columns. *)
Definition sort_columns_le (copy_numbers : bool) (a b : out_row) : bool :=
  match (count_column copy_numbers a ?= count_column copy_numbers b)%Z with
  | Gt => true
  | Lt => false
  | Eq =>
      match (o_clusters a ?= o_clusters b)%Z with
      | Gt => true
      | Lt => false
      | Eq => String.leb (o_assignment b) (o_assignment a)
      end
  end.

(** [output.sort_index()] (line 787) orders the rows by specimen.  It sorts
    with numpy's quicksort, which does not promise to keep the order of two
    rows that have the same specimen: [ties a b] tells whether [a] is put
    before [b] then.  A sort that keeps the order of such rows has
    [ties a b = true] throughout. *)
Definition sort_index_le (ties : out_row -> out_row -> bool) (a b : out_row) : bool :=
  if String.eqb (o_specimen a) (o_specimen b) then ties a b
  else String.leb (o_specimen a) (o_specimen b).

(** [ties] keeps the order of the rows of one specimen. *)
Definition keeps_order (ties : out_row -> out_row -> bool) : Prop :=
  forall a b, o_specimen a = o_specimen b -> ties a b = true.

(** Lines 783-790 of [action]. *)
Definition sort_and_number (ties : out_row -> out_row -> bool) (copy_numbers : bool)
    (output : list out_row) : list out_row :=
  let output := sort_by (sort_columns_le copy_numbers) output in
  let output := map drop_assignment_hash output in
  let output := sort_by (sort_index_le ties) output in
  concat (map (fun g => assignment_id g.2) (groupby o_specimen output)).

(** ** Auxiliary notions used to state the properties of the hit selector *)

(** Rank [r] ends the loop of [select_valid_hits]: some hit passes the
    threshold of [r] and has a tax_id at [r]. *)
Definition selectable (df : list hit) (r : string) : bool :=
  negb (forallb (fun h => isnull (rank_ids h !! r)) (valid_hits df r)).

(** The entry of the column [tax_ids] for one row of [valid]. *)
Definition resolved_tax_id (valid : list hit) (r : string) (ranks : list string)
    (h : hit) : result (option string) :=
  if isnull (rank_ids h !! r)
  then find_tax_id h (List.filter (fun v => notnull (rank_ids v !! r)) valid) r ranks
  else Ok (rank_ids h !! r).

(** What one row of [valid] contributes to the value returned. *)
Definition selected_row (valid : list hit) (r : string) (ranks : list string)
    (h : hit) : option hit :=
  match resolved_tax_id valid r ranks h with
  | Ok (Some t) => Some (set_assignment (Some t) (threshold h r) h)
  | _ => None
  end.

(** The first rank of the list whose valid set is not empty. *)
Definition first_nonempty_rank (df : list hit) (ranks : list string) : option string :=
  List.find (fun r => match valid_hits df r with [] => false | _ :: _ => true end) ranks.

(** First match wins, as a rule on the ranks whose valid set is not empty:
    whatever is returned is made of valid hits of the first such rank. *)
Definition first_match_wins (df : list hit) (ranks : list string) : Prop :=
  forall out, select_valid_hits df ranks = Ok (Some out) ->
    exists r, first_nonempty_rank df ranks = Some r /\
      forall h', In h' out ->
        exists h t, In h (valid_hits df r) /\
                    h' = set_assignment (Some t) (threshold h r) h.

(** [find_tax_id] with the duplicate test made on the column of rank [r]
    itself (the ids found directly at [r]). *)
Definition find_tax_id_at_rank (series : hit) (valids : list hit) (r : string)
    (ranks : list string) : result (option string) :=
  match index ranks r with
  | None => Raise ValueError
  | Some i =>
      match nonnull_cells series (drop i ranks) with
      | [] => Raise IndexError
      | (key, value) :: _ =>
          Ok (if in_column value valids r then None else Some value)
      end
  end.

(** ** Example tables *)

Definition blast_hit (q s : string) (p : Q) (ids : list (string * string))
    (thr : list (string * Q)) : hit :=
  mkHit q (Some s) (Fin p) NaN None None None None
    (list_to_map ids) (list_to_map thr) None NaN None None None None None None None.

Definition ex_thresholds : list (string * Q) :=
  [("species", 97#1); ("genus", 95#1); ("root", 0#1)]%Q.

(** most specific first, as [select_valid_hits] receives them *)
Definition ex_ranks : list string := ["species"; "genus"; "root"].

(** a reference sequence classified to species S1 of genus G1 *)
Definition ex_species_hit : hit :=
  blast_hit "q1" "sA" (98#1)
    [("species", "S1"); ("genus", "G1"); ("root", "1")] ex_thresholds.

(** a reference sequence classified to genus G1 only *)
Definition ex_genus_hit : hit :=
  blast_hit "q1" "sB" (98#1) [("genus", "G1"); ("root", "1")] ex_thresholds.

(** a reference sequence classified to genus G2 only *)
Definition ex_other_genus_hit : hit :=
  blast_hit "q1" "sC" (98#1) [("genus", "G2"); ("root", "1")] ex_thresholds.

(** a hit whose identity is exactly the species threshold *)
Definition ex_boundary_hit : hit :=
  blast_hit "q1" "sD" (97#1)
    [("species", "S1"); ("genus", "G1"); ("root", "1")] ex_thresholds.

(** ** Column statistics *)

(** [max()] and [min()] of a float column skip the NaN cells; the result is
    NaN when no cell is left. *)
Definition fmax (a b : pyfloat) : pyfloat :=
  match a, b with
  | NaN, _ => b
  | _, NaN => a
  | Fin x, Fin y => if Qle_bool x y then b else a
  end.

Definition fmin (a b : pyfloat) : pyfloat :=
  match a, b with
  | NaN, _ => b
  | _, NaN => a
  | Fin x, Fin y => if Qle_bool x y then a else b
  end.

Definition column_max (s : list pyfloat) : pyfloat := foldr fmax NaN s.

Definition column_min (s : list pyfloat) : pyfloat := foldr fmin NaN s.

(** ** Auxiliary notions for the aggregation properties *)

(** [x] is a least specific rank among those of the group: no rank of the
    group stands before it in the root-first list of ranks. *)
Definition least_specific_present (ranks : list string) (s : list (option string))
    (x : option string) : Prop :=
  In x s /\ forall y, In y s -> (rank_index ranks x <= rank_index ranks y)%Z.

(** [x] is a most specific rank among those of the group. *)
Definition most_specific_present (ranks : list string) (s : list (option string))
    (x : option string) : Prop :=
  In x s /\ forall y, In y s -> (rank_index ranks y <= rank_index ranks x)%Z.

(** The order of the summary rows with the label ascending: count
    descending, clusters descending, assignment label ascending. *)
Definition label_ascending_le (copy_numbers : bool) (a b : out_row) : bool :=
  match (count_column copy_numbers a ?= count_column copy_numbers b)%Z with
  | Gt => true
  | Lt => false
  | Eq =>
      match (o_clusters a ?= o_clusters b)%Z with
      | Gt => true
      | Lt => false
      | Eq => String.leb (o_assignment a) (o_assignment b)
      end
  end.

(** The cell of a threshold row, as a float. *)
Definition cell (row : gmap string Q) (r : string) : pyfloat :=
  match row !! r with
  | Some q => Fin q
  | None => NaN
  end.

(** Replacement of the whole row: a taxon listed in the user's file has, at
    every rank, the cell of the user's row. *)
Definition full_replacement (defaults user : threshold_table) : Prop :=
  forall tid urow r, In (tid, urow) user -> In tid (map fst defaults) ->
    table_threshold (merge_rank_thresholds defaults (Some user)) tid r = cell urow r.

(** ** Example tables for the aggregation *)

(** root first, as [target_rank] receives them *)
Definition ex_root_first : list string := ["root"; "genus"; "species"].

Definition ex_summary_row (specimen label : string) (hash reads clusters : Z) : out_row :=
  mkOut specimen (Some hash) label NaN NaN NaN None reads XNaN clusters None XNaN None.

(** two rows of one specimen that tie on reads and clusters *)
Definition ex_output : list out_row :=
  [ex_summary_row "039_3" "Alcaligenes faecalis*" 11 5 1;
   ex_summary_row "039_3" "Rhizobiales" 12 5 1].

Definition ex_default_thresholds : threshold_table :=
  [("1", list_to_map [("species", 97#1); ("genus", 95#1)]%Q)].

(** the user's row for taxon 1 leaves the genus cell empty *)
Definition ex_user_thresholds : threshold_table :=
  [("1", list_to_map [("species", 99#1)]%Q)].

(** ** The inputs of a run *)

(** A row of the seq_info file: [seqname], [tax_id], [accession]. *)
Record seq_info_row : Type := mkSeqInfo {
  si_seqname : string;
  si_tax_id : option string;
  si_accession : option string
}.

(** A row of the taxonomy file: [tax_id], [tax_name], [rank] and the rank
    columns. *)
Record taxon : Type := mkTaxon {
  t_tax_id : string;
  t_tax_name : option string;
  t_rank : option string;
  t_rank_ids : gmap string string
}.

(** The parsed command line.  An argument that names a file holds the table
    read from it; [ranks] is the list of the rank columns of the taxonomy
    file, from ['root'] on (least specific first), and
    [default_rank_thresholds] the table shipped with the package. *)
Module Args.
Record t : Type := mk {
  blast_file : list (string * option string * pyfloat * pyfloat);
  seq_info : list seq_info_row;
  taxonomy : list taxon;
  ranks : list string;
  default_rank_thresholds : threshold_table;
  copy_numbers : option (list (string * Q));
  rank_thresholds : option threshold_table;
  specimen_map : option (list (string * string));
  weights : option (list (string * Q));
  details_full : bool;
  group_def : list string;
  has_header : bool;
  min_identity : option pyfloat;
  max_identity : option pyfloat;
  min_cluster_size : Z;
  min_coverage : option pyfloat;
  specimen : option string;
  starred : pyfloat;
  max_group_size : Z;
  target_rank : string;
  pct_reference : bool;
  limit : option nat
}.

(** The same command line with other values for [--min-identity],
    [--max-identity] and [--min-coverage]. *)
Definition with_filters (a : t) (min_id max_id min_cov : option pyfloat) : t :=
  mk (blast_file a) (seq_info a) (taxonomy a) (ranks a)
     (default_rank_thresholds a) (copy_numbers a) (rank_thresholds a)
     (specimen_map a) (weights a) (details_full a) (group_def a) (has_header a)
     min_id max_id (min_cluster_size a) min_cov (specimen a) (starred a)
     (max_group_size a) (target_rank a) (pct_reference a) (limit a).
End Args.

(** What the program calls outside of [classifier.py]: the two functions of
    [bioy_pkg.sequtils] and Python's [hash] on a frozenset of tax_ids; and
    what the language leaves to numpy and to the machine: the float64
    quotient [x / y] of two numbers ([y] not zero), given as the rational it
    returns; the integer that the cast of [inf] ([true]) or [-inf] ([false])
    to int64 gives; and the order in which numpy's quicksort leaves two rows
    of the summary that have the same specimen (see [sort_index_le]). *)
Record runtime : Type := mkRuntime {
  sequtils_condense_ids :
    list string -> list taxon -> list string -> Z -> gmap string string;
  sequtils_compound_assignment : list (string * bool) -> list taxon -> string;
  hash_frozenset : gset string -> Z;
  float_div : Q -> Q -> Q;
  int_of_inf : bool -> Z;
  sort_index_ties : out_row -> out_row -> bool
}.

#[global] Instance Q_eq_dec : EqDecision Q.
Proof. solve_decision. Defined.

#[global] Instance pyfloat_eq_dec : EqDecision pyfloat.
Proof. solve_decision. Defined.

(** ** Setters for the columns added along the pipeline *)

Definition null_hit (q : string) : hit :=
  mkHit q None NaN NaN None None None None ∅ ∅ None NaN None None None None None
    None None.

Definition read_blast_row (row : string * option string * pyfloat * pyfloat) : hit :=
  let '(q, s, p, c) := row in
  mkHit q s p c None None None None ∅ ∅ None NaN None None None None None None None.

Definition set_seq_info (s : seq_info_row) (h : hit) : hit :=
  mkHit (qseqid h) (sseqid h) (pident h) (qcovs h) (si_tax_id s) (si_accession s)
    (tax_name h) (rank h) (rank_ids h) (thresholds h) (assignment_tax_id h)
    (assignment_threshold h) (assignment_tax_name h) (assignment_rank h)
    (specimen h) (condensed_id h) (assignment_hash h) (starred h) (assignment h).

Definition set_taxonomy (t : taxon) (h : hit) : hit :=
  mkHit (qseqid h) (sseqid h) (pident h) (qcovs h) (tax_id h) (accession h)
    (t_tax_name t) (t_rank t) (t_rank_ids t) (thresholds h) (assignment_tax_id h)
    (assignment_threshold h) (assignment_tax_name h) (assignment_rank h)
    (specimen h) (condensed_id h) (assignment_hash h) (starred h) (assignment h).

Definition set_thresholds (row : gmap string Q) (h : hit) : hit :=
  mkHit (qseqid h) (sseqid h) (pident h) (qcovs h) (tax_id h) (accession h)
    (tax_name h) (rank h) (rank_ids h) row (assignment_tax_id h)
    (assignment_threshold h) (assignment_tax_name h) (assignment_rank h)
    (specimen h) (condensed_id h) (assignment_hash h) (starred h) (assignment h).

Definition drop_rank_columns (h : hit) : hit :=
  mkHit (qseqid h) (sseqid h) (pident h) (qcovs h) (tax_id h) (accession h)
    (tax_name h) (rank h) ∅ ∅ (assignment_tax_id h)
    (assignment_threshold h) (assignment_tax_name h) (assignment_rank h)
    (specimen h) (condensed_id h) (assignment_hash h) (starred h) (assignment h).

Definition set_assignment_taxon (name rk : option string) (h : hit) : hit :=
  mkHit (qseqid h) (sseqid h) (pident h) (qcovs h) (tax_id h) (accession h)
    (tax_name h) (rank h) (rank_ids h) (thresholds h) (assignment_tax_id h)
    (assignment_threshold h) name rk
    (specimen h) (condensed_id h) (assignment_hash h) (starred h) (assignment h).

Definition set_specimen (s : string) (h : hit) : hit :=
  mkHit (qseqid h) (sseqid h) (pident h) (qcovs h) (tax_id h) (accession h)
    (tax_name h) (rank h) (rank_ids h) (thresholds h) (assignment_tax_id h)
    (assignment_threshold h) (assignment_tax_name h) (assignment_rank h)
    (Some s) (condensed_id h) (assignment_hash h) (starred h) (assignment h).

Definition set_condensed (c : option string) (a : option Z) (h : hit) : hit :=
  mkHit (qseqid h) (sseqid h) (pident h) (qcovs h) (tax_id h) (accession h)
    (tax_name h) (rank h) (rank_ids h) (thresholds h) (assignment_tax_id h)
    (assignment_threshold h) (assignment_tax_name h) (assignment_rank h)
    (specimen h) c a (starred h) (assignment h).

Definition set_assignment_hash (a : Z) (h : hit) : hit :=
  set_condensed (condensed_id h) (Some a) h.

Definition set_assignment_label (s : string) (h : hit) : hit :=
  mkHit (qseqid h) (sseqid h) (pident h) (qcovs h) (tax_id h) (accession h)
    (tax_name h) (rank h) (rank_ids h) (thresholds h) (assignment_tax_id h)
    (assignment_threshold h) (assignment_tax_name h) (assignment_rank h)
    (specimen h) (condensed_id h) (assignment_hash h) (starred h) (Some s).

(** ** Joins and grouped application *)

(** [left.join(right, on=key, how='inner')]: a row of the left table is
    repeated for every row of the right table with its key, and dropped when
    there is none or its key is null. *)
Definition join_inner {A B K : Type} `{EqDecision K} (key : A -> option K)
    (rkey : B -> K) (set : B -> A -> A) (right : list B) (left : list A) : list A :=
  flat_map (fun a =>
    match key a with
    | Some k => map (fun b => set b a) (group_rows rkey k right)
    | None => []
    end) left.

(** [left.join(right, on=key)]: as above, but a row without partner is kept
    with null cells ([unset]). *)
Definition join_left {A B K : Type} `{EqDecision K} (key : A -> option K)
    (rkey : B -> K) (set : B -> A -> A) (unset : A -> A) (right : list B)
    (left : list A) : list A :=
  flat_map (fun a =>
    match key a with
    | Some k => match group_rows rkey k right with
                | [] => [unset a]
                | rows => map (fun b => set b a) rows
                end
    | None => [unset a]
    end) left.

(** [df.groupby(by=key, sort=False, group_keys=False).apply(f)]: the rows
    with a null key belong to no group; the results are concatenated in the
    order of the groups. *)
Definition groupby_apply {A K : Type} `{EqDecision K} (key : A -> option K)
    (f : list A -> list A) (df : list A) : list A :=
  concat (map (fun g => f g.2)
              (groupby key (List.filter (fun a => notnull (key a)) df))).

(** ** condense_ids and assign *)

(** [frozenset(condensed.condensed_id.unique())] *)
Definition condensed_id_set (condensed : gmap string string) : gset string :=
  list_to_set (unique (map snd (map_to_list condensed))).

Definition condense_ids (rt : runtime) (df : list hit) (tax_dict : list taxon)
    (ranks : list string) (max_group_size : Z) : list hit :=
  let condensed :=
    sequtils_condense_ids rt (unique (omap assignment_tax_id df)) tax_dict ranks
      max_group_size in
  let assignment_hash := hash_frozenset rt (condensed_id_set condensed) in
  map (fun h =>
         match assignment_tax_id h ≫= (fun t => condensed !! t) with
         | Some c => set_condensed (Some c) (Some assignment_hash) h
         | None => set_condensed None None h
         end) df.

Definition assign (rt : runtime) (df : list hit) (tax_dict : list taxon) : list hit :=
  let ids_stars :=
    unique (omap (fun h => match condensed_id h, starred h with
                           | Some c, Some s => Some (c, s)
                           | _, _ => None
                           end) df) in
  map (set_assignment_label (sequtils_compound_assignment rt ids_stars tax_dict)) df.

(** ** action, lines 533-648: from the blast file to the selected hits *)

Definition load_blast_results (a : Args.t) : list hit :=
  let rows := match Args.limit a with
              | Some n => take n (Args.blast_file a)
              | None => Args.blast_file a
              end in
  map read_blast_row rows.

(** Lines 626-629: the selector applied to the hits of every query.  The
    result of a group is a table or [None]. *)
Definition select_groups (blast_results : list hit) (ranks : list string)
    : result (list (option (list hit))) :=
  let blast_results := sort_by (fun x y => String.leb (qseqid x) (qseqid y)) blast_results in
  rmapM (fun g => select_valid_hits g.2 (rev ranks)) (groupby qseqid blast_results).

(** The table that the grouped application returns when some group
    returned a table: the tables of the groups, one after the other. *)
Definition select_per_query (blast_results : list hit) (ranks : list string)
    : result (list hit) :=
  selected ← select_groups blast_results ranks;
  Ok (concat (omap id selected)).

(** Lines 555-622: the hits of the blast file with the sequence
    information, the taxonomy and the thresholds joined in. *)
Definition joined_hits (a : Args.t) : list hit :=
  let blast_results := load_blast_results a in
  let blast_results := raw_filtering blast_results None None None in
  let blast_results := List.filter (fun h => notnull (sseqid h)) blast_results in
  let blast_results :=
    join_inner sseqid si_seqname set_seq_info (Args.seq_info a) blast_results in
  let blast_results :=
    join_inner tax_id t_tax_id set_taxonomy (Args.taxonomy a) blast_results in
  let rank_thresholds :=
    merge_rank_thresholds (Args.default_rank_thresholds a) (Args.rank_thresholds a) in
  join_left tax_id fst (fun row => set_thresholds row.2) (set_thresholds ∅)
    rank_thresholds blast_results.

(** Lines 555-648.  Two statements between the selection and the last join
    fail on a table without hits.  The log line of lines 632-634 divides by
    [blast_results_len], the float number of joined hits: [ZeroDivisionError]
    when no hit is left after the joins.  And when the selector returned
    [None] for every group, the grouped application returns a table without
    any column: the first [drop] of lines 637-638 raises [ValueError] (the
    label is not in the axis); with an empty list of ranks nothing is dropped
    and the join of line 641 raises [KeyError] on the missing column. *)
Definition classify_hits (a : Args.t) : result (list hit) :=
  let blast_results := joined_hits a in
  let blast_results_len := length blast_results in
  groups ← select_groups blast_results (Args.ranks a);
  if bool_decide (blast_results_len = 0%nat) then Raise ZeroDivisionError
  else if forallb isnull groups then
    match Args.ranks a with
    | [] => Raise KeyError
    | _ :: _ => Raise ValueError
    end
  else
    let blast_results := concat (omap id groups) in
    let blast_results := map drop_rank_columns blast_results in
    Ok (join_left assignment_tax_id t_tax_id
          (fun t => set_assignment_taxon (t_tax_name t) (t_rank t))
          (set_assignment_taxon None None) (Args.taxonomy a) blast_results).

(** ** action, lines 650-715: queries without hit, specimens, labels *)

(** [blast_results.join(qseqids, on='qseqid', how='outer')]: a query of the
    input that has no row left gets a row of nulls. *)
Definition join_qseqids (blast_results : list hit) (qseqids : list string) : list hit :=
  blast_results ++
  map null_hit
    (List.filter (fun q => negb (existsb (String.eqb q) (map qseqid blast_results)))
                 qseqids).

(** The specimens of query [q] (lines 656-670). *)
Definition specimens_of (a : Args.t) (q : string) : list string :=
  match Args.specimen_map a with
  | Some spec_map => map snd (group_rows fst q spec_map)
  | None =>
      match Args.specimen a with
      | Some label => if bool_decide (label = "") then [q] else [label]
      | None => [q]
      end
  end.

(** [blast_results.join(specimens, on='qseqid', how='inner')] *)
Definition join_specimens (a : Args.t) (blast_results : list hit) : list hit :=
  flat_map (fun h => map (fun s => set_specimen s h) (specimens_of a (qseqid h)))
           blast_results.

Definition no_hits (blast_results : list hit) : list hit :=
  map (fun h => set_assignment_hash 0 (set_assignment_label "[no blast result]" h))
      (List.filter (fun h => isnull (sseqid h)) blast_results).

Definition specimen_query_key (h : hit) : option (string * string) :=
  match specimen h with
  | Some s => Some (s, qseqid h)
  | None => None
  end.

Definition star_key (h : hit) : option (string * Z * string) :=
  match specimen h, assignment_hash h, condensed_id h with
  | Some s, Some a, Some c => Some (s, a, c)
  | _, _, _ => None
  end.

Definition assignment_key (h : hit) : option (string * Z) :=
  match specimen h, assignment_hash h with
  | Some s, Some a => Some (s, a)
  | _, _ => None
  end.

Definition label_hits (rt : runtime) (a : Args.t) (selected : list hit)
    (qseqids : list string) : list hit :=
  let blast_results := join_qseqids selected qseqids in
  let blast_results := join_specimens a blast_results in
  let no_hits := no_hits blast_results in
  let blast_results := List.filter (fun h => notnull (sseqid h)) blast_results in
  let tax_dict := Args.taxonomy a in
  let blast_results := sort_by (fun x y => String.leb (qseqid x) (qseqid y)) blast_results in
  let blast_results :=
    groupby_apply specimen_query_key
      (fun df => condense_ids rt df tax_dict (Args.ranks a) (Args.max_group_size a))
      blast_results in
  let blast_results :=
    groupby_apply star_key (fun df => star df (Args.starred a)) blast_results in
  let blast_results :=
    sort_by (fun x y => match assignment_hash x, assignment_hash y with
                        | Some m, Some n => Z.leb m n
                        | Some _, None => true
                        | None, Some _ => false
                        | None, None => true
                        end) blast_results in
  let blast_results :=
    groupby_apply assignment_key (fun df => assign rt df tax_dict) blast_results in
  blast_results ++ no_hits.

(** The hits after line 703, condensed and starred. *)
Definition starred_hits (rt : runtime) (a : Args.t) (selected : list hit)
    (qseqids : list string) : list hit :=
  let blast_results := join_specimens a (join_qseqids selected qseqids) in
  let blast_results := List.filter (fun h => notnull (sseqid h)) blast_results in
  let blast_results := sort_by (fun x y => String.leb (qseqid x) (qseqid y)) blast_results in
  let blast_results :=
    groupby_apply specimen_query_key
      (fun df => condense_ids rt df (Args.taxonomy a) (Args.ranks a)
                   (Args.max_group_size a))
      blast_results in
  groupby_apply star_key (fun df => star df (Args.starred a)) blast_results.

(** Lines 650-715 as the program runs them.  A grouped application that is
    given no row, or no row with a key, returns a table without any column.
    So when no hit has a specimen the grouping of line 702 fails on the
    missing column, and when no hit has a condensed id the sort of line 706
    does: [KeyError] in both cases.  Otherwise the table of line 715 is
    [label_hits]. *)
Definition label_details (rt : runtime) (a : Args.t) (selected : list hit)
    (qseqids : list string) : result (list hit) :=
  match starred_hits rt a selected qseqids with
  | [] => Raise KeyError
  | _ :: _ => Ok (label_hits rt a selected qseqids)
  end.

(** The index of the summary table:
    [blast_results[['specimen', 'assignment_hash', 'assignment']].drop_duplicates()] *)
Definition output_index (blast_results : list hit)
    : list (option string * option Z * option string) :=
  unique (map (fun h => (specimen h, assignment_hash h, assignment h)) blast_results).

(** ** action, lines 717-790: the summary table

    The sums, the means and the percentages of this part are taken on the
    rationals: the rounding error of float64 arithmetic is not modelled
    there.  It is where it decides an integer: the quotient that [math.ceil]
    receives is the float64 quotient, taken from the runtime.  A division by
    zero gives an infinity or NaN, as pandas has it. *)

Definition Qsum (l : list Q) : Q := foldr Qplus 0%Q l.

(** [round(x)] of Python 2: to the nearest integer, halves away from zero *)
Definition pyround (q : Q) : Z :=
  if Qle_bool 0 q then Qfloor (q + (1#2)) else Qceiling (q - (1#2)).

(** [max(0.01, x)]: Python's [max] returns its first argument unless the
    second is greater, so NaN and [-inf] give 0.01 and [inf] stays. *)
Definition round_up (x : xfloat) : xfloat :=
  match x with
  | XFin q => if Qltb (1#100) q then x else XFin (1#100)
  | XInf true => x
  | XInf false => XFin (1#100)
  | XNaN => XFin (1#100)
  end.

(** One cell of [pct(s)], [s / s.sum() * 100] *)
Definition pct (total x : Q) : xfloat :=
  if Qeq_bool total 0 then
    if Qeq_bool x 0 then XNaN else XInf (Qltb 0 x)
  else XFin (x / total * 100)%Q.

(** The rows of the summary: every row of [blast_results] carries a
    specimen, an assignment_hash and an assignment at this point. *)
Definition summary_index (blast_results : list hit) : list (string * Z * string) :=
  omap (fun k => match k with
                 | (Some s, Some h, Some l) => Some (s, h, l)
                 | _ => None
                 end) (output_index blast_results).

(** The rows of the group of [groupby(by=['specimen', 'assignment_hash'])] *)
Definition assignment_group (blast_results : list hit) (k : string * Z) : list hit :=
  List.filter (fun h => bool_decide (assignment_key h = Some k)) blast_results.

(** The weights of a query: the rows of the weights file for it, 1.0 when
    there is none or no file. *)
Definition query_weights (a : Args.t) (q : string) : list Q :=
  match Args.weights a with
  | Some weights_file =>
      match group_rows fst q weights_file with
      | [] => [1%Q]
      | rows => map snd rows
      end
  | None => [1%Q]
  end.

(** [cluster_stats] before the grouping: the distinct rows
    (qseqid, specimen, assignment_hash, weight). *)
Definition cluster_stats (a : Args.t) (blast_results : list hit)
    : list (string * option (string * Z) * Q) :=
  unique (flat_map (fun h => map (fun w => (qseqid h, assignment_key h, w))
                                 (query_weights a (qseqid h))) blast_results).

Definition cluster_group (stats : list (string * option (string * Z) * Q))
    (k : string * Z) : list (string * option (string * Z) * Q) :=
  List.filter (fun c => bool_decide (c.1.2 = Some k)) stats.

Definition group_reads (stats : list (string * option (string * Z) * Q))
    (k : string * Z) : Q :=
  Qsum (map snd (cluster_group stats k)).

Definition group_clusters (stats : list (string * option (string * Z) * Q))
    (k : string * Z) : Z :=
  Z.of_nat (length (cluster_group stats k)).

(** [copy_corrections]: the mean, over the distinct assignment tax_ids of the
    group, of the median copy number of the tax_id (that of tax_id '1' when
    the table does not list it). *)
Definition copy_corrections (copy_numbers : list (string * Q)) (blast_results : list hit)
    : result (string * Z -> pyfloat) :=
  match group_rows fst "1" copy_numbers with
  | [] => Raise KeyError
  | (_, default) :: _ =>
      let corrections :=
        unique (map (fun h => (assignment_tax_id h, assignment_key h)) blast_results) in
      let medians (k : string * Z) : list Q :=
        flat_map (fun c =>
          match c.1 ≫= (fun t => match group_rows fst t copy_numbers with
                                 | [] => None
                                 | rows => Some (map snd rows)
                                 end) with
          | Some ms => ms
          | None => [default]
          end) (List.filter (fun c => bool_decide (c.2 = Some k)) corrections) in
      Ok (fun k => match medians k with
                   | [] => NaN
                   | ms => Fin (Qsum ms / inject_Z (Z.of_nat (length ms)))%Q
                   end)
  end.

(** [reads / corrections], [math.ceil], [fillna(1)], [astype(int)]
    (lines 766-769; the program is Python 2, where [math.ceil] returns a
    float and leaves NaN and the infinities as they are).  A correction of
    zero makes the quotient NaN when the reads are zero, which [fillna]
    turns into 1, and an infinity otherwise, which [fillna] leaves and the
    cast turns into an integer of numpy's choosing. *)
Definition corrected_count (rt : runtime) (reads : Q) (correction : pyfloat) : Z :=
  match correction with
  | Fin c =>
      if Qeq_bool c 0 then
        if Qeq_bool reads 0 then 1%Z else int_of_inf rt (Qltb 0 reads)
      else Qceiling (float_div rt reads c)
  | NaN => 1%Z
  end.

(** Lines 720-776: the rows of the summary before they are sorted. *)
Definition summary_rows (rt : runtime) (a : Args.t) (blast_results : list hit)
    : result (list out_row) :=
  let index := summary_index blast_results in
  let stats := cluster_stats a blast_results in
  let reads (k : string * Z * string) : Q := group_reads stats k.1 in
  let specimen_rows (s : string) := List.filter (fun k => bool_decide (k.1.1 = s)) index in
  corrections ←
    match Args.copy_numbers a with
    | Some copy_numbers =>
        c ← copy_corrections copy_numbers blast_results; Ok (Some c)
    | None => Ok None
    end;
  let corrected (k : string * Z * string) : option Z :=
    match corrections with
    | Some c => Some (corrected_count rt (reads k) (c k.1))
    | None => None
    end in
  rmapM (fun k =>
      let group := assignment_group blast_results k.1 in
      rk ← target_rank (map assignment_rank group) (Args.ranks a);
      Ok (mkOut k.1.1 (Some k.1.2) k.2
            (column_max (map pident group))
            (column_min (map pident group))
            (column_min (map assignment_threshold group))
            rk
            (pyround (reads k))
            (round_up (pct (Qsum (map reads (specimen_rows k.1.1))) (reads k)))
            (group_clusters stats k.1)
            (corrected k)
            (match corrected k with
             | Some c =>
                 round_up
                   (pct (Qsum (map (fun k' => inject_Z (default 0%Z (corrected k')))
                                   (specimen_rows k.1.1)))
                        (inject_Z c))
             | None => XNaN
             end)
            None)) index.

Definition summarize (rt : runtime) (a : Args.t) (blast_results : list hit)
    : result (list out_row) :=
  output ← summary_rows rt a blast_results;
  Ok (sort_and_number (sort_index_ties rt)
        (bool_decide (is_Some (Args.copy_numbers a))) output).

(** ** action *)

Definition action (rt : runtime) (a : Args.t) : result (list out_row * list hit) :=
  let qseqids := unique (map qseqid (load_blast_results a)) in
  selected ← classify_hits a;
  blast_results ← label_details rt a selected qseqids;
  output ← summarize rt a blast_results;
  Ok (output, blast_results).

(** ** Auxiliary notions for the pipeline properties *)

(** The run completes and every query of the input of which no hit is
    selected is reported: some row of the details is the row of [q], with
    the sentinel label and hash 0. *)
Definition every_query_without_hit_reported (rt : runtime) (a : Args.t) : Prop :=
  exists output details selected,
    action rt a = Ok (output, details) /\ classify_hits a = Ok selected /\
    forall q, In q (map qseqid (load_blast_results a)) ->
      (forall h, In h selected -> qseqid h <> q) ->
      exists row, In row details /\
        qseqid row = q /\ assignment row = Some "[no blast result]" /\
        assignment_hash row = Some 0%Z.

(** The hash given to a list of condensed ids. *)
Definition hash_of_ids (hash : gset string -> Z) (ids : list string) : Z :=
  hash (list_to_set (unique ids)).

(** The range of Python's [hash]: a machine integer of some width. *)
Definition machine_hash (hash : gset string -> Z) : Prop :=
  exists bound : Z, forall s, (- bound <= hash s < bound)%Z.

(** A tax_id for every number: [n] times the digit 1. *)
Fixpoint tally (n : nat) : string :=
  match n with
  | O => ""
  | S n' => String "1"%char (tally n')
  end.

(** ** Example run *)

Definition ex_runtime : runtime :=
  mkRuntime (fun ids _ _ _ => list_to_map (map (fun i => (i, i)) ids))
            (fun ids_stars _ => String.concat ";" (map fst ids_stars))
            (fun _ => 1%Z)
            (fun x y => (x / y)%Q)
            (fun _ => (-9223372036854775808)%Z)
            (fun _ _ => true).

(** a blast file with the single query q1, a specimen map that lists another
    query only *)
Definition ex_args : Args.t :=
  Args.mk [("q1", None, NaN, NaN)] [] [] ["root"] [] None None
    (Some [("q2", "039_3")]) None false [] false None None 1 None None
    (Fin (100#1)) 3 "species" false None.

(** ** Auxiliary notions for further properties *)

(** The row passes the filters of [raw_filtering] that are switched on. *)
Definition within_thresholds (min_coverage max_identity min_identity : option pyfloat)
    (h : hit) : bool :=
  (if truthy min_coverage then fge (qcovs h) (default NaN min_coverage) else true)
  && (if truthy max_identity then fle (pident h) (default NaN max_identity) else true)
  && (if truthy min_identity then fge (pident h) (default NaN min_identity) else true).

(** The columns a hit has when it enters [select_valid_hits] are the same in
    both rows (only the two assignment columns may differ). *)
Definition same_hit_columns (h' h : hit) : Prop :=
  qseqid h' = qseqid h /\ sseqid h' = sseqid h /\ pident h' = pident h /\
  qcovs h' = qcovs h /\ tax_id h' = tax_id h /\ accession h' = accession h /\
  tax_name h' = tax_name h /\ rank h' = rank h /\ rank_ids h' = rank_ids h /\
  thresholds h' = thresholds h.

(** The ranks from [r] on, in the order of the list ([ranks[index:]]). *)
Definition ranks_from (ranks : list string) (r : string) : list string :=
  match index ranks r with
  | Some i => drop i ranks
  | None => []
  end.

(** a reference sequence whose taxonomy row has no rank column filled *)
Definition ex_rootless_hit : hit :=
  blast_hit "q1" "sE" (98#1) [] ex_thresholds.

(** ** The grouped stages of [action], lines 672-715, one by one *)

Definition condense_stage (rt : runtime) (a : Args.t) (df : list hit) : list hit :=
  groupby_apply specimen_query_key
    (fun df => condense_ids rt df (Args.taxonomy a) (Args.ranks a) (Args.max_group_size a))
    df.

Definition star_stage (a : Args.t) (df : list hit) : list hit :=
  groupby_apply star_key (fun df => star df (Args.starred a)) df.

Definition assign_stage (rt : runtime) (a : Args.t) (df : list hit) : list hit :=
  groupby_apply assignment_key (fun df => assign rt df (Args.taxonomy a)) df.

Definition qseqid_le (x y : hit) : bool := String.leb (qseqid x) (qseqid y).

Definition assignment_hash_le (x y : hit) : bool :=
  match assignment_hash x, assignment_hash y with
  | Some m, Some n => Z.leb m n
  | Some _, None => true
  | None, Some _ => false
  | None, None => true
  end.

(** The table of lines 650-670: the selected hits, a row of nulls for every
    other query, and the specimens joined in. *)
Definition hits_and_queries (a : Args.t) (selected : list hit) (qseqids : list string)
    : list hit :=
  join_specimens a (join_qseqids selected qseqids).

(** The rows of [label_hits] that are built from a hit. *)
Definition labelled_hits (rt : runtime) (a : Args.t) (selected : list hit)
    (qseqids : list string) : list hit :=
  assign_stage rt a
    (sort_by assignment_hash_le
       (star_stage a
          (condense_stage rt a
             (sort_by qseqid_le
                (List.filter (fun h => notnull (sseqid h))
                             (hits_and_queries a selected qseqids)))))).

(** The columns of a classified hit, which the later stages leave as they
    are. *)
Definition same_classified_columns (h' h : hit) : Prop :=
  qseqid h' = qseqid h /\ sseqid h' = sseqid h /\ pident h' = pident h /\
  qcovs h' = qcovs h /\ tax_id h' = tax_id h /\ accession h' = accession h /\
  assignment_tax_id h' = assignment_tax_id h /\
  assignment_threshold h' = assignment_threshold h /\
  assignment_tax_name h' = assignment_tax_name h /\
  assignment_rank h' = assignment_rank h.

(** two classified hits of query q1, and a run without specimen map *)
Definition ex_selected : list hit :=
  [set_assignment (Some "S1") (Fin (97#1)) ex_species_hit;
   set_assignment (Some "G2") (Fin (97#1)) ex_other_genus_hit].

Definition ex_plain_args : Args.t :=
  Args.mk [] [] [] ["root"] [] None None None None false [] false None None
    1 None None (Fin (100#1)) 3 "species" false None.

(** a run with one query, one reference sequence and its taxon *)
Definition ex_taxon : taxon :=
  mkTaxon "S1" (Some "Species one") (Some "species")
    (list_to_map [("species", "S1"); ("genus", "G1"); ("root", "1")]).

Definition ex_run_args : Args.t :=
  Args.mk [("q1", Some "sA", Fin (98#1), Fin (100#1))]
    [mkSeqInfo "sA" (Some "S1") (Some "AB000001")] [ex_taxon] ex_root_first
    [("S1", list_to_map [("species", 97#1); ("genus", 95#1); ("root", 0#1)]%Q)]
    None None None None false [] false None None
    1 None None (Fin (100#1)) 3 "species" false None.

(** a run whose copy number table has no row for tax_id 1 *)
Definition ex_copy_args : Args.t :=
  Args.mk [] [] [] ["root"] [] (Some [("2", 4#1)]%Q) None None None false []
    false None None 1 None None (Fin (100#1)) 3 "species" false None.

(** the classified hits of that run *)
Definition ex_classified : list hit :=
  Eval vm_compute in
    match classify_hits ex_run_args with
    | Ok o => o
    | Raise _ => []
    end.

(** the summary of the labelled example hits *)
Definition ex_summary : list out_row :=
  Eval vm_compute in
    match summarize ex_runtime ex_plain_args
            (label_hits ex_runtime ex_plain_args ex_selected ["q1"; "q2"]) with
    | Ok o => o
    | Raise _ => []
    end.

Definition null_out_row : out_row :=
  mkOut "" None "" NaN NaN NaN None 0 XNaN 0 None XNaN None.

(** The copy numbers of the table, when one is given, are positive. *)
Definition positive_copy_numbers (a : Args.t) : Prop :=
  match Args.copy_numbers a with
  | Some copy_numbers => forall row, In row copy_numbers -> (0 < row.2)%Q
  | None => True
  end.

(** The hits of the group of specimen [row] and its assignment_hash and
    condensed id: the group of line 702 that [row] belongs to. *)
Definition star_group (details : list hit) (row : hit) : list hit :=
  List.filter (fun h => notnull (sseqid h) && bool_decide (star_key h = star_key row))
              details.

(** The hits that enter the condensing step of line 691. *)
Definition specimen_hits (a : Args.t) (selected : list hit) (qseqids : list string)
    : list hit :=
  sort_by qseqid_le
    (List.filter (fun h => notnull (sseqid h)) (hits_and_queries a selected qseqids)).

(** The map that [sequtils.condense_ids] returns for the group of specimen
    and query [k] of the table [df] (line 287). *)
Definition group_condensed (rt : runtime) (a : Args.t) (df : list hit)
    (k : string * string) : gmap string string :=
  sequtils_condense_ids rt
    (unique (omap assignment_tax_id (group_rows specimen_query_key (Some k) df)))
    (Args.taxonomy a) (Args.ranks a) (Args.max_group_size a).

(** ** Example runs

    Three taxa: two species of genus G1 and the genus G2; four reference
    sequences, two of them of species S1; the same thresholds for every
    taxon. *)

Definition ex_taxonomy : list taxon :=
  [ex_taxon;
   mkTaxon "S2" (Some "Species two") (Some "species")
     (list_to_map [("species", "S2"); ("genus", "G1"); ("root", "1")]);
   mkTaxon "G2" (Some "Genus two") (Some "genus")
     (list_to_map [("genus", "G2"); ("root", "1")])].

Definition ex_seq_info : list seq_info_row :=
  [mkSeqInfo "sA" (Some "S1") (Some "AB000001");
   mkSeqInfo "sB" (Some "S2") (Some "AB000002");
   mkSeqInfo "sC" (Some "G2") (Some "AB000003");
   mkSeqInfo "sD" (Some "S1") (Some "AB000004")].

Definition ex_threshold_table : threshold_table :=
  map (fun t => (t, list_to_map [("species", 97#1); ("genus", 95#1); ("root", 0#1)]%Q))
      ["S1"; "S2"; "G2"].

(** a run on these tables, star threshold 100 *)
Definition ex_world (blast_file : list (string * option string * pyfloat * pyfloat))
    (specimen_map : option (list (string * string))) (specimen : option string)
    (copy_numbers : option (list (string * Q))) : Args.t :=
  Args.mk blast_file ex_seq_info ex_taxonomy ex_root_first ex_threshold_table
    copy_numbers None specimen_map None false [] false None None
    1 None specimen (Fin (100#1)) 3 "species" false None.

(** a runtime whose hash tells the sets with S1 from the others, and whose
    labels show the stars *)
Definition ex_runtime_star : runtime :=
  mkRuntime (fun ids _ _ _ => list_to_map (map (fun i => (i, i)) ids))
            (fun ids_stars _ =>
               String.concat ";"
                 (map (fun p : string * bool => if p.2 then (p.1 ++ "*")%string else p.1)
                      ids_stars))
            (fun s => if bool_decide ("S1" ∈ s) then 11%Z else 12%Z)
            (fun x y => (x / y)%Q)
            (fun _ => (-9223372036854775808)%Z)
            (fun _ _ => true).

(** the same with a sort that reverses the rows of a specimen *)
Definition ex_runtime_reversing : runtime :=
  mkRuntime (sequtils_condense_ids ex_runtime_star)
            (sequtils_compound_assignment ex_runtime_star)
            (hash_frozenset ex_runtime_star)
            (float_div ex_runtime_star)
            (int_of_inf ex_runtime_star)
            (fun _ _ => false).

Definition run_output (r : result (list out_row * list hit)) : list out_row :=
  match r with
  | Ok o => o.1
  | Raise _ => []
  end.

Definition run_details (r : result (list out_row * list hit)) : list hit :=
  match r with
  | Ok o => o.2
  | Raise _ => []
  end.

(** query q1 hits a sequence of species S1 and one of genus G2 *)
Definition ex_two_ranks_args : Args.t :=
  ex_world [("q1", Some "sA", Fin (98#1), Fin (100#1));
            ("q1", Some "sC", Fin (98#1), Fin (100#1))] None None None.

Definition ex_two_ranks_output : list out_row :=
  Eval vm_compute in run_output (action ex_runtime_star ex_two_ranks_args).

Definition ex_two_ranks_details : list hit :=
  Eval vm_compute in run_details (action ex_runtime_star ex_two_ranks_args).

(** two queries of one specimen, one hit of species S1 and one of S2 *)
Definition ex_tie_args : Args.t :=
  ex_world [("q1", Some "sA", Fin (98#1), Fin (100#1));
            ("q2", Some "sB", Fin (98#1), Fin (100#1))] None (Some "s") None.

Definition ex_tie_output : list out_row :=
  Eval vm_compute in run_output (action ex_runtime_star ex_tie_args).

Definition ex_tie_details : list hit :=
  Eval vm_compute in run_details (action ex_runtime_star ex_tie_args).

(** two queries of one specimen hit S1 and a third hits S2 *)
Definition ex_counts_args : Args.t :=
  ex_world [("q1", Some "sA", Fin (98#1), Fin (100#1));
            ("q2", Some "sA", Fin (98#1), Fin (100#1));
            ("q3", Some "sB", Fin (98#1), Fin (100#1))] None (Some "s") None.

Definition ex_counts_output : list out_row :=
  Eval vm_compute in run_output (action ex_runtime_reversing ex_counts_args).

(** query q1 has a hit and query q2 has none *)
Definition ex_no_hit_blast : list (string * option string * pyfloat * pyfloat) :=
  [("q1", Some "sA", Fin (98#1), Fin (100#1)); ("q2", None, NaN, NaN)].

Definition ex_no_hit_args : Args.t := ex_world ex_no_hit_blast None None None.

Definition ex_no_hit_output : list out_row :=
  Eval vm_compute in run_output (action ex_runtime_star ex_no_hit_args).

Definition ex_no_hit_details : list hit :=
  Eval vm_compute in run_details (action ex_runtime_star ex_no_hit_args).

Definition ex_no_hit_selected : list hit :=
  Eval vm_compute in
    match classify_hits ex_no_hit_args with
    | Ok o => o
    | Raise _ => []
    end.

(** the same with a specimen map that lists query q1 only *)
Definition ex_unmapped_args : Args.t :=
  ex_world ex_no_hit_blast (Some [("q1", "sp1")]) None None.

Definition ex_unmapped_output : list out_row :=
  Eval vm_compute in run_output (action ex_runtime_star ex_unmapped_args).

Definition ex_unmapped_details : list hit :=
  Eval vm_compute in run_details (action ex_runtime_star ex_unmapped_args).

(** query q1 hits two sequences of species S1 and query q2 one of them, in
    one specimen *)
Definition ex_same_set_args : Args.t :=
  ex_world [("q1", Some "sA", Fin (98#1), Fin (100#1));
            ("q1", Some "sD", Fin (99#1), Fin (100#1));
            ("q2", Some "sA", Fin (98#1), Fin (100#1))] None (Some "s") None.

Definition ex_same_set_selected : list hit :=
  Eval vm_compute in
    match classify_hits ex_same_set_args with
    | Ok o => o
    | Raise _ => []
    end.

Definition ex_same_set_details : list hit :=
  Eval vm_compute in run_details (action ex_runtime_star ex_same_set_args).

(** queries q1 and q2, each a specimen of its own, hit the same sequence,
    q1 at the star threshold and q2 below it *)
Definition ex_star_args : Args.t :=
  ex_world [("q1", Some "sA", Fin (100#1), Fin (100#1));
            ("q2", Some "sA", Fin (98#1), Fin (100#1))] None None None.

Definition ex_star_selected : list hit :=
  Eval vm_compute in
    match classify_hits ex_star_args with
    | Ok o => o
    | Raise _ => []
    end.

Definition ex_star_details : list hit :=
  Eval vm_compute in run_details (action ex_runtime_star ex_star_args).

Definition ex_star_output : list out_row :=
  Eval vm_compute in run_output (action ex_runtime_star ex_star_args).
(** * Properties *)

(** ** Comparisons of floats *)

Lemma Qltb_lt (x y : Q) : Qltb x y = true <-> (x < y)%Q.
Proof.
  unfold Qltb. rewrite negb_true_iff. split.
  - intros H. apply Qnot_le_lt. intros Hle.
    apply Qle_bool_iff in Hle. congruence.
  - intros H. destruct (Qle_bool y x) eqn:E; [|reflexivity].
    apply Qle_bool_iff in E. exfalso. exact (Qlt_not_le _ _ H E).
Qed.

Lemma flt_spec (a b : pyfloat) :
  flt a b = true <-> exists x y, a = Fin x /\ b = Fin y /\ (x < y)%Q.
Proof.
  split.
  - destruct a as [|x], b as [|y]; simpl; try discriminate.
    intros H. exists x, y. rewrite <- Qltb_lt. auto.
  - intros (x & y & -> & -> & H). simpl. now apply Qltb_lt.
Qed.

Lemma fge_spec (a b : pyfloat) :
  fge a b = true <-> exists x y, a = Fin x /\ b = Fin y /\ (y <= x)%Q.
Proof.
  unfold fge. split.
  - destruct a as [|x], b as [|y]; simpl; try discriminate.
    intros H. exists x, y. rewrite <- Qle_bool_iff. auto.
  - intros (x & y & -> & -> & H). simpl. now apply Qle_bool_iff.
Qed.

Lemma feq_spec (a b : pyfloat) :
  feq a b = true <-> exists x y, a = Fin x /\ b = Fin y /\ (x == y)%Q.
Proof.
  split.
  - destruct a as [|x], b as [|y]; simpl; try discriminate.
    intros H. exists x, y. rewrite <- Qeq_bool_iff. auto.
  - intros (x & y & -> & -> & H). simpl. now apply Qeq_bool_iff.
Qed.

Lemma feq_not_flt (a b : pyfloat) : feq a b = true -> flt b a = false.
Proof.
  intros H. apply feq_spec in H as (x & y & -> & -> & H).
  apply not_true_is_false. intros Hlt. apply Qltb_lt in Hlt.
  rewrite H in Hlt. exact (Qlt_irrefl _ Hlt).
Qed.

Lemma feq_fge (a b : pyfloat) : feq a b = true -> fge a b = true.
Proof.
  intros H. apply feq_spec in H as (x & y & -> & -> & H).
  apply fge_spec. exists x, y. repeat split. rewrite H. apply Qle_refl.
Qed.

(** ** The hit selector *)

Lemma rmapM_pure {A B : Type} (f : A -> result B) (g : A -> B) (l : list A) :
  (forall a, In a l -> f a = Ok (g a)) -> rmapM f l = Ok (map g l).
Proof.
  induction l as [|a l IH]; intros H; simpl; [reflexivity|].
  rewrite (H a (or_introl eq_refl)). simpl.
  rewrite IH by (intros; apply H; now right). reflexivity.
Qed.

Lemma rmapM_Ok {A B : Type} (f : A -> result B) (l : list A) (bs : list B) :
  rmapM f l = Ok bs -> Forall2 (fun a b => f a = Ok b) l bs.
Proof.
  revert bs. induction l as [|a l IH]; simpl; intros bs H.
  - injection H as <-. constructor.
  - destruct (f a) as [b|e] eqn:Ea; simpl in H; [|discriminate].
    destruct (rmapM f l) as [bs'|e] eqn:El; simpl in H; [|discriminate].
    injection H as <-. constructor; auto.
Qed.

Lemma rmapM_total {A B : Type} (f : A -> result B) (l : list A) :
  (forall a, In a l -> exists b, f a = Ok b) -> exists bs, rmapM f l = Ok bs.
Proof.
  induction l as [|a l IH]; intros H; simpl; [eauto|].
  destruct (H a (or_introl eq_refl)) as [b ->].
  destruct IH as [bs ->]; [intros; apply H; now right|].
  simpl. eauto.
Qed.

(** The column [tax_ids] is, row by row, [resolved_tax_id], whether or not a
    tax_id is missing at rank [r]. *)
Lemma assign_at_resolved (valid : list hit) (r : string) (ranks : list string) :
  assign_at valid r ranks =
    (tax_ids ← rmapM (resolved_tax_id valid r ranks) valid;
     Ok (List.filter (fun h => notnull (assignment_tax_id h))
           (map (fun '(h, t) => set_assignment t (threshold h r) h)
                (combine valid tax_ids)))).
Proof.
  unfold assign_at.
  destruct (existsb id (map (fun h => isnull (rank_ids h !! r)) valid)) eqn:E.
  - reflexivity.
  - assert (Hall : forall h, In h valid -> isnull (rank_ids h !! r) = false).
    { intros h Hh. destruct (isnull (rank_ids h !! r)) eqn:Eh; [|reflexivity].
      assert (existsb id (map (fun h => isnull (rank_ids h !! r)) valid) = true).
      { apply existsb_exists. exists true. split; [|reflexivity].
        apply in_map_iff. eauto. }
      congruence. }
    rewrite (rmapM_pure (resolved_tax_id valid r ranks)
               (fun h => rank_ids h !! r)).
    + reflexivity.
    + intros h Hh. unfold resolved_tax_id. now rewrite Hall.
Qed.

Lemma filter_assigned (valid : list hit) (r : string) (ranks : list string)
    (l : list hit) (ts : list (option string)) :
  Forall2 (fun a b => resolved_tax_id valid r ranks a = Ok b) l ts ->
  List.filter (fun h => notnull (assignment_tax_id h))
    (map (fun '(h, t) => set_assignment t (threshold h r) h) (combine l ts))
  = omap (selected_row valid r ranks) l.
Proof.
  induction 1 as [|h t l ts Hh _ IH]; [reflexivity|].
  cbn [combine map List.filter omap list_omap]. unfold selected_row at 1.
  rewrite Hh, IH. destruct t; reflexivity.
Qed.

(** What [assign_at] returns: the rows of [valid] that resolve to a tax_id,
    in order, each with its assignment columns set. *)
Lemma assign_at_Ok (valid : list hit) (r : string) (ranks : list string)
    (out : list hit) :
  assign_at valid r ranks = Ok out ->
  out = omap (selected_row valid r ranks) valid.
Proof.
  rewrite assign_at_resolved.
  destruct (rmapM (resolved_tax_id valid r ranks) valid) as [ts|e] eqn:E;
    simpl; [|discriminate].
  intros H. injection H as <-.
  apply filter_assigned. now apply rmapM_Ok.
Qed.

Lemma selected_row_inv (valid : list hit) (r : string) (ranks : list string)
    (h h' : hit) :
  selected_row valid r ranks h = Some h' ->
  exists t, h' = set_assignment (Some t) (threshold h r) h.
Proof.
  unfold selected_row.
  destruct (resolved_tax_id valid r ranks h) as [[t|]|]; try discriminate.
  intros H. injection H as <-. eauto.
Qed.

Lemma assign_at_rows (valid : list hit) (r : string) (ranks : list string)
    (out : list hit) :
  assign_at valid r ranks = Ok out ->
  forall h', In h' out ->
    exists h t, In h valid /\ h' = set_assignment (Some t) (threshold h r) h.
Proof.
  intros H h' Hin. apply assign_at_Ok in H. subst out.
  apply list_elem_of_In, list_elem_of_omap in Hin as (h & Hh & Hsel).
  apply selected_row_inv in Hsel as [t ->].
  exists h, t. split; [now apply list_elem_of_In|reflexivity].
Qed.

(** The loop stops at the first selectable rank. *)
Lemma select_loop_find (df : list hit) (ranks todo : list string) :
  select_loop df ranks todo =
    match List.find (selectable df) todo with
    | Some r => out ← assign_at (valid_hits df r) r ranks; Ok (Some out)
    | None => Ok None
    end.
Proof.
  induction todo as [|r todo IH]; [reflexivity|].
  cbn [select_loop List.find]. unfold selectable at 1.
  destruct (valid_hits df r) as [|h valid] eqn:E.
  - exact IH.
  - destruct (forallb (fun h0 => isnull (rank_ids h0 !! r)) (h :: valid));
      cbn [negb]; [exact IH|now rewrite E].
Qed.

Lemma find_first {A : Type} (f : A -> bool) (l : list A) (x : A) :
  List.find f l = Some x ->
  exists pre post, l = pre ++ x :: post /\ f x = true /\
                   forall y, In y pre -> f y = false.
Proof.
  induction l as [|a l IH]; simpl; [discriminate|].
  destruct (f a) eqn:Ea.
  - intros H. injection H as <-. exists [], l. repeat split; [assumption|].
    intros y [].
  - intros H. destruct (IH H) as (pre & post & -> & Hx & Hpre).
    exists (a :: pre), post. repeat split; [assumption|].
    intros y [<-|Hy]; auto.
Qed.

Lemma find_none {A : Type} (f : A -> bool) (l : list A) :
  List.find f l = None <-> forall y, In y l -> f y = false.
Proof.
  split.
  - intros H y Hy. exact (List.find_none f l H y Hy).
  - induction l as [|a l IH]; intros H; simpl; [reflexivity|].
    rewrite (H a (or_introl eq_refl)). apply IH. intros; apply H; now right.
Qed.

Lemma selectable_false (df : list hit) (r : string) :
  selectable df r = false <->
  forall h, In h (valid_hits df r) -> rank_ids h !! r = None.
Proof.
  unfold selectable. rewrite negb_false_iff, forallb_forall.
  split; intros H h Hh; specialize (H h Hh).
  - destruct (rank_ids h !! r); [discriminate|reflexivity].
  - now rewrite H.
Qed.

Lemma selectable_true (df : list hit) (r : string) :
  selectable df r = true <->
  exists h, In h (valid_hits df r) /\ rank_ids h !! r <> None.
Proof.
  split.
  - intros H. destruct (forallb (fun h => isnull (rank_ids h !! r)) (valid_hits df r)) eqn:E.
    + unfold selectable in H. rewrite E in H. discriminate.
    + clear H. induction (valid_hits df r) as [|h l IH]; simpl in E; [discriminate|].
      apply andb_false_iff in E as [E|E].
      * exists h. split; [now left|]. destruct (rank_ids h !! r); [discriminate|discriminate].
      * destruct (IH E) as (h' & Hh' & Hn). exists h'. split; [now right|assumption].
  - intros (h & Hh & Hn). destruct (selectable df r) eqn:E; [reflexivity|].
    exfalso. apply Hn. now apply (proj1 (selectable_false df r) E).
Qed.

(** C1 (as the program has it): [select_valid_hits] walks the ranks in the
    order given (most specific first) and returns from the first rank at
    which some hit passes the threshold and has a tax_id; a rank where hits
    pass the threshold but none has a tax_id is skipped like a rank where no
    hit passes.  Every row returned is a valid hit of that one rank, and
    nothing is returned exactly when no rank has such a hit. *)
Theorem select_valid_hits_first_rank_with_tax_id (df : list hit) (ranks : list string) :
  select_valid_hits df ranks =
    match List.find (selectable df) ranks with
    | Some r => out ← assign_at (valid_hits df r) r ranks; Ok (Some out)
    | None => Ok None
    end
  /\ (forall out, select_valid_hits df ranks = Ok (Some out) ->
        exists pre r post, ranks = pre ++ r :: post /\
          (forall r' h, In r' pre -> In h (valid_hits df r') -> rank_ids h !! r' = None) /\
          (exists h, In h (valid_hits df r) /\ rank_ids h !! r <> None) /\
          out = omap (selected_row (valid_hits df r) r ranks) (valid_hits df r) /\
          forall h', In h' out ->
            exists h t, In h (valid_hits df r) /\
                        h' = set_assignment (Some t) (threshold h r) h)
  /\ (select_valid_hits df ranks = Ok None <->
        forall r h, In r ranks -> In h (valid_hits df r) -> rank_ids h !! r = None).
Proof.
  unfold select_valid_hits.
  pose proof (select_loop_find df ranks ranks) as Heq.
  split; [exact Heq|]. split.
  - intros out Hout. rewrite Heq in Hout.
    destruct (List.find (selectable df) ranks) as [r|] eqn:Ef; [|discriminate].
    apply find_first in Ef as (pre & post & -> & Hr & Hpre).
    exists pre, r, post. split; [reflexivity|].
    destruct (assign_at (valid_hits df r) r (pre ++ r :: post)) as [o|e] eqn:Ea;
      simpl in Hout; [|discriminate].
    injection Hout as ->.
    split; [|split; [|split]].
    + intros r' h Hr' Hh. exact (proj1 (selectable_false df r') (Hpre r' Hr') h Hh).
    + now apply selectable_true.
    + exact (assign_at_Ok _ _ _ _ Ea).
    + exact (assign_at_rows _ _ _ _ Ea).
  - rewrite Heq. split.
    + intros H r h Hr Hh.
      destruct (List.find (selectable df) ranks) as [r0|] eqn:Ef.
      * destruct (assign_at (valid_hits df r0) r0 ranks); discriminate.
      * apply (proj1 (selectable_false df r)); [|assumption].
        exact (proj1 (find_none _ _) Ef r Hr).
    + intros H. replace (List.find (selectable df) ranks) with (@None string); [reflexivity|].
      symmetry. apply find_none. intros r Hr. apply selectable_false.
      intros h Hh. now apply H.
Qed.

Lemma select_valid_hits_first_rank_with_tax_id_witness :
  exists out, select_valid_hits [ex_genus_hit] ex_ranks = Ok (Some out) /\
    exists pre r post, ex_ranks = pre ++ r :: post /\
      (forall r' h, In r' pre -> In h (valid_hits [ex_genus_hit] r') ->
                    rank_ids h !! r' = None) /\
      (exists h, In h (valid_hits [ex_genus_hit] r) /\ rank_ids h !! r <> None).
Proof.
  eexists. split; [vm_compute; reflexivity|].
  destruct (proj1 (proj2 (select_valid_hits_first_rank_with_tax_id
                            [ex_genus_hit] ex_ranks)) _ eq_refl)
    as (pre & r & post & H1 & H2 & H3 & _).
  exists pre, r, post. auto.
Defined.

(** C1, counterexample: one hit that passes the species threshold but has no
    tax_id at species.  The valid set of the first rank is not empty, yet
    the loop goes on and the row returned is a genus assignment. *)
Lemma select_valid_hits_examines_less_specific_rank :
  ~ first_match_wins [ex_genus_hit] ex_ranks.
Proof.
  intros H.
  destruct (H [set_assignment (Some "G1") (Fin (95#1)) ex_genus_hit]) as (r & Hr & Hrows).
  - vm_compute. reflexivity.
  - vm_compute in Hr. injection Hr as <-.
    destruct (Hrows _ (or_introl eq_refl)) as (h & t & Hh & Heq).
    vm_compute in Hh. destruct Hh as [<-|[]].
    apply (f_equal assignment_threshold) in Heq. vm_compute in Heq.
    discriminate Heq.
Qed.

Lemma valid_hits_In (df : list hit) (r : string) (h : hit) :
  In h (valid_hits df r) <-> In h df /\ flt (threshold h r) (pident h) = true.
Proof. unfold valid_hits. apply filter_In. Qed.

Lemma threshold_Fin (h : hit) (r : string) (t : Q) :
  threshold h r = Fin t <-> thresholds h !! r = Some t.
Proof.
  unfold threshold. destruct (thresholds h !! r) as [q|]; split; intros H;
    try discriminate; congruence.
Qed.

(** Every row returned comes from one rank of the list and from a hit that
    is valid at that rank. *)
Lemma select_valid_hits_rows (df : list hit) (ranks : list string) (out : list hit) :
  select_valid_hits df ranks = Ok (Some out) ->
  exists r, In r ranks /\
    forall h', In h' out ->
      exists h t, In h (valid_hits df r) /\
                  h' = set_assignment (Some t) (threshold h r) h.
Proof.
  unfold select_valid_hits. rewrite select_loop_find.
  destruct (List.find (selectable df) ranks) as [r|] eqn:Ef; [|discriminate].
  destruct (assign_at (valid_hits df r) r ranks) as [o|e] eqn:Ea; [|discriminate].
  intros H. injection H as <-. exists r. split.
  - apply find_first in Ef as (pre & post & -> & _). apply in_elt.
  - exact (assign_at_rows _ _ _ _ Ea).
Qed.

(** C2: a hit is in the valid set of rank [r] exactly when its [pident] is
    strictly above the threshold of rank [r] joined to it (a missing
    threshold admits nothing).  A hit whose [pident] equals the threshold is
    not valid at [r]; every row that [select_valid_hits] returns lies strictly
    above the threshold recorded in [assignment_threshold], so the boundary
    hit is never returned with the threshold of [r]. *)
Theorem valid_hits_strictly_above_threshold (df : list hit) (r : string) (h : hit) :
  (In h (valid_hits df r) <->
     In h df /\ exists t p, thresholds h !! r = Some t /\ pident h = Fin p /\ (t < p)%Q)
  /\ (feq (pident h) (threshold h r) = true -> ~ In h (valid_hits df r))
  /\ (forall ranks out h', select_valid_hits df ranks = Ok (Some out) ->
        In h' out -> flt (assignment_threshold h') (pident h') = true)
  /\ (feq (pident h) (threshold h r) = true ->
      forall ranks out t, select_valid_hits df ranks = Ok (Some out) ->
        ~ In (set_assignment t (threshold h r) h) out).
Proof.
  assert (Hrows : forall ranks out h', select_valid_hits df ranks = Ok (Some out) ->
            In h' out -> flt (assignment_threshold h') (pident h') = true).
  { intros ranks out h' Hsel Hin.
    destruct (select_valid_hits_rows _ _ _ Hsel) as (r0 & _ & Hr0).
    destruct (Hr0 h' Hin) as (h0 & t & Hh0 & ->). simpl.
    now apply valid_hits_In in Hh0 as [_ Hh0]. }
  split; [|split; [|split]].
  - rewrite valid_hits_In, flt_spec. split.
    + intros (Hin & t & p & Ht & Hp & Hlt). split; [assumption|].
      exists t, p. rewrite <- threshold_Fin. auto.
    + intros (Hin & t & p & Ht & Hp & Hlt). split; [assumption|].
      exists t, p. rewrite threshold_Fin. auto.
  - intros Heq Hin. apply valid_hits_In in Hin as [_ Hlt].
    apply feq_not_flt in Heq. congruence.
  - exact Hrows.
  - intros Heq ranks out t Hsel Hin.
    specialize (Hrows ranks out _ Hsel Hin). simpl in Hrows.
    apply feq_not_flt in Heq. congruence.
Qed.

Lemma valid_hits_strictly_above_threshold_witness :
  ~ In ex_boundary_hit (valid_hits [ex_species_hit; ex_boundary_hit] "species")
  /\ In ex_species_hit (valid_hits [ex_species_hit; ex_boundary_hit] "species").
Proof.
  split.
  - apply (valid_hits_strictly_above_threshold
             [ex_species_hit; ex_boundary_hit] "species" ex_boundary_hit).
    vm_compute. reflexivity.
  - apply (valid_hits_strictly_above_threshold
             [ex_species_hit; ex_boundary_hit] "species" ex_species_hit).
    split; [now left|].
    exists (97#1)%Q, (98#1)%Q. repeat split.
Defined.

(** ** Missing tax_ids at the selected rank *)

Lemma index_app_fresh (pre : list string) (r : string) (rest : list string) :
  ~ In r pre -> index (pre ++ r :: rest) r = Some (length pre).
Proof.
  induction pre as [|x pre IH]; intros Hn; simpl.
  - now rewrite String.eqb_refl.
  - destruct (String.eqb x r) eqn:E.
    + apply String.eqb_eq in E. exfalso. apply Hn. now left.
    + rewrite IH; [reflexivity|]. intros Hin. apply Hn. now right.
Qed.

Lemma index_In (ranks : list string) (r : string) :
  In r ranks -> exists pre rest, ranks = pre ++ r :: rest /\ ~ In r pre.
Proof.
  induction ranks as [|x ranks IH]; intros Hin; [destruct Hin|].
  destruct (String.eqb x r) eqn:E.
  - apply String.eqb_eq in E. subst x. exists [], ranks. split; [reflexivity|].
    intros [].
  - apply String.eqb_neq in E. destruct Hin as [->|Hin]; [congruence|].
    destruct (IH Hin) as (pre & rest & -> & Hn).
    exists (x :: pre), rest. split; [reflexivity|].
    intros [->|H]; [congruence|auto].
Qed.

Lemma nonnull_cells_skip (series : hit) (mid rest : list string) :
  (forall m, In m mid -> rank_ids series !! m = None) ->
  nonnull_cells series (mid ++ rest) = nonnull_cells series rest.
Proof.
  intros H. induction mid as [|m mid IH]; [reflexivity|].
  unfold nonnull_cells in *. cbn [app omap list_omap].
  rewrite (H m (or_introl eq_refl)). apply IH. intros; apply H; now right.
Qed.

Lemma nonnull_cells_nonempty (series : hit) (cols : list string) (c : string) :
  In c cols -> rank_ids series !! c <> None -> nonnull_cells series cols <> [].
Proof.
  induction cols as [|x cols IH]; intros Hin Hc; [destruct Hin|].
  unfold nonnull_cells in *. cbn [omap list_omap].
  destruct (rank_ids series !! x) as [v|] eqn:E; [discriminate|].
  destruct Hin as [->|Hin]; [congruence|]. now apply IH.
Qed.

Lemma in_column_spec (value : string) (valids : list hit) (key : string) :
  in_column value valids key = true <->
  exists h, In h valids /\ rank_ids h !! key = Some value.
Proof.
  unfold in_column. rewrite existsb_exists. split.
  - intros (h & Hh & Hv). exists h. split; [assumption|].
    destruct (rank_ids h !! key) as [x|]; [|discriminate].
    apply String.eqb_eq in Hv. now subst.
  - intros (h & Hh & Hv). exists h. split; [assumption|].
    rewrite Hv. apply String.eqb_refl.
Qed.

Lemma resolved_tax_id_total (valid : list hit) (r : string) (pre rest : list string)
    (h : hit) :
  ~ In r pre ->
  (exists c, In c (r :: rest) /\ rank_ids h !! c <> None) ->
  exists b, resolved_tax_id valid r (pre ++ r :: rest) h = Ok b.
Proof.
  intros Hn (c & Hc & Hv). unfold resolved_tax_id.
  destruct (isnull (rank_ids h !! r)); [|eauto].
  unfold find_tax_id. rewrite (index_app_fresh _ _ _ Hn), drop_app_length.
  pose proof (nonnull_cells_nonempty h _ c Hc Hv) as Hne.
  destruct (nonnull_cells h (r :: rest)) as [|[key value] l]; [congruence|eauto].
Qed.

(** C3 (as the program has it): a valid hit without tax_id at rank [r] adopts
    the tax_id [v] it carries at the next less specific rank [k] that has
    one, unless [v] already stands in the column of rank [k] of a valid hit
    that has a tax_id at [r] (that is, unless a hit found directly at [r] has
    [v] as its ancestor at rank [k]); in that case it gets no
    assignment_tax_id and contributes no row to the value returned. *)
Theorem bumped_tax_id_unless_ancestor_of_direct_hit
    (valid : list hit) (series : hit) (pre mid post : list string) (r k v : string) :
  ~ In r pre ->
  rank_ids series !! r = None ->
  (forall m, In m mid -> rank_ids series !! m = None) ->
  rank_ids series !! k = Some v ->
  let ranks := pre ++ r :: mid ++ k :: post in
  let have_ids := List.filter (fun h => notnull (rank_ids h !! r)) valid in
  find_tax_id series have_ids r ranks =
    Ok (if in_column v have_ids k then None else Some v)
  /\ selected_row valid r ranks series =
       (if in_column v have_ids k then None
        else Some (set_assignment (Some v) (threshold series r) series))
  /\ (in_column v have_ids k = true <->
        exists h, In h valid /\ rank_ids h !! r <> None /\ rank_ids h !! k = Some v)
  /\ (forall out, assign_at valid r ranks = Ok out ->
        out = omap (selected_row valid r ranks) valid)
  /\ ((forall h, In h valid ->
         exists c, In c (r :: mid ++ k :: post) /\ rank_ids h !! c <> None) ->
      exists out, assign_at valid r ranks = Ok out).
Proof.
  intros Hn Hr Hmid Hk ranks have_ids.
  assert (Hfind : find_tax_id series have_ids r ranks =
                    Ok (if in_column v have_ids k then None else Some v)).
  { unfold find_tax_id, ranks. rewrite (index_app_fresh _ _ _ Hn), drop_app_length.
    change (r :: mid ++ k :: post) with ([r] ++ mid ++ k :: post).
    rewrite nonnull_cells_skip by (intros m [<-|[]]; exact Hr).
    rewrite nonnull_cells_skip by exact Hmid.
    unfold nonnull_cells. cbn [omap list_omap]. rewrite Hk. reflexivity. }
  split; [exact Hfind|]. split; [|split; [|split]].
  - unfold selected_row, resolved_tax_id. rewrite Hr. cbn [isnull].
    fold have_ids. rewrite Hfind.
    destruct (in_column v have_ids k); reflexivity.
  - rewrite in_column_spec. unfold have_ids. split.
    + intros (h & Hh & Hv). apply filter_In in Hh as [Hh Hnn].
      exists h. repeat split; [assumption| |assumption].
      destruct (rank_ids h !! r); [discriminate|discriminate].
    + intros (h & Hh & Hnn & Hv). exists h. split; [|assumption].
      apply filter_In. split; [assumption|].
      destruct (rank_ids h !! r); [reflexivity|congruence].
  - intros out. apply assign_at_Ok.
  - intros Hall. rewrite assign_at_resolved.
    destruct (rmapM_total (resolved_tax_id valid r ranks) valid) as [ts Hts].
    + intros h Hh. apply resolved_tax_id_total; [assumption|]. now apply Hall.
    + rewrite Hts. simpl. eauto.
Qed.

Lemma bumped_tax_id_unless_ancestor_of_direct_hit_witness :
  selected_row [ex_species_hit; ex_genus_hit; ex_other_genus_hit] "species"
    ex_ranks ex_other_genus_hit
  = Some (set_assignment (Some "G2") (Fin (97#1)) ex_other_genus_hit)
  /\ selected_row [ex_species_hit; ex_genus_hit; ex_other_genus_hit] "species"
       ex_ranks ex_genus_hit = None.
Proof.
  split.
  - refine (proj1 (proj2 (bumped_tax_id_unless_ancestor_of_direct_hit
      [ex_species_hit; ex_genus_hit; ex_other_genus_hit] ex_other_genus_hit
      [] [] ["root"] "species" "genus" "G2" _ _ _ _))).
    + intros [].
    + vm_compute. reflexivity.
    + intros m [].
    + vm_compute. reflexivity.
  - refine (proj1 (proj2 (bumped_tax_id_unless_ancestor_of_direct_hit
      [ex_species_hit; ex_genus_hit; ex_other_genus_hit] ex_genus_hit
      [] [] ["root"] "species" "genus" "G1" _ _ _ _))).
    + intros [].
    + vm_compute. reflexivity.
    + intros m [].
    + vm_compute. reflexivity.
Defined.

(** C3, counterexample: a hit classified to genus G1 only and a hit
    classified to species S1 of G1, both above the species threshold.  G1 is
    not among the ids found at rank species, so the rule that tests the
    column of the selected rank adopts G1; the program tests the genus column
    and drops the hit. *)
Lemma genus_hit_dropped_though_absent_at_selected_rank :
  in_column "G1" [ex_species_hit] "species" = false
  /\ find_tax_id_at_rank ex_genus_hit [ex_species_hit] "species" ex_ranks = Ok (Some "G1")
  /\ find_tax_id ex_genus_hit [ex_species_hit] "species" ex_ranks = Ok None
  /\ find_tax_id ex_genus_hit [ex_species_hit] "species" ex_ranks
     <> find_tax_id_at_rank ex_genus_hit [ex_species_hit] "species" ex_ranks
  /\ select_valid_hits [ex_species_hit; ex_genus_hit] ex_ranks
     = Ok (Some [set_assignment (Some "S1") (Fin (97#1)) ex_species_hit]).
Proof.
  repeat split; try (vm_compute; reflexivity).
  vm_compute. discriminate.
Qed.

(** ** Starring *)

Lemma fge_fmax (a b t : pyfloat) :
  fge (fmax a b) t = fge a t || fge b t.
Proof.
  destruct a as [|x], b as [|y]; cbn [fmax]; unfold fge; cbn [fle].
  - destruct t; reflexivity.
  - destruct t; reflexivity.
  - destruct t; [reflexivity|]. now rewrite orb_false_r.
  - destruct t as [|q]; cbn [fle]; [destruct (Qle_bool x y); reflexivity|].
    destruct (Qle_bool x y) eqn:Exy; cbn [fle].
    + destruct (Qle_bool q x) eqn:Eqx; [|reflexivity].
      cbn [orb]. apply Qle_bool_iff in Exy, Eqx. apply Qle_bool_iff.
      eapply Qle_trans; eassumption.
    + destruct (Qle_bool q y) eqn:Eqy; [|now rewrite orb_false_r].
      rewrite orb_true_r. apply Qle_bool_iff in Eqy. apply Qle_bool_iff.
      destruct (Qlt_le_dec y x) as [Hlt|Hle].
      * apply Qlt_le_weak. eapply Qle_lt_trans; eassumption.
      * apply Qle_bool_iff in Hle. congruence.
Qed.

Lemma any_fge_column_max (s : list pyfloat) (t : pyfloat) :
  existsb (fun x => fge x t) s = fge (column_max s) t.
Proof.
  induction s as [|a s IH]; cbn [existsb column_max foldr].
  - destruct t; reflexivity.
  - fold (column_max s). now rewrite fge_fmax, IH.
Qed.

(** After [star], every row of the group carries the same flag, and the
    flag is true exactly when some hit of the group has [pident] greater than
    or equal to the threshold, that is, when the maximum of [pident] over the
    group reaches it. *)
Lemma star_rows_flag (df : list hit) (thr : pyfloat) (h' : hit) :
  In h' (star df thr) ->
  (starred h' = Some true <-> exists h, In h df /\ fge (pident h) thr = true)
  /\ (starred h' = Some true <-> fge (column_max (map pident df)) thr = true)
  /\ (starred h' = Some true \/ starred h' = Some false)
  /\ ((exists h, In h df /\ feq (pident h) thr = true) -> starred h' = Some true)
  /\ (exists h, In h df /\ h' = set_starred (existsb (fun x => fge x thr) (map pident df)) h).
Proof.
  unfold star. intros Hin. apply in_map_iff in Hin as (h0 & <- & Hh0).
  cbn [starred set_starred].
  assert (Hex : existsb (fun x => fge x thr) (map pident df) = true <->
                exists h, In h df /\ fge (pident h) thr = true).
  { rewrite existsb_exists. split.
    - intros (x & Hx & Hge). apply in_map_iff in Hx as (h & <- & Hh). eauto.
    - intros (h & Hh & Hge). exists (pident h). split; [|assumption].
      apply in_map_iff. eauto. }
  split; [|split; [|split; [|split]]].
  - rewrite <- Hex. split; [congruence|intros ->; reflexivity].
  - rewrite <- any_fge_column_max. split; [congruence|intros ->; reflexivity].
  - destruct (existsb (fun x => fge x thr) (map pident df)); auto.
  - intros (h & Hh & Heq). f_equal. apply Hex. exists h. split; [assumption|].
    now apply feq_fge.
  - exists h0. auto.
Qed.

(** ** Sorting and grouping *)

Section SortBy.
Context {A : Type} (le : A -> A -> bool).

Lemma insert_by_Permutation (x : A) (l : list A) :
  Permutation (insert_by le x l) (x :: l).
Proof.
  induction l as [|y l IH]; simpl; [reflexivity|].
  destruct (le x y); [reflexivity|].
  rewrite IH. apply perm_swap.
Qed.

Lemma sort_by_Permutation (l : list A) : Permutation (sort_by le l) l.
Proof.
  induction l as [|x l IH]; simpl; [reflexivity|].
  rewrite insert_by_Permutation. now constructor.
Qed.

Lemma sort_by_In (l : list A) (x : A) : In x (sort_by le l) <-> In x l.
Proof.
  split; apply Permutation_in; [|symmetry]; apply sort_by_Permutation.
Qed.

(** Rows skipped by the insertion fail [le x _]. *)
Lemma insert_by_filter_keep (p : A -> bool) (x : A) (l : list A) :
  p x = true -> (forall y, p y = true -> le x y = true) ->
  List.filter p (insert_by le x l) = x :: List.filter p l.
Proof.
  intros Hx Hle. induction l as [|y l IH]; simpl.
  - now rewrite Hx.
  - destruct (le x y) eqn:E; simpl.
    + now rewrite Hx.
    + destruct (p y) eqn:Ey; [|exact IH].
      rewrite (Hle y Ey) in E. discriminate.
Qed.

Lemma insert_by_filter_drop (p : A -> bool) (x : A) (l : list A) :
  p x = false -> List.filter p (insert_by le x l) = List.filter p l.
Proof.
  intros Hx. induction l as [|y l IH]; simpl.
  - now rewrite Hx.
  - destruct (le x y); simpl.
    + now rewrite Hx.
    + now rewrite IH.
Qed.

(** Stability: the rows of a class whose members all compare equal keep
    their order. *)
Lemma sort_by_filter_stable (p : A -> bool) (l : list A) :
  (forall x y, p x = true -> p y = true -> le x y = true) ->
  List.filter p (sort_by le l) = List.filter p l.
Proof.
  intros Hle. induction l as [|x l IH]; simpl; [reflexivity|].
  destruct (p x) eqn:Hx.
  - rewrite insert_by_filter_keep; [now rewrite IH|assumption|].
    intros y Hy. now apply Hle.
  - rewrite insert_by_filter_drop; assumption.
Qed.

Hypothesis le_total : forall x y, le x y = false -> le y x = true.
Hypothesis le_trans : forall x y z, le x y = true -> le y z = true -> le x z = true.

Lemma insert_by_StronglySorted (x : A) (l : list A) :
  StronglySorted (fun a b => le a b = true) l ->
  StronglySorted (fun a b => le a b = true) (insert_by le x l).
Proof.
  induction 1 as [|y l Hl IH Hy]; simpl.
  - constructor; constructor.
  - destruct (le x y) eqn:E.
    + constructor; [now constructor|].
      constructor; [assumption|].
      apply List.Forall_forall. intros z Hz. rewrite List.Forall_forall in Hy.
      eapply le_trans; [exact E|]. now apply Hy.
    + constructor; [assumption|].
      apply List.Forall_forall. intros z Hz.
      apply (Permutation_in _ (insert_by_Permutation x l)) in Hz.
      destruct Hz as [<-|Hz]; [now apply le_total|].
      rewrite List.Forall_forall in Hy. now apply Hy.
Qed.

Lemma sort_by_StronglySorted (l : list A) :
  StronglySorted (fun a b => le a b = true) (sort_by le l).
Proof.
  induction l as [|x l IH]; simpl; [constructor|].
  now apply insert_by_StronglySorted.
Qed.

Lemma StronglySorted_filter (p : A -> bool) (l : list A) :
  StronglySorted (fun a b => le a b = true) l ->
  StronglySorted (fun a b => le a b = true) (List.filter p l).
Proof.
  induction 1 as [|y l Hl IH Hy]; simpl; [constructor|].
  destruct (p y); [|assumption].
  constructor; [assumption|].
  apply List.Forall_forall. intros z Hz. apply filter_In in Hz as [Hz _].
  rewrite List.Forall_forall in Hy. now apply Hy.
Qed.

Lemma le_refl_of_total (x : A) : le x x = true.
Proof.
  destruct (le x x) eqn:E; [reflexivity|].
  pose proof (le_total x x E) as H. congruence.
Qed.

(** The last row of a sorted table is a greatest one. *)
Lemma StronglySorted_last (l : list A) (x : A) :
  StronglySorted (fun a b => le a b = true) l ->
  List.last (map Some l) None = Some x ->
  In x l /\ forall y, In y l -> le y x = true.
Proof.
  induction 1 as [|y l Hl IH Hy]; [discriminate|].
  destruct l as [|z l].
  - simpl. intros H. injection H as <-. split; [now left|].
    intros y' [<-|[]]. apply le_refl_of_total.
  - intros H. change (List.last (map Some (z :: l)) None = Some x) in H.
    destruct (IH H) as [Hin Hmax]. split; [now right|].
    intros y' [<-|Hy']; [|now apply Hmax].
    rewrite List.Forall_forall in Hy. now apply Hy.
Qed.
End SortBy.

Lemma iloc_last_Ok {A : Type} (l : list A) :
  l <> [] -> exists x, iloc_last l = Ok x /\ List.last (map Some l) None = Some x.
Proof.
  intros Hne. unfold iloc_last.
  assert (H : exists x, List.last (map Some l) None = Some x).
  { induction l as [|a l IH]; [congruence|].
    destruct l as [|b l]; [simpl; eauto|].
    change (exists x, List.last (map Some (b :: l)) None = Some x).
    apply IH. discriminate. }
  destruct H as [x Hx]. exists x. now rewrite Hx.
Qed.

Section Grouping.
Context {A K : Type} `{EqDecision K}.

Lemma unique_In (l : list K) (x : K) : In x (unique l) <-> In x l.
Proof.
  induction l as [|a l IH]; simpl; [reflexivity|].
  rewrite filter_In, IH. split.
  - intros [H|[H _]]; auto.
  - intros [H|H]; [now left|].
    destruct (decide (x = a)) as [->|Hne]; [now left|].
    right. split; [assumption|]. now rewrite bool_decide_eq_false_2.
Qed.

Lemma NoDup_filter_list (p : K -> bool) (l : list K) :
  List.NoDup l -> List.NoDup (List.filter p l).
Proof.
  induction 1 as [|x l Hx Hl IH]; simpl; [constructor|].
  destruct (p x); [|assumption].
  constructor; [|assumption]. intros H. apply filter_In in H as [H _]. auto.
Qed.

Lemma unique_NoDup (l : list K) : List.NoDup (unique l).
Proof.
  induction l as [|a l IH]; simpl; [constructor|].
  constructor.
  - intros H. apply filter_In in H as [_ H].
    rewrite bool_decide_eq_true_2 in H by reflexivity. discriminate.
  - now apply NoDup_filter_list.
Qed.

Lemma filter_eq_NoDup (k : K) (l : list K) :
  List.NoDup l -> In k l ->
  List.filter (fun x => bool_decide (x = k)) l = [k].
Proof.
  induction 1 as [|x l Hx Hl IH]; intros Hin; [destruct Hin|].
  simpl. destruct (decide (x = k)) as [->|Hne].
  - rewrite bool_decide_eq_true_2 by reflexivity. f_equal.
    clear IH Hin Hl. induction l as [|y l IH]; [reflexivity|].
    simpl. rewrite bool_decide_eq_false_2.
    + apply IH. intros H. apply Hx. now right.
    + intros ->. apply Hx. now left.
  - rewrite bool_decide_eq_false_2 by assumption.
    destruct Hin as [->|Hin]; [congruence|]. now apply IH.
Qed.

Lemma filter_eq_absent (k : K) (l : list K) :
  ~ In k l -> List.filter (fun x => bool_decide (x = k)) l = [].
Proof.
  induction l as [|y l IH]; intros Hn; [reflexivity|].
  simpl. rewrite bool_decide_eq_false_2.
  - apply IH. intros H. apply Hn. now right.
  - intros ->. apply Hn. now left.
Qed.

(** The rows of key [k] in the concatenation of per-group results, when
    every group result keeps the key of its group. *)
Lemma group_rows_concat_present (key : A -> K) (f : K -> list A) (keys : list K) (k : K) :
  List.NoDup keys ->
  (forall k' a, In a (f k') -> key a = k') ->
  In k keys ->
  group_rows key k (concat (map f keys)) = f k.
Proof.
  intros Hnd Hkey. unfold group_rows.
  assert (Hself : List.filter (fun a => bool_decide (key a = k)) (f k) = f k).
  { apply forallb_filter_id, forallb_forall. intros a Ha.
    apply bool_decide_eq_true_2. now apply Hkey. }
  assert (Hother : forall k', k' <> k ->
            List.filter (fun a => bool_decide (key a = k)) (f k') = []).
  { intros k' Hne.
    assert (Hall : forall b, In b (f k') -> key b = k') by (intros; now apply Hkey).
    induction (f k') as [|a l IH]; [reflexivity|].
    simpl. rewrite bool_decide_eq_false_2.
    - apply IH. intros b Hb. apply Hall. now right.
    - rewrite (Hall a (or_introl eq_refl)). assumption. }
  assert (Habsent : forall l, ~ In k l ->
            List.filter (fun a => bool_decide (key a = k)) (concat (map f l)) = []).
  { induction l as [|x l IH]; intros Hn; [reflexivity|].
    simpl. rewrite List.filter_app, Hother, IH; [reflexivity| |].
    - intros H. apply Hn. now right.
    - intros ->. apply Hn. now left. }
  induction Hnd as [|x keys Hx Hnd IH]; intros Hin; [destruct Hin|].
  simpl. rewrite List.filter_app.
  destruct (decide (x = k)) as [->|Hne].
  - rewrite Hself, (Habsent keys Hx). apply app_nil_r.
  - rewrite (Hother x Hne). simpl. apply IH.
    destruct Hin as [->|Hin]; [congruence|assumption].
Qed.

Lemma group_rows_absent (key : A -> K) (l : list A) (k : K) :
  ~ In k (map key l) -> group_rows key k l = [].
Proof.
  intros Hn. unfold group_rows. induction l as [|a l IH]; [reflexivity|].
  simpl. rewrite bool_decide_eq_false_2.
  - apply IH. intros H. apply Hn. now right.
  - intros H. apply Hn. left. exact H.
Qed.

Lemma group_rows_key (key : A -> K) (l : list A) (k : K) (a : A) :
  In a (group_rows key k l) -> key a = k.
Proof.
  unfold group_rows. intros H. apply filter_In in H as [_ H].
  now apply bool_decide_eq_true_1 in H.
Qed.
End Grouping.

Lemma group_rows_map {A B K : Type} `{EqDecision K} (key : B -> K) (g : A -> B)
    (k : K) (l : list A) :
  group_rows key k (map g l) = map g (group_rows (fun a => key (g a)) k l).
Proof.
  unfold group_rows. induction l as [|a l IH]; [reflexivity|].
  simpl. destruct (bool_decide (key (g a) = k)); simpl; now rewrite IH.
Qed.

(** ** target_rank *)

Lemma Zleb_fst_total (x y : Z * option string) :
  Z.leb x.1 y.1 = false -> Z.leb y.1 x.1 = true.
Proof. rewrite Z.leb_gt, Z.leb_le. lia. Qed.

Lemma Zleb_fst_trans (x y z : Z * option string) :
  Z.leb x.1 y.1 = true -> Z.leb y.1 z.1 = true -> Z.leb x.1 z.1 = true.
Proof. rewrite !Z.leb_le. lia. Qed.

(** ** Order of the summary rows *)

Lemma String_leb_refl (a : string) : String.leb a a = true.
Proof. destruct (String.leb_total a a); assumption. Qed.

Lemma String_leb_trans (a b c : string) :
  String.leb a b = true -> String.leb b c = true -> String.leb a c = true.
Proof.
  unfold String.leb.
  destruct (String.compare a b) eqn:Eab; try discriminate;
    destruct (String.compare b c) eqn:Ebc; try discriminate; intros _ _.
  - apply String.compare_eq_iff in Eab. subst. now rewrite Ebc.
  - apply String.compare_eq_iff in Eab. subst. now rewrite Ebc.
  - apply String.compare_eq_iff in Ebc. subst. now rewrite Eab.
  - apply OrderedTypeEx.String_as_OT.cmp_lt in Eab, Ebc.
    pose proof (OrderedTypeEx.String_as_OT.lt_trans _ _ _ Eab Ebc) as H.
    apply OrderedTypeEx.String_as_OT.cmp_lt in H.
    unfold OrderedTypeEx.String_as_OT.cmp in H. now rewrite H.
Qed.

Lemma String_leb_total (a b : string) :
  String.leb a b = false -> String.leb b a = true.
Proof. destruct (String.leb_total a b); congruence. Qed.

(** The order of [output.sort(..., ascending=False)], spelled out. *)
Lemma sort_columns_le_spec (cn : bool) (a b : out_row) :
  sort_columns_le cn a b = true <->
  (count_column cn b < count_column cn a)%Z
  \/ (count_column cn a = count_column cn b /\
      ((o_clusters b < o_clusters a)%Z
       \/ (o_clusters a = o_clusters b /\
           String.leb (o_assignment b) (o_assignment a) = true))).
Proof.
  unfold sort_columns_le.
  destruct (Z.compare_spec (count_column cn a) (count_column cn b)) as [H|H|H].
  - destruct (Z.compare_spec (o_clusters a) (o_clusters b)) as [H'|H'|H'].
    + split; [intros Hs; right; split; [assumption|]; right; auto|].
      intros [Hc|[_ [Hc|[_ Hs]]]]; [lia|lia|assumption].
    + split; [discriminate|]. intros [Hc|[_ [Hc|[Hc _]]]]; lia.
    + split; [intros _; right; split; [assumption|]; left; lia|reflexivity].
  - split; [discriminate|]. intros [Hc|[Hc _]]; lia.
  - split; [intros _; left; lia|reflexivity].
Qed.

Lemma sort_columns_le_total (cn : bool) (a b : out_row) :
  sort_columns_le cn a b = false -> sort_columns_le cn b a = true.
Proof.
  intros H. apply sort_columns_le_spec.
  destruct (Z.lt_total (count_column cn a) (count_column cn b)) as [Hc|[Hc|Hc]].
  - now left.
  - right. split; [congruence|].
    destruct (Z.lt_total (o_clusters a) (o_clusters b)) as [Hk|[Hk|Hk]].
    + now left.
    + right. split; [congruence|].
      destruct (String.leb (o_assignment a) (o_assignment b)) eqn:E; [reflexivity|].
      apply String_leb_total in E.
      assert (sort_columns_le cn a b = true); [|congruence].
      apply sort_columns_le_spec. right. split; [assumption|]. right. auto.
    + assert (sort_columns_le cn a b = true); [|congruence].
      apply sort_columns_le_spec. right. split; [assumption|]. now left.
  - assert (sort_columns_le cn a b = true); [|congruence].
    apply sort_columns_le_spec. now left.
Qed.

Lemma sort_columns_le_trans (cn : bool) (a b c : out_row) :
  sort_columns_le cn a b = true -> sort_columns_le cn b c = true ->
  sort_columns_le cn a c = true.
Proof.
  rewrite !sort_columns_le_spec.
  intros [H1|[H1 [H1'|[H1' H1'']]]] [H2|[H2 [H2'|[H2' H2'']]]];
    try (left; lia); right; (split; [lia|]); try (left; lia).
  right. split; [lia|]. eapply String_leb_trans; eassumption.
Qed.

Lemma Permutation_filter_list {A : Type} (p : A -> bool) (l1 l2 : list A) :
  Permutation l1 l2 -> Permutation (List.filter p l1) (List.filter p l2).
Proof.
  induction 1 as [|x l1 l2 _ IH|x y l|l1 l2 l3 _ IH1 _ IH2]; simpl.
  - constructor.
  - destruct (p x); [now constructor|assumption].
  - destruct (p x), (p y); try reflexivity. apply perm_swap.
  - now transitivity (List.filter p l2).
Qed.

Lemma assignment_id_specimen (g : list out_row) (a : out_row) :
  In a (assignment_id g) -> exists o, In o g /\ o_specimen a = o_specimen o.
Proof.
  unfold assignment_id. intros H.
  apply list_elem_of_In, elem_of_lookup_imap in H as (i & o & -> & Ho).
  exists o. split; [|reflexivity].
  apply list_elem_of_In, list_elem_of_lookup. eauto.
Qed.

Lemma sort_index_le_keeps_order (ties : out_row -> out_row -> bool) (x y : out_row) :
  keeps_order ties -> o_specimen x = o_specimen y -> sort_index_le ties x y = true.
Proof.
  intros Hk Hxy. unfold sort_index_le.
  rewrite (proj2 (String.eqb_eq _ _) Hxy). now apply Hk.
Qed.

(** The rows of one specimen after the second sort, the grouping and the
    numbering, when the second sort keeps the order of the rows of one
    specimen: those of the first sort, in the same order, numbered. *)
Lemma sort_and_number_group (ties : out_row -> out_row -> bool) (copy_numbers : bool)
    (output : list out_row) (s : string) :
  keeps_order ties ->
  group_rows o_specimen s (sort_and_number ties copy_numbers output)
  = imap (fun i o => set_assignment_id i (drop_assignment_hash o))
         (group_rows o_specimen s (sort_by (sort_columns_le copy_numbers) output)).
Proof.
  intros Hkeeps.
  set (L1 := sort_by (sort_columns_le copy_numbers) output).
  set (L2 := map drop_assignment_hash L1).
  set (le_s := sort_index_le ties).
  set (L3 := sort_by le_s L2).
    assert (Hstable : group_rows o_specimen s L3 = group_rows o_specimen s L2).
    { apply sort_by_filter_stable. intros x y Hx Hy.
      apply bool_decide_eq_true_1 in Hx, Hy. unfold le_s.
      apply sort_index_le_keeps_order; [assumption|congruence]. }
    assert (Hmap : group_rows o_specimen s L2
                   = map drop_assignment_hash (group_rows o_specimen s L1)).
    { unfold L2. now rewrite group_rows_map. }
    unfold sort_and_number. fold L1 L2 le_s L3.
    unfold groupby. rewrite map_map. cbn [snd].
    destruct (in_dec String.string_dec s (unique (map o_specimen L3))) as [Hin|Hnin].
    + rewrite (group_rows_concat_present o_specimen
                 (fun k => assignment_id (group_rows o_specimen k L3))).
      * rewrite Hstable, Hmap. unfold assignment_id. apply imap_fmap.
      * apply unique_NoDup.
      * intros k a Ha. apply assignment_id_specimen in Ha as (o & Ho & ->).
        now apply group_rows_key in Ho.
      * assumption.
    + assert (Hnone : group_rows o_specimen s L3 = []).
      { apply group_rows_absent. intros H. apply Hnin. now apply unique_In. }
      assert (Hnil : group_rows o_specimen s L1 = []).
      { rewrite Hstable, Hmap in Hnone.
        destruct (group_rows o_specimen s L1); [reflexivity|discriminate]. }
      rewrite Hnil. simpl.
      apply group_rows_absent. intros H. apply in_map_iff in H as (a & Ha & Hc).
      apply in_concat in Hc as (g & Hg & Hag).
      apply in_map_iff in Hg as (k & <- & Hk).
      apply assignment_id_specimen in Hag as (o & Ho & Hso).
      apply group_rows_key in Ho. apply Hnin. congruence.
Qed.

(** Whatever the second sort does with the rows of one specimen, a row of
    the final table is a row of the summary, numbered, and conversely. *)
Lemma sort_and_number_inv (ties : out_row -> out_row -> bool) (copy_numbers : bool)
    (output : list out_row) (o' : out_row) :
  In o' (sort_and_number ties copy_numbers output) ->
  exists i o, In o output /\ o' = set_assignment_id i (drop_assignment_hash o).
Proof.
  unfold sort_and_number. intros H.
  apply in_concat in H as (g & Hg & Ho').
  apply in_map_iff in Hg as ([k rows] & <- & Hrows). cbn [snd] in Ho'.
  unfold groupby in Hrows. apply in_map_iff in Hrows as (k' & Heq & _).
  injection Heq as -> <-.
  unfold assignment_id in Ho'.
  apply list_elem_of_In, elem_of_lookup_imap in Ho' as (i & o1 & -> & Hi).
  assert (Hin : In o1 (group_rows o_specimen k
                         (sort_by (sort_index_le ties)
                            (map drop_assignment_hash
                               (sort_by (sort_columns_le copy_numbers) output))))).
  { apply list_elem_of_In, list_elem_of_lookup. eauto. }
  apply filter_In in Hin as [Hin _].
  apply (proj1 (sort_by_In _ _ _)) in Hin.
  apply in_map_iff in Hin as (o & <- & Ho).
  apply (proj1 (sort_by_In _ _ _)) in Ho.
  exists i, o. split; [assumption|reflexivity].
Qed.

Lemma sort_and_number_In (ties : out_row -> out_row -> bool) (copy_numbers : bool)
    (output : list out_row) (o : out_row) :
  In o output ->
  exists i, In (set_assignment_id i (drop_assignment_hash o))
               (sort_and_number ties copy_numbers output).
Proof.
  intros Ho. unfold sort_and_number.
  set (L3 := sort_by (sort_index_le ties) _).
  assert (H3 : In (drop_assignment_hash o) L3).
  { apply (proj2 (sort_by_In _ _ _)). apply in_map.
    now apply (proj2 (sort_by_In _ _ _)). }
  assert (Hg : In (drop_assignment_hash o) (group_rows o_specimen (o_specimen o) L3)).
  { apply filter_In. split; [assumption|]. now apply bool_decide_eq_true_2. }
  apply list_elem_of_In, list_elem_of_lookup in Hg as [i Hi].
  exists i. apply in_concat.
  exists (assignment_id (group_rows o_specimen (o_specimen o) L3)). split.
  - apply in_map_iff. exists (o_specimen o, group_rows o_specimen (o_specimen o) L3).
    split; [reflexivity|]. unfold groupby. apply in_map_iff.
    exists (o_specimen o). split; [reflexivity|].
    apply (proj2 (unique_In _ _)).
    apply (in_map o_specimen L3 (drop_assignment_hash o) H3).
  - unfold assignment_id. apply list_elem_of_In, elem_of_lookup_imap.
    exists i, (drop_assignment_hash o). split; [|assumption].
    reflexivity.
Qed.

(** ** The rank threshold table *)

Lemma last_row_snoc (rows : list (gmap string Q)) (row : gmap string Q) :
  last_row (rows ++ [row]) = row ∪ last_row rows.
Proof. unfold last_row. now rewrite foldl_app. Qed.

Lemma groupby_last_rows (t : threshold_table) (tid : string) :
  In tid (map fst t) ->
  group_rows fst tid (groupby_last t)
  = [(tid, last_row (map snd (group_rows fst tid t)))].
Proof.
  intros Hin. unfold groupby_last.
  assert (Hkeyed : forall (F : string -> gmap string Q) keys,
            group_rows fst tid (map (fun k => (k, F k)) keys)
            = map (fun k => (k, F k))
                  (List.filter (fun k => bool_decide (k = tid)) keys)).
  { intros F keys. unfold group_rows.
    induction keys as [|k keys IH]; [reflexivity|].
    simpl. destruct (bool_decide (k = tid)); simpl; now rewrite IH. }
  rewrite Hkeyed, filter_eq_NoDup; [reflexivity| |].
  - apply (Permutation_NoDup (l := unique (map fst t))).
    + symmetry. apply sort_by_Permutation.
    + apply unique_NoDup.
  - apply sort_by_In, unique_In. assumption.
Qed.

(** C8 (as the program has it): for a tax_id listed once in the user's
    file, the merged table has one row; at every rank where the user's row
    has a value the merged cell is that value, and at a rank the user's row
    leaves empty the merged cell is the last value of the default rows.  The
    whole row is the user's row when the user's row fills every rank that a
    default row fills. *)
Theorem user_thresholds_override_filled_cells
    (defaults user : threshold_table) (tid : string) (urow : gmap string Q) :
  group_rows fst tid user = [(tid, urow)] ->
  let merged := merge_rank_thresholds defaults (Some user) in
  let drow := last_row (map snd (group_rows fst tid defaults)) in
  group_rows fst tid merged = [(tid, urow ∪ drow)]
  /\ (forall r q, urow !! r = Some q -> table_threshold merged tid r = Fin q)
  /\ (forall r, urow !! r = None -> table_threshold merged tid r = cell drow r)
  /\ ((forall r, is_Some (drow !! r) -> is_Some (urow !! r)) ->
      group_rows fst tid merged = [(tid, urow)])
  /\ (forall d, group_rows fst tid defaults = [(tid, d)] -> drow = d).
Proof.
  intros Hu merged drow.
  assert (Hrows : group_rows fst tid merged = [(tid, urow ∪ drow)]).
  { unfold merged, merge_rank_thresholds. rewrite groupby_last_rows.
    - unfold group_rows at 1. rewrite List.filter_app.
      fold (group_rows fst tid defaults) (group_rows fst tid user).
      rewrite Hu, map_app. cbn [map snd]. now rewrite last_row_snoc.
    - rewrite map_app. apply in_or_app. right.
      assert (Hin : In (tid, urow) (group_rows fst tid user)) by (rewrite Hu; now left).
      apply filter_In in Hin as [Hin _]. apply in_map_iff. exists (tid, urow). auto. }
  split; [exact Hrows|]. split; [|split; [|split]].
  - intros r q Hq. unfold table_threshold. rewrite Hrows. cbn [snd].
    now rewrite (lookup_union_Some_l urow drow r q Hq).
  - intros r Hr. unfold table_threshold, cell. rewrite Hrows. cbn [snd].
    now rewrite (lookup_union_r urow drow r Hr).
  - intros Hfull. rewrite Hrows. do 2 f_equal. apply map_eq. intros r.
    destruct (urow !! r) as [q|] eqn:E.
    + now rewrite (lookup_union_Some_l urow drow r q E).
    + rewrite (lookup_union_r urow drow r E).
      destruct (drow !! r) as [q|] eqn:Ed; [|reflexivity].
      destruct (Hfull r) as [q' Hq']; [eauto|]. congruence.
  - intros d Hd. unfold drow. rewrite Hd. cbn [map snd last_row foldl].
    apply (right_id_L ∅ (∪)).
Qed.

Lemma user_thresholds_override_filled_cells_witness :
  table_threshold (merge_rank_thresholds ex_default_thresholds (Some ex_user_thresholds))
    "1" "species" = Fin (99#1)
  /\ table_threshold (merge_rank_thresholds ex_default_thresholds (Some ex_user_thresholds))
       "1" "genus"
     = cell (last_row (map snd (group_rows fst "1" ex_default_thresholds))) "genus".
Proof.
  pose proof (user_thresholds_override_filled_cells
                ex_default_thresholds ex_user_thresholds "1"
                (list_to_map [("species", 99#1)]%Q) eq_refl) as (_ & Hfilled & Hempty & _).
  split.
  - apply Hfilled. vm_compute. reflexivity.
  - apply Hempty. vm_compute. reflexivity.
Defined.

(** C8, counterexample: the user's row for taxon 1 gives the species
    threshold and leaves genus empty; the merged row takes species from the
    user and genus from the default table. *)
Lemma empty_user_cell_keeps_default_threshold :
  ~ full_replacement ex_default_thresholds ex_user_thresholds.
Proof.
  intros H.
  specialize (H "1" (list_to_map [("species", 99#1)]%Q) "genus"
                (or_introl eq_refl) (or_introl eq_refl)).
  vm_compute in H. discriminate H.
Qed.

(** ** The raw filters *)

Lemma raw_filtering_unset (blast_results : list hit) (min_cov max_id min_id : option pyfloat) :
  truthy min_cov = false -> truthy max_id = false -> truthy min_id = false ->
  raw_filtering blast_results min_cov max_id min_id = blast_results.
Proof. intros H1 H2 H3. unfold raw_filtering. now rewrite H1, H2, H3. Qed.

(** The filters do remove hits when they are given a value. *)
Lemma raw_filtering_min_identity_drops :
  raw_filtering [ex_species_hit] None None (Some (Fin (99#1))) = [].
Proof. vm_compute. reflexivity. Qed.

(** C10: [action] calls [raw_filtering] without thresholds, so the result of
    a run does not depend on [--min-identity], [--max-identity] and
    [--min-coverage]; and [raw_filtering] returns its input when the three
    thresholds are None or zero. *)
Theorem identity_and_coverage_arguments_ignored
    (rt : runtime) (a : Args.t) (min_id max_id min_cov : option pyfloat) :
  action rt (Args.with_filters a min_id max_id min_cov) = action rt a
  /\ classify_hits (Args.with_filters a min_id max_id min_cov) = classify_hits a
  /\ raw_filtering (load_blast_results a) None None None = load_blast_results a
  /\ (forall blast_results, raw_filtering blast_results None None None = blast_results)
  /\ (forall blast_results x y z,
        (x = None \/ x = Some (Fin 0)) -> (y = None \/ y = Some (Fin 0)) ->
        (z = None \/ z = Some (Fin 0)) ->
        raw_filtering blast_results x y z = blast_results).
Proof.
  split; [reflexivity|]. split; [reflexivity|]. split; [reflexivity|].
  split; [reflexivity|].
  intros blast_results x y z Hx Hy Hz.
  apply raw_filtering_unset.
  - destruct Hx as [->| ->]; reflexivity.
  - destruct Hy as [->| ->]; reflexivity.
  - destruct Hz as [->| ->]; reflexivity.
Qed.

Lemma identity_and_coverage_arguments_ignored_witness :
  raw_filtering [ex_species_hit] (Some (Fin 0)) None (Some (Fin 0)) = [ex_species_hit].
Proof.
  apply (identity_and_coverage_arguments_ignored ex_runtime ex_args None None None).
  - now right.
  - now left.
  - now right.
Defined.

(** ** Queries without hit *)

Lemma join_qseqids_null_row (selected : list hit) (qseqids : list string) (q : string) :
  In q qseqids -> (forall h, In h selected -> qseqid h <> q) ->
  In (null_hit q) (join_qseqids selected qseqids).
Proof.
  intros Hq Hno. unfold join_qseqids. apply in_or_app. right.
  apply in_map, filter_In. split; [assumption|].
  apply negb_true_iff, not_true_is_false. intros H.
  apply existsb_exists in H as (x & Hx & Heq).
  apply String.eqb_eq in Heq. subst x.
  apply in_map_iff in Hx as (h & Hh & Hin). exact (Hno h Hin Hh).
Qed.

Lemma join_specimens_row (a : Args.t) (blast_results : list hit) (h : hit) (sp : string) :
  In h blast_results -> In sp (specimens_of a (qseqid h)) ->
  In (set_specimen sp h) (join_specimens a blast_results).
Proof.
  intros Hh Hsp. unfold join_specimens. apply in_flat_map.
  exists h. split; [assumption|].
  now apply (in_map (fun s => set_specimen s h)).
Qed.

Lemma join_specimens_inv (a : Args.t) (blast_results : list hit) (h' : hit) :
  In h' (join_specimens a blast_results) ->
  exists h sp, In h blast_results /\ In sp (specimens_of a (qseqid h)) /\
               h' = set_specimen sp h.
Proof.
  unfold join_specimens. intros H. apply in_flat_map in H as (h & Hh & Hin).
  apply in_map_iff in Hin as (sp & <- & Hsp). eauto.
Qed.

Lemma no_hits_row (blast_results : list hit) (h : hit) :
  In h blast_results -> sseqid h = None ->
  In (set_assignment_hash 0 (set_assignment_label "[no blast result]" h))
     (no_hits blast_results).
Proof.
  intros Hh Hs. unfold no_hits.
  apply (in_map (fun h0 => set_assignment_hash 0
                             (set_assignment_label "[no blast result]" h0))).
  apply filter_In. split; [assumption|]. now rewrite Hs.
Qed.

Lemma bind_Ok {A B : Type} (m : result A) (k : A -> result B) (b : B) :
  m ≫= k = Ok b -> exists a, m = Ok a /\ k a = Ok b.
Proof. destruct m as [a|e]; [eauto|discriminate]. Qed.

Lemma bind_Ok_l {A B : Type} (a : A) (k : A -> result B) : Ok a ≫= k = k a.
Proof. reflexivity. Qed.

Lemma Forall2_In_l {A B : Type} (P : A -> B -> Prop) (l : list A) (l' : list B) (x : A) :
  Forall2 P l l' -> In x l -> exists y, In y l' /\ P x y.
Proof.
  induction 1 as [|a b l l' Hab _ IH]; intros Hin; [destruct Hin|].
  destruct Hin as [<-|Hin].
  - exists b. split; [now left|assumption].
  - destruct (IH Hin) as (y & Hy & Hp). exists y. split; [now right|assumption].
Qed.

Lemma target_rank_Ok (s : list (option string)) (ranks : list string) :
  s <> [] -> exists x, target_rank s ranks = Ok x.
Proof.
  intros Hne. unfold target_rank.
  set (sorted := sort_by _ _).
  assert (Hne' : sorted <> []).
  { intros H. pose proof (sort_by_Permutation
      (fun a b : Z * option string => Z.leb a.1 b.1)
      (map (fun x => (rank_index ranks x, x)) s)) as Hp.
    fold sorted in Hp. rewrite H in Hp. apply Permutation_nil in Hp.
    destruct s; [congruence|discriminate]. }
  destruct (iloc_last_Ok _ Hne') as (p & -> & _). simpl. eauto.
Qed.

Lemma summary_index_In (blast_results : list hit) (h : hit) (sp l : string) (n : Z) :
  In h blast_results -> specimen h = Some sp -> assignment_hash h = Some n ->
  assignment h = Some l -> In (sp, n, l) (summary_index blast_results).
Proof.
  intros Hh Hs Hn Hl. unfold summary_index.
  apply list_elem_of_In, list_elem_of_omap. exists (Some sp, Some n, Some l).
  split; [|reflexivity].
  apply list_elem_of_In. unfold output_index. apply unique_In, in_map_iff.
  exists h. split; [|assumption]. now rewrite Hs, Hn, Hl.
Qed.

Lemma summary_index_group (blast_results : list hit) (k : string * Z * string) :
  In k (summary_index blast_results) -> assignment_group blast_results k.1 <> [].
Proof.
  unfold summary_index. intros H.
  apply list_elem_of_In, list_elem_of_omap in H as (o & Ho & Hk).
  apply list_elem_of_In in Ho. unfold output_index in Ho.
  apply unique_In, in_map_iff in Ho as (h & <- & Hh).
  destruct (specimen h) as [s|] eqn:Es; [|discriminate].
  destruct (assignment_hash h) as [n|] eqn:En; [|discriminate].
  destruct (assignment h) as [l|] eqn:El; [|discriminate].
  injection Hk as <-. simpl.
  assert (Hin : In h (assignment_group blast_results (s, n))).
  { apply filter_In. split; [assumption|]. apply bool_decide_eq_true_2.
    unfold assignment_key. now rewrite Es, En. }
  intros Hnil. rewrite Hnil in Hin. destruct Hin.
Qed.

Lemma summarize_Ok (rt : runtime) (a : Args.t) (blast_results : list hit)
    (out : list out_row) :
  summarize rt a blast_results = Ok out ->
  exists rows, summary_rows rt a blast_results = Ok rows /\
    out = sort_and_number (sort_index_ties rt)
            (bool_decide (is_Some (Args.copy_numbers a))) rows.
Proof.
  unfold summarize. intros H. apply bind_Ok in H as (rows & Hrows & H).
  injection H as <-. eauto.
Qed.

(** A row of the summary before the sorts, and its group. *)
Lemma summary_rows_inv (rt : runtime) (a : Args.t) (blast_results : list hit)
    (rows : list out_row) :
  summary_rows rt a blast_results = Ok rows ->
  Forall2 (fun k o =>
             o_specimen o = k.1.1 /\ o_assignment_hash o = Some k.1.2 /\
             o_assignment o = k.2 /\
             target_rank (map assignment_rank (assignment_group blast_results k.1))
               (Args.ranks a) = Ok (o_target_rank o))
          (summary_index blast_results) rows.
Proof.
  unfold summary_rows. intros H.
  apply bind_Ok in H as (corrections & _ & H).
  apply rmapM_Ok in H. eapply Forall2_impl; [exact H|].
  intros k o Hko. cbv beta in Hko.
  apply bind_Ok in Hko as (rk & Hrk & Hko). injection Hko as <-.
  cbn [o_specimen o_assignment_hash o_assignment o_target_rank]. auto.
Qed.

(** Every row of the index is a row of the summary. *)
Lemma summarize_rows (rt : runtime) (a : Args.t) (blast_results : list hit)
    (out : list out_row) (k : string * Z * string) :
  summarize rt a blast_results = Ok out -> In k (summary_index blast_results) ->
  exists o, In o out /\ o_specimen o = k.1.1 /\ o_assignment o = k.2.
Proof.
  intros H Hk. apply summarize_Ok in H as (rows & Hrows & ->).
  apply summary_rows_inv in Hrows.
  destruct (Forall2_In_l _ _ _ k Hrows Hk) as (o & Ho & Hs & _ & Hl & _).
  destruct (sort_and_number_In (sort_index_ties rt)
              (bool_decide (is_Some (Args.copy_numbers a))) _ _ Ho) as [i Hi].
  eexists. split; [exact Hi|]. split; assumption.
Qed.

(** The summary is computed without error, unless a copy number table is
    given that does not list tax_id 1. *)
Lemma summarize_total (rt : runtime) (a : Args.t) (blast_results : list hit) :
  match Args.copy_numbers a with
  | Some copy_numbers => group_rows fst "1" copy_numbers <> []
  | None => True
  end ->
  exists out, summarize rt a blast_results = Ok out.
Proof.
  intros Hcn. unfold summarize, summary_rows.
  assert (Hc : exists c,
            match Args.copy_numbers a with
            | Some copy_numbers =>
                c ← copy_corrections copy_numbers blast_results; Ok (Some c)
            | None => Ok None
            end = Ok c).
  { destruct (Args.copy_numbers a) as [cn|]; [|eauto].
    unfold copy_corrections.
    destruct (group_rows fst "1" cn) as [|[t d] rows]; [congruence|].
    cbn [mbind result_bind]. eauto. }
  destruct Hc as [c ->]. rewrite bind_Ok_l.
  match goal with
  | |- context [rmapM ?f ?l] => destruct (rmapM_total f l) as [output Ho]
  end.
  - intros k Hk. apply summary_index_group in Hk.
    destruct (target_rank_Ok (map assignment_rank (assignment_group blast_results k.1))
                (Args.ranks a)) as [rk ->].
    + destruct (assignment_group blast_results k.1); [congruence|discriminate].
    + rewrite bind_Ok_l. eauto.
  - rewrite Ho, bind_Ok_l. eauto.
Qed.

Lemma specimens_of_nonempty (a : Args.t) (q : string) :
  specimens_of a q <> [] <->
  match Args.specimen_map a with
  | Some spec_map => In q (map fst spec_map)
  | None => True
  end.
Proof.
  unfold specimens_of. destruct (Args.specimen_map a) as [m|].
  - split.
    + intros H. destruct (group_rows fst q m) as [|row rows] eqn:E; [now destruct H|].
      assert (Hrow : In row (group_rows fst q m)) by (rewrite E; now left).
      apply in_map_iff. exists row. split.
      * now apply group_rows_key in Hrow.
      * now apply filter_In in Hrow as [Hrow _].
    + intros H. apply in_map_iff in H as (row & Hq & Hrow).
      assert (Hin : In row (group_rows fst q m)).
      { apply filter_In. split; [assumption|]. now apply bool_decide_eq_true_2. }
      intros Hnil. destruct (group_rows fst q m); [destruct Hin|discriminate].
  - split; [trivial|]. intros _.
    destruct (Args.specimen a) as [label|]; [|discriminate].
    destruct (bool_decide (label = "")); discriminate.
Qed.


(** ** The assignment hash *)

Lemma ids_set_eq (ids1 ids2 : list string) :
  (forall x, In x ids1 <-> In x ids2) ->
  (list_to_set (unique ids1) : gset string) = list_to_set (unique ids2).
Proof.
  intros H. apply set_eq. intros x.
  rewrite !elem_of_list_to_set, !list_elem_of_In, !unique_In. apply H.
Qed.

Lemma ids_set_In (ids : list string) (x : string) :
  x ∈ (list_to_set (unique ids) : gset string) <-> In x ids.
Proof. now rewrite elem_of_list_to_set, list_elem_of_In, unique_In. Qed.

Lemma condense_ids_hash (rt : runtime) (df : list hit) (tax_dict : list taxon)
    (ranks : list string) (n : Z) (h : hit) (x : Z) :
  In h (condense_ids rt df tax_dict ranks n) -> assignment_hash h = Some x ->
  x = hash_frozenset rt
        (condensed_id_set
           (sequtils_condense_ids rt (unique (omap assignment_tax_id df))
              tax_dict ranks n)).
Proof.
  unfold condense_ids. intros Hin Hx.
  apply in_map_iff in Hin as (h0 & <- & _).
  destruct (assignment_tax_id h0 ≫= _) as [c|]; simpl in Hx; congruence.
Qed.

Lemma bounded_search (P : nat -> Prop) (n : nat) :
  (forall i, P i \/ ~ P i) ->
  (exists i, i <= n /\ P i) \/ (forall i, i <= n -> ~ P i).
Proof.
  intros Hdec. induction n as [|n IH].
  - destruct (Hdec 0%nat) as [H|H].
    + left. exists 0%nat. auto.
    + right. intros i Hi. replace i with 0%nat by lia. assumption.
  - destruct IH as [(i & Hi & HP)|Hnone].
    + left. exists i. split; [lia|assumption].
    + destruct (Hdec (S n)) as [H|H].
      * left. exists (S n). auto.
      * right. intros i Hi. destruct (Nat.eq_dec i (S n)) as [->|Hne]; [assumption|].
        apply Hnone. lia.
Qed.

(** n + 1 values below n: two of them are equal. *)
Lemma pigeonhole_nat (n : nat) (f : nat -> nat) :
  (forall i, i <= n -> f i < n) ->
  exists i j, i < j /\ j <= n /\ f i = f j.
Proof.
  revert f. induction n as [|n IH]; intros f Hf.
  - specialize (Hf 0%nat (Nat.le_refl _)). lia.
  - destruct (bounded_search (fun i => f i = f (S n)) n) as [(i & Hi & Heq)|Hnone].
    + intros i. destruct (Nat.eq_dec (f i) (f (S n))); auto.
    + exists i, (S n). repeat split; [lia|lia|assumption].
    + set (v := f (S n)).
      set (g := fun i => if Nat.ltb (f i) v then f i else (f i - 1)%nat).
      destruct (IH g) as (i & j & Hij & Hj & Hg).
      * intros i Hi. unfold g.
        pose proof (Hf i ltac:(lia)). pose proof (Hf (S n) ltac:(lia)).
        pose proof (Hnone i Hi). fold v in H0, H1.
        destruct (Nat.ltb_spec (f i) v); lia.
      * exists i, j. repeat split; [assumption|lia|].
        pose proof (Hnone i ltac:(lia)) as Hi'. pose proof (Hnone j Hj) as Hj'.
        fold v in Hi', Hj'. unfold g in Hg.
        destruct (Nat.ltb_spec (f i) v), (Nat.ltb_spec (f j) v); lia.
Qed.

Lemma tally_inj (i j : nat) : tally i = tally j -> i = j.
Proof.
  revert j. induction i as [|i IH]; intros [|j] H; try discriminate; [reflexivity|].
  injection H as H. f_equal. now apply IH.
Qed.

(** No hash with values in a bounded range of integers is equal on two
    lists of condensed ids only when their sets are equal: among the
    singletons of sufficiently many tax_ids two have the same hash. *)
Lemma bounded_hash_not_injective :
  ~ exists hash : gset string -> Z,
      machine_hash hash /\
      forall ids1 ids2,
        hash_of_ids hash ids1 = hash_of_ids hash ids2 <->
        (forall x, In x ids1 <-> In x ids2).
Proof.
  intros (hash & [bound Hb] & Hiff).
  set (f := fun i : nat => Z.to_nat (hash_of_ids hash [tally i] + bound)).
  destruct (pigeonhole_nat (Z.to_nat (2 * bound)) f) as (i & j & Hij & _ & Hf).
  - intros i _. unfold f, hash_of_ids.
    pose proof (Hb (list_to_set (unique [tally i]))). lia.
  - assert (Heq : hash_of_ids hash [tally i] = hash_of_ids hash [tally j]).
    { unfold f in Hf. unfold hash_of_ids in *.
      pose proof (Hb (list_to_set (unique [tally i]))).
      pose proof (Hb (list_to_set (unique [tally j]))). lia. }
    pose proof (proj1 (Hiff [tally i] [tally j]) Heq) as Hsame.
    destruct (Hsame (tally i)) as [Hin _].
    destruct (Hin (or_introl eq_refl)) as [Hji|[]].
    apply tally_inj in Hji. lia.
Qed.

(** * Further properties of the program *)

(** ** raw_filtering with thresholds *)

Lemma filter_filter_andb {A : Type} (p q : A -> bool) (l : list A) :
  List.filter q (List.filter p l) = List.filter (fun x => p x && q x) l.
Proof.
  induction l as [|x l IH]; [reflexivity|].
  simpl. destruct (p x); simpl; [|exact IH].
  destruct (q x); now rewrite IH.
Qed.

Lemma filter_true {A : Type} (l : list A) : List.filter (fun _ => true) l = l.
Proof. induction l as [|x l IH]; [reflexivity|]. simpl. now rewrite IH. Qed.

Lemma filter_idempotent {A : Type} (p : A -> bool) (l : list A) :
  List.filter p (List.filter p l) = List.filter p l.
Proof.
  rewrite filter_filter_andb. apply List.filter_ext. intros x. now destruct (p x).
Qed.

Lemma filter_sublist {A : Type} (p : A -> bool) (l : list A) :
  sublist (List.filter p l) l.
Proof.
  induction l as [|x l IH]; simpl; [constructor|].
  destruct (p x); now constructor.
Qed.

Lemma raw_filtering_filter (l : list hit) (c mx mn : option pyfloat) :
  raw_filtering l c mx mn = List.filter (within_thresholds c mx mn) l.
Proof.
  assert (Hif : forall (b : bool) (p : hit -> bool) (t : list hit),
            (if b then List.filter p t else t)
            = List.filter (fun x => if b then p x else true) t).
  { intros [] p t; [reflexivity|]. symmetry. apply filter_true. }
  unfold raw_filtering, within_thresholds. cbv zeta.
  rewrite !Hif, !filter_filter_andb.
  apply List.filter_ext. intros x. apply andb_assoc.
Qed.

(** X1: [raw_filtering] keeps, in their order, exactly the rows that pass the
    thresholds that are switched on (a threshold of None or 0.0 is switched
    off): coverage at least [min_coverage], identity at most [max_identity]
    and at least [min_identity].  A row whose [pident] is NaN is dropped as
    soon as an identity threshold is on, and filtering twice changes
    nothing. *)
Theorem raw_filtering_keeps_rows_within_thresholds
    (l : list hit) (c mx mn : option pyfloat) (h : hit) :
  (In h (raw_filtering l c mx mn) <->
     In h l
     /\ (forall v, c = Some v -> truthy c = true -> fge (qcovs h) v = true)
     /\ (forall v, mx = Some v -> truthy mx = true -> fle (pident h) v = true)
     /\ (forall v, mn = Some v -> truthy mn = true -> fge (pident h) v = true))
  /\ sublist (raw_filtering l c mx mn) l
  /\ raw_filtering (raw_filtering l c mx mn) c mx mn = raw_filtering l c mx mn
  /\ (pident h = NaN -> truthy mx = true \/ truthy mn = true ->
      ~ In h (raw_filtering l c mx mn)).
Proof.
  rewrite !raw_filtering_filter.
  assert (Hin : In h (List.filter (within_thresholds c mx mn) l) <->
     In h l
     /\ (forall v, c = Some v -> truthy c = true -> fge (qcovs h) v = true)
     /\ (forall v, mx = Some v -> truthy mx = true -> fle (pident h) v = true)
     /\ (forall v, mn = Some v -> truthy mn = true -> fge (pident h) v = true)).
  { rewrite filter_In. unfold within_thresholds. rewrite !andb_true_iff.
    split.
    - intros (Hl & (Hc & Hmx) & Hmn). split; [assumption|]. repeat split.
      + intros v -> Ht. now rewrite Ht in Hc.
      + intros v -> Ht. now rewrite Ht in Hmx.
      + intros v -> Ht. now rewrite Ht in Hmn.
    - intros (Hl & Hc & Hmx & Hmn). split; [assumption|]. repeat split.
      + destruct (truthy c) eqn:Ec; [|reflexivity].
        destruct c as [v|]; [|discriminate]. now apply (Hc v).
      + destruct (truthy mx) eqn:Ec; [|reflexivity].
        destruct mx as [v|]; [|discriminate]. now apply (Hmx v).
      + destruct (truthy mn) eqn:Ec; [|reflexivity].
        destruct mn as [v|]; [|discriminate]. now apply (Hmn v). }
  split; [exact Hin|]. split; [apply filter_sublist|].
  split; [apply filter_idempotent|].
  intros Hnan Hon Hh. apply Hin in Hh as (_ & _ & Hmx & Hmn).
  destruct Hon as [Hon|Hon].
  - destruct mx as [v|]; [|discriminate].
    specialize (Hmx v eq_refl Hon). rewrite Hnan in Hmx. discriminate.
  - destruct mn as [v|]; [|discriminate].
    specialize (Hmn v eq_refl Hon). rewrite Hnan in Hmn.
    unfold fge in Hmn. destruct v; discriminate.
Qed.

Lemma raw_filtering_keeps_rows_within_thresholds_witness :
  In ex_species_hit
     (raw_filtering [ex_species_hit; ex_boundary_hit] None None (Some (Fin (98#1)))).
Proof.
  apply (raw_filtering_keeps_rows_within_thresholds
           [ex_species_hit; ex_boundary_hit] None None (Some (Fin (98#1)))
           ex_species_hit).
  split; [now left|]. repeat split.
  - intros v Hv. discriminate.
  - intros v Hv. discriminate.
  - intros v Hv _. injection Hv as <-. vm_compute. reflexivity.
Defined.

(** ** Errors and provenance in the hit selector *)

Lemma rmapM_raises {A B : Type} (f : A -> result B) (l : list A) (e : exn) (a : A) :
  (forall x, In x l -> (exists b, f x = Ok b) \/ f x = Raise e) ->
  In a l -> f a = Raise e ->
  rmapM f l = Raise e.
Proof.
  induction l as [|x l IH]; intros Hall Hin Ha; [destruct Hin|].
  simpl. destruct (Hall x (or_introl eq_refl)) as [[b Hb]|Hx].
  - rewrite Hb. simpl. destruct Hin as [->|Hin]; [congruence|].
    rewrite IH; [reflexivity| |assumption|assumption].
    intros y Hy. apply Hall. now right.
  - now rewrite Hx.
Qed.

Lemma nonnull_cells_empty (series : hit) (cols : list string) :
  (forall c, In c cols -> rank_ids series !! c = None) ->
  nonnull_cells series cols = [].
Proof.
  intros H. rewrite <- (app_nil_r cols). now rewrite nonnull_cells_skip.
Qed.

Lemma resolved_tax_id_Ok_or_IndexError (valid : list hit) (r : string)
    (pre rest : list string) (h : hit) :
  ~ In r pre ->
  (exists b, resolved_tax_id valid r (pre ++ r :: rest) h = Ok b)
  \/ resolved_tax_id valid r (pre ++ r :: rest) h = Raise IndexError.
Proof.
  intros Hn. unfold resolved_tax_id.
  destruct (isnull (rank_ids h !! r)); [|eauto].
  unfold find_tax_id. rewrite (index_app_fresh _ _ _ Hn), drop_app_length.
  destruct (nonnull_cells h (r :: rest)) as [|[key value] l]; eauto.
Qed.

(** X2: [select_valid_hits] raises IndexError when, at the rank where the
    loop stops (the first rank with a valid hit that has a tax_id), another
    valid hit has no tax_id at that rank nor at any less specific rank:
    [find_tax_id] finds no cell to take. *)
Theorem select_valid_hits_raises_without_any_tax_id
    (df : list hit) (pre rest : list string) (r : string) (h h2 : hit) :
  ~ In r pre ->
  (forall r' x, In r' pre -> In x (valid_hits df r') -> rank_ids x !! r' = None) ->
  In h2 (valid_hits df r) -> rank_ids h2 !! r <> None ->
  In h (valid_hits df r) ->
  (forall c, In c (r :: rest) -> rank_ids h !! c = None) ->
  select_valid_hits df (pre ++ r :: rest) = Raise IndexError.
Proof.
  intros Hn Hpre Hh2 Hid Hh Hnull.
  unfold select_valid_hits. rewrite select_loop_find.
  assert (Hfind : List.find (selectable df) (pre ++ r :: rest) = Some r).
  { clear Hn. induction pre as [|p pre IH]; simpl.
    - replace (selectable df r) with true; [reflexivity|].
      symmetry. apply selectable_true. eauto.
    - replace (selectable df p) with false.
      + apply IH. intros r' x Hr'. apply Hpre. now right.
      + symmetry. apply selectable_false. intros x. apply Hpre. now left. }
  rewrite Hfind, assign_at_resolved.
  rewrite (rmapM_raises _ _ IndexError h); [reflexivity| |assumption|].
  - intros x _. now apply resolved_tax_id_Ok_or_IndexError.
  - unfold resolved_tax_id. rewrite (Hnull r (or_introl eq_refl)). cbn [isnull].
    unfold find_tax_id. rewrite (index_app_fresh _ _ _ Hn), drop_app_length.
    now rewrite (nonnull_cells_empty h (r :: rest) Hnull).
Qed.

Lemma select_valid_hits_raises_without_any_tax_id_witness :
  select_valid_hits [ex_species_hit; ex_rootless_hit] ex_ranks = Raise IndexError.
Proof.
  apply (select_valid_hits_raises_without_any_tax_id
           [ex_species_hit; ex_rootless_hit] [] ["genus"; "root"] "species"
           ex_rootless_hit ex_species_hit).
  - intros [].
  - intros r' x [].
  - vm_compute. left. reflexivity.
  - vm_compute. discriminate.
  - vm_compute. right. left. reflexivity.
  - intros c _. vm_compute. reflexivity.
Defined.

Lemma index_drop_In (ranks : list string) (r : string) (i : nat) (k : string) :
  index ranks r = Some i -> In k (drop i ranks) -> In k (ranks_from ranks r).
Proof. intros Hi Hk. unfold ranks_from. now rewrite Hi. Qed.

Lemma nonnull_cells_In (series : hit) (cols : list string) (k v : string) :
  In (k, v) (nonnull_cells series cols) -> In k cols /\ rank_ids series !! k = Some v.
Proof.
  unfold nonnull_cells. intros H.
  apply list_elem_of_In, list_elem_of_omap in H as (c & Hc & Hv).
  apply list_elem_of_In in Hc.
  destruct (rank_ids series !! c) as [x|] eqn:E; [|discriminate].
  injection Hv as <- <-. auto.
Qed.

Lemma index_Some_In (ranks : list string) (r : string) (i : nat) :
  index ranks r = Some i -> In r (drop i ranks).
Proof.
  revert i. induction ranks as [|x ranks IH]; intros i; simpl; [discriminate|].
  destruct (String.eqb x r) eqn:E.
  - intros H. injection H as <-. apply String.eqb_eq in E. subst. now left.
  - destruct (index ranks r) as [j|]; [|discriminate].
    intros H. injection H as <-. simpl. now apply IH.
Qed.

Lemma resolved_tax_id_own_cell (valid : list hit) (r : string) (ranks : list string)
    (h : hit) (t : string) :
  In r ranks ->
  resolved_tax_id valid r ranks h = Ok (Some t) ->
  exists k, In k (ranks_from ranks r) /\ rank_ids h !! k = Some t.
Proof.
  intros Hr. unfold resolved_tax_id.
  destruct (rank_ids h !! r) as [x|] eqn:E; cbn [isnull].
  - intros H. injection H as <-. exists r. split; [|assumption].
    apply index_In in Hr as (pre & rest & -> & Hn).
    unfold ranks_from. rewrite (index_app_fresh _ _ _ Hn), drop_app_length.
    now left.
  - unfold find_tax_id. destruct (index ranks r) as [i|] eqn:Ei; [|discriminate].
    destruct (nonnull_cells h (drop i ranks)) as [|[key value] l] eqn:En;
      [discriminate|].
    destruct (in_column value _ key); [discriminate|].
    intros H. injection H as <-.
    destruct (nonnull_cells_In h (drop i ranks) key value) as [Hk Hv].
    { rewrite En. now left. }
    exists key. split; [|assumption]. now apply (index_drop_In ranks r i).
Qed.

(** X3: what [select_valid_hits] returns is never empty, and every row of it
    is a hit of the input, with all its columns, that lies strictly above its
    threshold at the rank [r] where the loop stopped.  The row's
    [assignment_tax_id] is a tax_id of that hit itself, at [r] or at a less
    specific rank, and its [assignment_threshold] is the threshold of rank
    [r] even when the tax_id comes from a less specific rank.  Every valid
    hit that has a tax_id at [r] is returned with that tax_id. *)
Theorem selected_rows_provenance (df : list hit) (ranks : list string) (out : list hit) :
  select_valid_hits df ranks = Ok (Some out) ->
  out <> [] /\
  exists r, In r ranks /\
    (forall h', In h' out ->
       exists h t k, In h df /\ flt (threshold h r) (pident h) = true /\
         h' = set_assignment (Some t) (threshold h r) h /\ same_hit_columns h' h /\
         In k (ranks_from ranks r) /\ rank_ids h !! k = Some t) /\
    (forall h t, In h df -> flt (threshold h r) (pident h) = true ->
       rank_ids h !! r = Some t ->
       In (set_assignment (Some t) (threshold h r) h) out).
Proof.
  unfold select_valid_hits. rewrite select_loop_find.
  destruct (List.find (selectable df) ranks) as [r|] eqn:Ef; [|discriminate].
  destruct (assign_at (valid_hits df r) r ranks) as [o|e] eqn:Ea; [|discriminate].
  intros H. injection H as <-.
  apply find_first in Ef as (pre & post & Hranks & Hsel & _).
  assert (Hr : In r ranks) by (rewrite Hranks; apply in_elt).
  apply assign_at_Ok in Ea.
  assert (Hdirect : forall h t, In h df -> flt (threshold h r) (pident h) = true ->
            rank_ids h !! r = Some t ->
            In (set_assignment (Some t) (threshold h r) h) o).
  { intros h t Hh Hv Ht. rewrite Ea. apply list_elem_of_In, list_elem_of_omap.
    exists h. split.
    - apply list_elem_of_In, valid_hits_In. auto.
    - unfold selected_row, resolved_tax_id. now rewrite Ht. }
  split.
  - apply selectable_true in Hsel as (h & Hh & Hid).
    destruct (rank_ids h !! r) as [t|] eqn:Et; [|congruence].
    apply valid_hits_In in Hh as [Hh Hv].
    intros Hnil. specialize (Hdirect h t Hh Hv Et). rewrite Hnil in Hdirect.
    destruct Hdirect.
  - exists r. split; [assumption|]. split; [|exact Hdirect].
    intros h' Hh'. rewrite Ea in Hh'.
    apply list_elem_of_In, list_elem_of_omap in Hh' as (h & Hh & Hrow).
    apply list_elem_of_In, valid_hits_In in Hh as [Hh Hv].
    unfold selected_row in Hrow.
    destruct (resolved_tax_id (valid_hits df r) r ranks h) as [[t|]|] eqn:Er;
      try discriminate.
    injection Hrow as <-.
    destruct (resolved_tax_id_own_cell _ _ _ _ _ Hr Er) as (k & Hk & Hkt).
    exists h, t, k. repeat split; assumption.
Qed.

Lemma selected_rows_provenance_witness :
  exists out, select_valid_hits [ex_species_hit; ex_other_genus_hit] ex_ranks
              = Ok (Some out) /\ out <> [].
Proof.
  eexists. split; [vm_compute; reflexivity|].
  apply (selected_rows_provenance [ex_species_hit; ex_other_genus_hit] ex_ranks).
  vm_compute. reflexivity.
Defined.

(** ** Starring is monotone *)

Lemma fle_trans (a b c : pyfloat) : fle a b = true -> fle b c = true -> fle a c = true.
Proof.
  destruct a as [|x], b as [|y], c as [|z]; simpl; try discriminate.
  rewrite !Qle_bool_iff. apply Qle_trans.
Qed.

Lemma star_flag (df : list hit) (thr : pyfloat) (h' : hit) :
  In h' (star df thr) ->
  starred h' = Some (existsb (fun x => fge x thr) (map pident df)).
Proof.
  unfold star. intros H. apply in_map_iff in H as (h & <- & _). reflexivity.
Qed.

(** X4: starring is monotone.  If a group is starred at a threshold, then
    every group that contains its hits is starred at every threshold that is
    not greater: lowering [--starred] or adding hits to a group never removes
    a star. *)
Theorem star_monotone (df df' : list hit) (thr thr' : pyfloat) (h1 h2 : hit) :
  fle thr' thr = true ->
  (forall h, In h df -> In h df') ->
  In h1 (star df thr) -> starred h1 = Some true ->
  In h2 (star df' thr') ->
  starred h2 = Some true.
Proof.
  intros Hle Hsub H1 Hs H2.
  rewrite (star_flag _ _ _ H1) in Hs. injection Hs as Hs.
  rewrite (star_flag _ _ _ H2). f_equal.
  apply existsb_exists in Hs as (x & Hx & Hge).
  apply existsb_exists. exists x. split.
  - apply in_map_iff in Hx as (h & <- & Hh). apply in_map, Hsub, Hh.
  - unfold fge in *. eapply fle_trans; eassumption.
Qed.

Lemma star_monotone_witness :
  starred (set_starred true ex_boundary_hit) = Some true.
Proof.
  apply (star_monotone [ex_species_hit] [ex_boundary_hit; ex_species_hit]
           (Fin (98#1)) (Fin (97#1))
           (set_starred true ex_species_hit) (set_starred true ex_boundary_hit)).
  - vm_compute. reflexivity.
  - intros h [<-|[]]. right. now left.
  - vm_compute. now left.
  - reflexivity.
  - vm_compute. now left.
Defined.

(** ** The merged threshold table *)

Lemma groupby_last_index (t : threshold_table) :
  map fst (groupby_last t) = sort_by String.leb (unique (map fst t)).
Proof.
  unfold groupby_last. rewrite map_map. cbn [fst]. apply map_id.
Qed.

Lemma group_rows_In_key {A K : Type} `{EqDecision K} (key : A -> K) (k : K) (l : list A) :
  group_rows key k l <> [] <-> In k (map key l).
Proof.
  split.
  - intros H. destruct (group_rows key k l) as [|a g] eqn:E; [congruence|].
    assert (Ha : In a (group_rows key k l)) by (rewrite E; now left).
    apply in_map_iff. exists a. split.
    + now apply group_rows_key in Ha.
    + now apply filter_In in Ha as [Ha _].
  - intros H Hnil. apply in_map_iff in H as (a & Hk & Ha).
    assert (Hin : In a (group_rows key k l)).
    { apply filter_In. split; [assumption|]. now apply bool_decide_eq_true_2. }
    rewrite Hnil in Hin. destruct Hin.
Qed.

(** X5: with a user file, the merged threshold table has one row per
    tax_id; its index lists, in ascending order, exactly the tax_ids of the
    default table and of the user's file.  A tax_id that only the default
    table lists (once) keeps its default row, and a tax_id that only the
    user's file lists (once) gets the user's row. *)
Theorem merged_thresholds_index (defaults user : threshold_table) :
  let merged := merge_rank_thresholds defaults (Some user) in
  List.NoDup (map fst merged)
  /\ StronglySorted (fun x y => String.leb x y = true) (map fst merged)
  /\ (forall tid, In tid (map fst merged) <->
                  In tid (map fst defaults) \/ In tid (map fst user))
  /\ (forall tid row, group_rows fst tid defaults = [(tid, row)] ->
        group_rows fst tid user = [] -> group_rows fst tid merged = [(tid, row)])
  /\ (forall tid row, group_rows fst tid user = [(tid, row)] ->
        group_rows fst tid defaults = [] -> group_rows fst tid merged = [(tid, row)]).
Proof.
  intros merged. unfold merged, merge_rank_thresholds.
  assert (Hin : forall tid, In tid (map fst (groupby_last (defaults ++ user))) <->
                  In tid (map fst defaults) \/ In tid (map fst user)).
  { intros tid. rewrite groupby_last_index, sort_by_In, unique_In, map_app.
    apply in_app_iff. }
  assert (Hone : forall tid row (a b : threshold_table),
            group_rows fst tid (a ++ b) = [(tid, row)] ->
            group_rows fst tid (groupby_last (a ++ b)) = [(tid, row)]).
  { intros tid row a b Hg. rewrite groupby_last_rows.
    - rewrite Hg. cbn [map snd last_row foldl]. do 2 f_equal.
      apply (right_id_L ∅ (∪)).
    - apply group_rows_In_key. rewrite Hg. discriminate. }
  split; [|split; [|split; [|split]]].
  - rewrite groupby_last_index.
    apply (Permutation_NoDup (l := unique (map fst (defaults ++ user)))).
    + symmetry. apply sort_by_Permutation.
    + apply unique_NoDup.
  - rewrite groupby_last_index. apply sort_by_StronglySorted.
    + apply String_leb_total.
    + apply String_leb_trans.
  - exact Hin.
  - intros tid row Hd Hu. apply Hone.
    unfold group_rows in *. now rewrite List.filter_app, Hd, Hu.
  - intros tid row Hu Hd. apply Hone.
    unfold group_rows in *. now rewrite List.filter_app, Hd, Hu.
Qed.

Lemma merged_thresholds_index_witness :
  List.NoDup (map fst (merge_rank_thresholds ex_default_thresholds
                         (Some ex_user_thresholds))).
Proof.
  destruct (merged_thresholds_index ex_default_thresholds ex_user_thresholds) as [H _].
  exact H.
Defined.

(** ** Joins on a unique index *)

Lemma NoDup_group_rows_le_one {B K : Type} `{EqDecision K} (rkey : B -> K) (k : K)
    (right : list B) :
  List.NoDup (map rkey right) -> (length (group_rows rkey k right) <= 1)%nat.
Proof.
  unfold group_rows. induction right as [|b right IH]; intros Hnd; [simpl; lia|].
  inversion Hnd as [|x l Hx Hnd']; subst. simpl.
  destruct (decide (rkey b = k)) as [Hk|Hk].
  - rewrite bool_decide_eq_true_2 by assumption. simpl.
    fold (group_rows rkey k right).
    rewrite (group_rows_absent rkey right k); [simpl; lia|]. now rewrite <- Hk.
  - rewrite bool_decide_eq_false_2 by assumption. now apply IH.
Qed.

(** With a unique index on the right, a left join keeps every column that
    the join does not write. *)
Lemma join_left_map_col {A B K C : Type} `{EqDecision K} (key : A -> option K)
    (rkey : B -> K) (set : B -> A -> A) (unset : A -> A) (right : list B)
    (left : list A) (col : A -> C) :
  (forall b a, col (set b a) = col a) -> (forall a, col (unset a) = col a) ->
  List.NoDup (map rkey right) ->
  map col (join_left key rkey set unset right left) = map col left.
Proof.
  intros Hset Hunset Hnd. unfold join_left.
  induction left as [|a left IH]; [reflexivity|].
  cbn [flat_map]. rewrite map_app, IH. cbn [map].
  change (col a :: map col left) with ([col a] ++ map col left). f_equal.
  destruct (key a) as [k|]; [|cbn [map]; now rewrite Hunset].
  pose proof (NoDup_group_rows_le_one rkey k right Hnd) as Hle.
  destruct (group_rows rkey k right) as [|b [|b' g]]; cbn [map length] in *.
  - now rewrite Hunset.
  - now rewrite Hset.
  - lia.
Qed.

Lemma join_left_length {A B K : Type} `{EqDecision K} (key : A -> option K)
    (rkey : B -> K) (set : B -> A -> A) (unset : A -> A) (right : list B)
    (left : list A) :
  List.NoDup (map rkey right) ->
  length (join_left key rkey set unset right left) = length left.
Proof.
  intros Hnd. rewrite <- (length_map (fun _ => tt) (join_left _ _ _ _ _ _)).
  rewrite <- (length_map (fun _ => tt) left). f_equal.
  now apply join_left_map_col.
Qed.

(** X6: joining the thresholds neither drops nor repeats a hit when the
    index of the threshold table has no duplicate: the joined table has as
    many rows as the table of hits, in the same order (the columns read from
    the blast file are unchanged).  The table merged with a user file always
    has such an index. *)
Theorem threshold_join_keeps_every_hit (table : threshold_table) (blast_results : list hit) :
  let joined := join_left tax_id fst (fun row => set_thresholds row.2)
                  (set_thresholds ∅) table blast_results in
  (List.NoDup (map fst table) ->
     length joined = length blast_results
     /\ map qseqid joined = map qseqid blast_results
     /\ map sseqid joined = map sseqid blast_results
     /\ map pident joined = map pident blast_results)
  /\ (forall defaults user,
        table = merge_rank_thresholds defaults (Some user) ->
        length joined = length blast_results).
Proof.
  intros joined.
  assert (Hlen : List.NoDup (map fst table) -> length joined = length blast_results).
  { intros Hnd. now apply join_left_length. }
  split.
  - intros Hnd. split; [now apply Hlen|].
    repeat split; apply join_left_map_col; auto.
  - intros defaults user ->. apply Hlen.
    unfold merge_rank_thresholds. rewrite groupby_last_index.
    apply (Permutation_NoDup (l := unique (map fst (defaults ++ user)))).
    + symmetry. apply sort_by_Permutation.
    + apply unique_NoDup.
Qed.

Lemma threshold_join_keeps_every_hit_witness :
  length (join_left tax_id fst (fun row => set_thresholds row.2) (set_thresholds ∅)
            ex_default_thresholds [ex_species_hit; ex_genus_hit]) = 2%nat.
Proof.
  apply (threshold_join_keeps_every_hit ex_default_thresholds
           [ex_species_hit; ex_genus_hit]).
  vm_compute. constructor; [intros []|constructor].
Defined.

(** ** target_rank does not depend on the order of the rows *)

Lemma target_rank_greatest (s : list (option string)) (ranks : list string)
    (x : option string) :
  target_rank s ranks = Ok x ->
  In x s /\ forall y, In y s -> (rank_index ranks y <= rank_index ranks x)%Z.
Proof.
  unfold target_rank.
  set (keyed := map (fun x => (rank_index ranks x, x)) s).
  set (le := fun a b : Z * option string => Z.leb a.1 b.1).
  intros H. apply bind_Ok in H as (p & Hp & H). injection H as <-.
  unfold iloc_last in Hp.
  destruct (List.last (map Some (sort_by le keyed)) None) as [p'|] eqn:Hlast;
    [|discriminate].
  injection Hp as ->.
  destruct (StronglySorted_last le Zleb_fst_total _ p
              (sort_by_StronglySorted le Zleb_fst_total Zleb_fst_trans keyed) Hlast)
    as [Hin Hmax].
  apply sort_by_In in Hin. unfold keyed in Hin.
  apply in_map_iff in Hin as (x & <- & Hx). simpl. split; [assumption|].
  intros y Hy.
  assert (Hy' : In (rank_index ranks y, y) (sort_by le keyed)).
  { apply sort_by_In. unfold keyed. apply in_map_iff. eauto. }
  specialize (Hmax _ Hy'). unfold le in Hmax. simpl in Hmax.
  now apply Z.leb_le.
Qed.

Lemma index_nth (ranks : list string) (r : string) (i : nat) :
  index ranks r = Some i -> nth_error ranks i = Some r.
Proof.
  revert i. induction ranks as [|x ranks IH]; intros i; simpl; [discriminate|].
  destruct (String.eqb x r) eqn:E.
  - intros H. injection H as <-. apply String.eqb_eq in E. now subst.
  - destruct (index ranks r) as [j|]; [|discriminate].
    intros H. injection H as <-. simpl. now apply IH.
Qed.

Lemma rank_index_inj (ranks : list string) (x y : option string) :
  (0 <= rank_index ranks x)%Z -> rank_index ranks x = rank_index ranks y -> x = y.
Proof.
  unfold rank_index. intros Hx Heq.
  destruct x as [r|]; [|lia].
  destruct (index ranks r) as [i|] eqn:Ei; [|lia].
  destruct y as [r'|]; [|lia].
  destruct (index ranks r') as [j|] eqn:Ej; [|lia].
  apply Nat2Z.inj in Heq. subst j.
  apply index_nth in Ei, Ej. congruence.
Qed.

(** X7: when the rank that [target_rank] returns is one of the list of
    ranks, the result does not depend on the order of the rows of the group:
    any rearrangement of the group gives the same rank.  An empty group
    raises IndexError. *)
Theorem target_rank_order_independent
    (s s' : list (option string)) (ranks : list string) (x : option string) :
  Permutation s s' ->
  target_rank s ranks = Ok x ->
  (0 <= rank_index ranks x)%Z ->
  target_rank s' ranks = Ok x /\ target_rank [] ranks = Raise IndexError.
Proof.
  intros Hperm Hx Hpos. split; [|reflexivity].
  destruct (target_rank_greatest _ _ _ Hx) as [Hin Hmax].
  assert (Hne : s' <> []).
  { intros ->. apply Permutation_sym, Permutation_nil in Hperm. subst.
    destruct Hin. }
  destruct (target_rank_Ok s' ranks Hne) as [x' Hx'].
  rewrite Hx'. f_equal.
  destruct (target_rank_greatest _ _ _ Hx') as [Hin' Hmax'].
  symmetry. apply (rank_index_inj ranks); [assumption|].
  apply Z.le_antisymm.
  - apply Hmax', (Permutation_in _ Hperm), Hin.
  - apply Hmax, (Permutation_in _ (Permutation_sym Hperm)), Hin'.
Qed.

Lemma target_rank_order_independent_witness :
  target_rank [Some "species"; None; Some "genus"] ex_root_first = Ok (Some "species").
Proof.
  apply (target_rank_order_independent
           [Some "genus"; Some "species"; None] [Some "species"; None; Some "genus"]
           ex_root_first (Some "species")).
  - apply perm_trans with [Some "species"; Some "genus"; None].
    + apply perm_swap.
    + apply perm_skip, perm_swap.
  - vm_compute. reflexivity.
  - vm_compute. discriminate.
Defined.

(** ** The summary table *)

Lemma Forall2_In_r {A B : Type} (P : A -> B -> Prop) (l : list A) (l' : list B) (y : B) :
  Forall2 P l l' -> In y l' -> exists x, In x l /\ P x y.
Proof.
  induction 1 as [|a b l l' Hab _ IH]; intros Hin; [destruct Hin|].
  destruct Hin as [<-|Hin].
  - exists a. split; [now left|assumption].
  - destruct (IH Hin) as (x & Hx & Hp). exists x. split; [now right|assumption].
Qed.

Lemma round_up_floor (x : xfloat) :
  (exists q, round_up x = XFin q /\ (1#100 <= q)%Q) \/ round_up x = XInf true.
Proof.
  destruct x as [|q|[|]]; cbn [round_up].
  - left. exists (1#100)%Q. split; [reflexivity|apply Qle_refl].
  - left. destruct (Qltb (1#100) q) eqn:E.
    + exists q. split; [reflexivity|]. apply Qlt_le_weak. now apply Qltb_lt.
    + exists (1#100)%Q. split; [reflexivity|apply Qle_refl].
  - now right.
  - left. exists (1#100)%Q. split; [reflexivity|apply Qle_refl].
Qed.

Lemma summarize_Raise (rt : runtime) (a : Args.t) (blast_results : list hit) (e : exn) :
  summarize rt a blast_results = Raise e ->
  e = KeyError /\
  exists cn, Args.copy_numbers a = Some cn /\ group_rows fst "1" cn = [].
Proof.
  intros H.
  destruct (Args.copy_numbers a) as [cn|] eqn:Ecn.
  - destruct (group_rows fst "1" cn) as [|row rows] eqn:Eg.
    + split; [|eauto].
      unfold summarize, summary_rows, copy_corrections in H. rewrite Ecn, Eg in H.
      injection H as <-. reflexivity.
    + destruct (summarize_total rt a blast_results) as [out Hout]; [|congruence].
      rewrite Ecn, Eg. discriminate.
  - destruct (summarize_total rt a blast_results) as [out Hout]; [|congruence].
    now rewrite Ecn.
Qed.

(** X8: when a copy number table is given that has no row for tax_id 1 the
    summary fails with KeyError, and with positive copy numbers (or none) it
    fails in no other case.  In every row of the summary [pct_reads] is never
    NaN and never below 0.01: it is a number of at least 0.01, or [inf] when
    the reads of the specimen sum to zero; and so is [pct_corrected] when
    copy numbers are given. *)
Theorem summarize_fails_only_without_root_copy_number
    (rt : runtime) (a : Args.t) (blast_results : list hit) :
  ((exists cn, Args.copy_numbers a = Some cn /\ group_rows fst "1" cn = []) ->
     summarize rt a blast_results = Raise KeyError)
  /\ (positive_copy_numbers a ->
      forall e, summarize rt a blast_results = Raise e ->
        e = KeyError /\
        exists cn, Args.copy_numbers a = Some cn /\ group_rows fst "1" cn = [])
  /\ (forall out o, summarize rt a blast_results = Ok out -> In o out ->
        ((exists q, o_pct_reads o = XFin q /\ (1#100 <= q)%Q)
         \/ o_pct_reads o = XInf true)
        /\ (is_Some (Args.copy_numbers a) ->
            (exists q, o_pct_corrected o = XFin q /\ (1#100 <= q)%Q)
            \/ o_pct_corrected o = XInf true)).
Proof.
  split; [|split].
  - intros (cn & Hcn & Hnone). unfold summarize, summary_rows, copy_corrections.
    now rewrite Hcn, Hnone.
  - intros _ e He. now apply summarize_Raise in He.
  - intros out o Hout Ho.
    apply summarize_Ok in Hout as (rows & Hrows & ->).
    apply sort_and_number_inv in Ho as (i & o0 & Ho0 & ->).
    unfold summary_rows in Hrows.
    apply bind_Ok in Hrows as (corrections & Hc & Er).
    apply rmapM_Ok in Er.
    destruct (Forall2_In_r _ _ _ o0 Er Ho0) as (k & _ & Hk).
    apply bind_Ok in Hk as (rk & _ & Hk). injection Hk as <-.
    cbn [o_pct_reads o_pct_corrected set_assignment_id drop_assignment_hash].
    split; [apply round_up_floor|].
    intros [cn Hcn]. rewrite Hcn in Hc.
    apply bind_Ok in Hc as (c & _ & Hc). injection Hc as <-.
    apply round_up_floor.
Qed.

Lemma summarize_fails_only_without_root_copy_number_witness :
  summarize ex_runtime ex_copy_args [] = Raise KeyError.
Proof.
  apply (summarize_fails_only_without_root_copy_number ex_runtime ex_copy_args []).
  exists [("2", 4#1)]%Q. split; reflexivity.
Defined.

(** ** Grouped application and the stages that label the hits *)

Lemma group_rows_notnull {A K : Type} `{EqDecision K} (key : A -> option K) (k : K)
    (df : list A) :
  group_rows key (Some k) (List.filter (fun a => notnull (key a)) df)
  = group_rows key (Some k) df.
Proof.
  unfold group_rows. rewrite filter_filter_andb. apply List.filter_ext.
  intros a. destruct (key a) as [k'|]; reflexivity.
Qed.

(** A row of the result comes from applying [f] to one group, and the groups
    are those of the keys that are not null. *)
Lemma groupby_apply_In {A K : Type} `{EqDecision K} (key : A -> option K)
    (f : list A -> list A) (df : list A) (a' : A) :
  In a' (groupby_apply key f df) <->
  exists k, In (Some k) (map key df) /\ In a' (f (group_rows key (Some k) df)).
Proof.
  unfold groupby_apply, groupby. rewrite List.in_concat. split.
  - intros (l & Hl & Ha). apply in_map_iff in Hl as (g & <- & Hg).
    apply in_map_iff in Hg as (k & <- & Hk). apply (proj1 (unique_In _ _)) in Hk.
    apply in_map_iff in Hk as (a & <- & Hin). apply filter_In in Hin as [Hin Hnn].
    destruct (key a) as [k|] eqn:E; [|discriminate].
    exists k. split.
    + rewrite <- E. now apply in_map.
    + cbn [snd] in Ha. now rewrite group_rows_notnull in Ha.
  - intros (k & Hk & Ha). exists (f (group_rows key (Some k) df)). split; [|assumption].
    apply in_map_iff.
    exists (Some k, group_rows key (Some k)
                      (List.filter (fun a => notnull (key a)) df)).
    split.
    + cbn [snd]. now rewrite group_rows_notnull.
    + apply in_map_iff. exists (Some k). split; [reflexivity|].
      apply (proj2 (unique_In _ _)). apply in_map_iff in Hk as (a & E & Hin).
      apply in_map_iff. exists a. split; [assumption|].
      apply filter_In. split; [assumption|]. now rewrite E.
Qed.

Lemma condense_ids_inv (rt : runtime) (df : list hit) (tax_dict : list taxon)
    (ranks : list string) (n : Z) (h' : hit) :
  In h' (condense_ids rt df tax_dict ranks n) ->
  exists h c x, In h df /\ h' = set_condensed c x h.
Proof.
  unfold condense_ids. cbv zeta. intros H. apply in_map_iff in H as (h & <- & Hh).
  exists h. destruct (assignment_tax_id h ≫= _); eauto.
Qed.

Lemma condense_stage_inv (rt : runtime) (a : Args.t) (df : list hit) (h' : hit) :
  In h' (condense_stage rt a df) ->
  exists h c x, In h df /\ h' = set_condensed c x h.
Proof.
  unfold condense_stage. intros H. apply groupby_apply_In in H as (k & _ & H).
  apply condense_ids_inv in H as (h & c & x & Hh & ->).
  apply filter_In in Hh as [Hh _]. eauto.
Qed.

(** The rows of one (specimen, query) group receive the same hash. *)
Lemma condense_stage_hash (rt : runtime) (a : Args.t) (df : list hit) (h1 h2 : hit)
    (n1 n2 : Z) :
  In h1 (condense_stage rt a df) -> In h2 (condense_stage rt a df) ->
  specimen_query_key h1 = specimen_query_key h2 ->
  assignment_hash h1 = Some n1 -> assignment_hash h2 = Some n2 -> n1 = n2.
Proof.
  unfold condense_stage. intros H1 H2 Hk E1 E2.
  apply groupby_apply_In in H1 as (k1 & _ & H1).
  apply groupby_apply_In in H2 as (k2 & _ & H2).
  assert (K1 : specimen_query_key h1 = Some k1).
  { destruct (condense_ids_inv _ _ _ _ _ _ H1) as (h & c & x & Hh & ->).
    apply group_rows_key in Hh. exact Hh. }
  assert (K2 : specimen_query_key h2 = Some k2).
  { destruct (condense_ids_inv _ _ _ _ _ _ H2) as (h & c & x & Hh & ->).
    apply group_rows_key in Hh. exact Hh. }
  assert (k1 = k2) by congruence. subst k2.
  rewrite (condense_ids_hash _ _ _ _ _ _ _ H1 E1).
  now rewrite (condense_ids_hash _ _ _ _ _ _ _ H2 E2).
Qed.

Lemma star_stage_inv (a : Args.t) (df : list hit) (h' : hit) :
  In h' (star_stage a df) ->
  exists h b, In h df /\ is_Some (star_key h) /\ h' = set_starred b h.
Proof.
  unfold star_stage. intros H. apply groupby_apply_In in H as (k & _ & H).
  unfold star in H. apply in_map_iff in H as (h & <- & Hh).
  exists h. eexists. split; [|split; [|reflexivity]].
  - now apply filter_In in Hh as [Hh _].
  - apply group_rows_key in Hh. rewrite Hh. eauto.
Qed.

Lemma assign_stage_inv (rt : runtime) (a : Args.t) (df : list hit) (h' : hit) :
  In h' (assign_stage rt a df) ->
  exists h l, In h df /\ is_Some (assignment_key h) /\ h' = set_assignment_label l h.
Proof.
  unfold assign_stage. intros H. apply groupby_apply_In in H as (k & _ & H).
  unfold assign in H. cbv zeta in H. apply in_map_iff in H as (h & <- & Hh).
  exists h. eexists. split; [|split; [|reflexivity]].
  - now apply filter_In in Hh as [Hh _].
  - apply group_rows_key in Hh. rewrite Hh. eauto.
Qed.

(** The rows of one (specimen, assignment_hash) group receive the same
    label. *)
Lemma assign_stage_label (rt : runtime) (a : Args.t) (df : list hit) (h1 h2 : hit) :
  In h1 (assign_stage rt a df) -> In h2 (assign_stage rt a df) ->
  assignment_key h1 = assignment_key h2 -> assignment h1 = assignment h2.
Proof.
  unfold assign_stage. intros H1 H2 Hk.
  apply groupby_apply_In in H1 as (k1 & _ & H1).
  apply groupby_apply_In in H2 as (k2 & _ & H2).
  unfold assign in H1, H2. cbv zeta in H1, H2.
  apply in_map_iff in H1 as (x1 & <- & Hx1). apply in_map_iff in H2 as (x2 & <- & Hx2).
  apply group_rows_key in Hx1, Hx2.
  assert (Hx : assignment_key x1 = assignment_key x2) by exact Hk.
  assert (k1 = k2) by congruence. subst k2. reflexivity.
Qed.

Lemma no_hits_inv (blast_results : list hit) (row : hit) :
  In row (no_hits blast_results) ->
  exists h, In h blast_results /\ sseqid h = None /\
    row = set_assignment_hash 0 (set_assignment_label "[no blast result]" h).
Proof.
  unfold no_hits. intros H. apply in_map_iff in H as (h & <- & Hh).
  apply filter_In in Hh as [Hh Hnull]. exists h. split; [assumption|].
  split; [|reflexivity]. now destruct (sseqid h).
Qed.

Lemma join_qseqids_inv (selected : list hit) (qseqids : list string) (h : hit) :
  In h (join_qseqids selected qseqids) ->
  In h selected \/
  exists q, In q qseqids /\ (forall x, In x selected -> qseqid x <> q) /\ h = null_hit q.
Proof.
  unfold join_qseqids. intros H. apply in_app_or in H as [H|H]; [now left|right].
  apply in_map_iff in H as (q & <- & Hq). apply filter_In in Hq as [Hq Hno].
  exists q. split; [assumption|]. split; [|reflexivity].
  intros x Hx Heq. apply negb_true_iff in Hno.
  assert (Hex : existsb (String.eqb q) (map qseqid selected) = true).
  { apply existsb_exists. exists (qseqid x). split; [now apply in_map|].
    now apply String.eqb_eq. }
  congruence.
Qed.

Lemma label_hits_stages (rt : runtime) (a : Args.t) (selected : list hit)
    (qseqids : list string) :
  label_hits rt a selected qseqids
  = labelled_hits rt a selected qseqids ++ no_hits (hits_and_queries a selected qseqids).
Proof. reflexivity. Qed.

(** A row built from a hit went through the three stages. *)
Lemma labelled_hits_inv (rt : runtime) (a : Args.t) (selected : list hit)
    (qseqids : list string) (h' : hit) :
  In h' (labelled_hits rt a selected qseqids) ->
  exists h c n b l,
    In h (hits_and_queries a selected qseqids) /\ sseqid h <> None /\
    is_Some (specimen h) /\
    h' = set_assignment_label l (set_starred b (set_condensed (Some c) (Some n) h)).
Proof.
  unfold labelled_hits. intros H.
  apply assign_stage_inv in H as (h3 & l & H & _ & ->).
  apply (proj1 (sort_by_In _ _ _)) in H. apply star_stage_inv in H as (h2 & b & H & Hkey & ->).
  apply condense_stage_inv in H as (h & c & x & H & ->).
  apply (proj1 (sort_by_In _ _ _)) in H. apply filter_In in H as [H Hnn].
  unfold star_key in Hkey. cbn in Hkey.
  destruct (specimen h) as [sp|] eqn:Esp; [|now destruct Hkey].
  destruct x as [n|]; [|now destruct Hkey].
  destruct c as [c|]; [|now destruct Hkey].
  exists h, c, n, b, l. split; [assumption|]. split; [|split; [eauto|reflexivity]].
  intros E. now rewrite E in Hnn.
Qed.

Lemma label_hits_In (rt : runtime) (a : Args.t) (selected : list hit)
    (qseqids : list string) (row : hit) :
  In row (label_hits rt a selected qseqids) ->
  (sseqid row <> None /\ In row (labelled_hits rt a selected qseqids))
  \/ (sseqid row = None /\ In row (no_hits (hits_and_queries a selected qseqids))).
Proof.
  rewrite label_hits_stages. intros H. apply in_app_or in H as [H|H].
  - left. split; [|assumption].
    apply labelled_hits_inv in H as (h & c & n & b & l & _ & Hs & _ & ->). exact Hs.
  - right. split; [|assumption].
    apply no_hits_inv in H as (h & _ & Hs & ->). exact Hs.
Qed.

(** X9: every row of the labelled table, built from a hit or standing for
    a query without hit, has a specimen, an assignment_hash and an assignment.
    So the index of the summary loses no row: every row of the details is
    counted in a row of the summary with its specimen and its assignment. *)
Theorem labelled_rows_have_complete_keys
    (rt : runtime) (a : Args.t) (selected : list hit) (qseqids : list string)
    (row : hit) :
  let blast_results := label_hits rt a selected qseqids in
  In row blast_results ->
  (exists sp n l, specimen row = Some sp /\ assignment_hash row = Some n /\
      assignment row = Some l /\ In (sp, n, l) (summary_index blast_results))
  /\ (forall out, summarize rt a blast_results = Ok out ->
        exists o, In o out /\ Some (o_specimen o) = specimen row /\
                  Some (o_assignment o) = assignment row).
Proof.
  intros blast_results Hrow.
  assert (Hkeys : exists sp n l, specimen row = Some sp /\ assignment_hash row = Some n /\
                    assignment row = Some l).
  { apply label_hits_In in Hrow as [[_ H]|[_ H]].
    - apply labelled_hits_inv in H as (h & c & n & b & l & _ & _ & [sp Hsp] & ->).
      exists sp, n, l. auto.
    - apply no_hits_inv in H as (h & Hh & _ & ->).
      unfold hits_and_queries in Hh.
      apply join_specimens_inv in Hh as (h0 & sp & _ & _ & ->).
      exists sp, 0%Z, "[no blast result]". auto. }
  clearbody blast_results.
  destruct Hkeys as (sp & n & l & Hsp & Hn & Hl).
  pose proof (summary_index_In blast_results row sp l n Hrow Hsp Hn Hl) as Hidx.
  split.
  - exists sp, n, l. auto.
  - intros out Hout.
    destruct (summarize_rows rt a blast_results out (sp, n, l) Hout Hidx)
      as (o & Ho & Hs & Ha).
    exists o. split; [assumption|]. cbn in Hs, Ha. rewrite Hs, Ha, Hsp, Hl. auto.
Qed.

Lemma labelled_rows_have_complete_keys_witness :
  exists sp n l,
    specimen (hd (null_hit "") (label_hits ex_runtime ex_plain_args ex_selected ["q1"; "q2"]))
      = Some sp /\
    assignment_hash
      (hd (null_hit "") (label_hits ex_runtime ex_plain_args ex_selected ["q1"; "q2"]))
      = Some n /\
    assignment (hd (null_hit "") (label_hits ex_runtime ex_plain_args ex_selected ["q1"; "q2"]))
      = Some l /\
    In (sp, n, l)
       (summary_index (label_hits ex_runtime ex_plain_args ex_selected ["q1"; "q2"])).
Proof.
  apply (labelled_rows_have_complete_keys ex_runtime ex_plain_args ex_selected
           ["q1"; "q2"]
           (hd (null_hit "") (label_hits ex_runtime ex_plain_args ex_selected ["q1"; "q2"]))).
  vm_compute. left. reflexivity.
Defined.

(** X10: a row without reference sequence is the row of a query of the
    input for which no hit was selected: it is the row of nulls for that
    query, with one of the query's specimens, the label "[no blast result]"
    and the hash 0.  (The selected hits all have a sseqid: the program drops
    the others before the selection.) *)
Theorem sentinel_rows_only_for_queries_without_hit
    (rt : runtime) (a : Args.t) (selected : list hit) (qseqids : list string)
    (row : hit) :
  (forall h, In h selected -> sseqid h <> None) ->
  In row (label_hits rt a selected qseqids) ->
  sseqid row = None ->
  In (qseqid row) qseqids
  /\ (forall h, In h selected -> qseqid h <> qseqid row)
  /\ assignment row = Some "[no blast result]"
  /\ assignment_hash row = Some 0%Z
  /\ exists sp, In sp (specimens_of a (qseqid row)) /\
       row = set_assignment_hash 0
               (set_assignment_label "[no blast result]"
                  (set_specimen sp (null_hit (qseqid row)))).
Proof.
  intros Hsel Hrow Hnull.
  apply label_hits_In in Hrow as [[Hs _]|[_ H]]; [congruence|].
  apply no_hits_inv in H as (h & Hh & Hsh & ->).
  unfold hits_and_queries in Hh.
  apply join_specimens_inv in Hh as (h0 & sp & Hh0 & Hsp & ->).
  apply join_qseqids_inv in Hh0 as [Hh0|(q & Hq & Hno & ->)].
  - exfalso. apply (Hsel h0 Hh0). exact Hsh.
  - cbn. repeat split; try assumption. exists sp. split; [assumption|reflexivity].
Qed.

Lemma sentinel_rows_only_for_queries_without_hit_witness :
  In "q2" ["q1"; "q2"]
  /\ (forall h, In h ex_selected -> qseqid h <> "q2")
  /\ assignment
       (set_assignment_hash 0
          (set_assignment_label "[no blast result]" (set_specimen "q2" (null_hit "q2"))))
     = Some "[no blast result]".
Proof.
  pose proof (sentinel_rows_only_for_queries_without_hit ex_runtime ex_plain_args
                ex_selected ["q1"; "q2"]
                (set_assignment_hash 0
                   (set_assignment_label "[no blast result]"
                      (set_specimen "q2" (null_hit "q2"))))) as H.
  destruct H as (H1 & H2 & H3 & _).
  - intros h [<-|[<-|[]]]; discriminate.
  - vm_compute. right. right. left. reflexivity.
  - reflexivity.
  - split; [exact H1|]. split; [exact H2|exact H3].
Defined.

Lemma same_classified_columns_stages (h : hit) (sp : string) (c : option string)
    (n : option Z) (b : bool) (l : string) :
  same_classified_columns
    (set_assignment_label l (set_starred b (set_condensed c n (set_specimen sp h)))) h.
Proof. repeat split. Qed.

(** X11: a row with a reference sequence comes from a selected hit: the
    columns of the classified hit are unchanged, its specimen is one of the
    specimens of its query, and it was given a condensed id and a star flag.
    No stage after the selection invents a hit. *)
Theorem labelled_hit_rows_come_from_selected_hits
    (rt : runtime) (a : Args.t) (selected : list hit) (qseqids : list string)
    (row : hit) :
  In row (label_hits rt a selected qseqids) ->
  sseqid row <> None ->
  exists h sp, In h selected /\ same_classified_columns row h /\
    specimen row = Some sp /\ In sp (specimens_of a (qseqid h)) /\
    is_Some (condensed_id row) /\ is_Some (starred row).
Proof.
  intros Hrow Hs.
  apply label_hits_In in Hrow as [[_ H]|[Hnull _]]; [|congruence].
  apply labelled_hits_inv in H as (h & c & n & b & l & Hh & Hsh & _ & ->).
  unfold hits_and_queries in Hh.
  apply join_specimens_inv in Hh as (h0 & sp & Hh0 & Hsp & ->).
  apply join_qseqids_inv in Hh0 as [Hh0|(q & _ & _ & ->)].
  - exists h0, sp. split; [assumption|].
    split; [apply same_classified_columns_stages|].
    split; [reflexivity|]. split; [assumption|]. split; cbn; eauto.
  - exfalso. apply Hsh. reflexivity.
Qed.

Lemma labelled_hit_rows_come_from_selected_hits_witness :
  exists h sp, In h ex_selected /\
    same_classified_columns
      (hd (null_hit "") (label_hits ex_runtime ex_plain_args ex_selected ["q1"; "q2"])) h /\
    specimen (hd (null_hit "") (label_hits ex_runtime ex_plain_args ex_selected ["q1"; "q2"]))
      = Some sp /\
    In sp (specimens_of ex_plain_args (qseqid h)) /\
    is_Some (condensed_id
               (hd (null_hit "")
                   (label_hits ex_runtime ex_plain_args ex_selected ["q1"; "q2"]))) /\
    is_Some (starred
               (hd (null_hit "")
                   (label_hits ex_runtime ex_plain_args ex_selected ["q1"; "q2"]))).
Proof.
  apply (labelled_hit_rows_come_from_selected_hits ex_runtime ex_plain_args ex_selected
           ["q1"; "q2"]).
  - vm_compute. left. reflexivity.
  - vm_compute. discriminate.
Defined.

(** X12: a query has one assignment per specimen.  Two rows with a
    reference sequence that have the same specimen and the same query carry
    the same assignment_hash and the same assignment; and within a specimen
    the assignment is determined by the assignment_hash. *)
Theorem one_assignment_per_specimen_and_query
    (rt : runtime) (a : Args.t) (selected : list hit) (qseqids : list string)
    (row1 row2 : hit) :
  In row1 (label_hits rt a selected qseqids) ->
  In row2 (label_hits rt a selected qseqids) ->
  sseqid row1 <> None -> sseqid row2 <> None ->
  specimen row1 = specimen row2 ->
  (assignment_hash row1 = assignment_hash row2 -> assignment row1 = assignment row2)
  /\ (qseqid row1 = qseqid row2 ->
      assignment_hash row1 = assignment_hash row2 /\ assignment row1 = assignment row2).
Proof.
  intros H1 H2 Hs1 Hs2 Hsp.
  apply label_hits_In in H1 as [[_ H1]|[Hnull _]]; [|congruence].
  apply label_hits_In in H2 as [[_ H2]|[Hnull _]]; [|congruence].
  assert (Hlabel : assignment_hash row1 = assignment_hash row2 ->
                   assignment row1 = assignment row2).
  { intros Hh. unfold labelled_hits in H1, H2.
    apply (assign_stage_label _ _ _ _ _ H1 H2).
    unfold assignment_key. rewrite Hsp, Hh. reflexivity. }
  split; [exact Hlabel|].
  intros Hq.
  assert (Hhash : assignment_hash row1 = assignment_hash row2);
    [|split; [exact Hhash|exact (Hlabel Hhash)]].
  clear Hlabel. unfold labelled_hits in H1, H2.
  apply assign_stage_inv in H1 as (x1 & l1 & H1 & _ & ->).
  apply assign_stage_inv in H2 as (x2 & l2 & H2 & _ & ->).
  apply (proj1 (sort_by_In _ _ _)) in H1.
  apply (proj1 (sort_by_In _ _ _)) in H2.
  apply star_stage_inv in H1 as (y1 & b1 & H1 & K1 & ->).
  apply star_stage_inv in H2 as (y2 & b2 & H2 & K2 & ->).
  cbn in Hsp, Hq |- *.
  unfold star_key in K1, K2.
  destruct (specimen y1) as [s1|] eqn:Es1; [|now destruct K1].
  destruct (specimen y2) as [s2|] eqn:Es2; [|now destruct K2].
  destruct (assignment_hash y1) as [n1|] eqn:E1; [|now destruct K1].
  destruct (assignment_hash y2) as [n2|] eqn:E2; [|now destruct K2].
  f_equal. apply (condense_stage_hash _ _ _ _ _ _ _ H1 H2); [|assumption..].
  injection Hsp as ->.
  unfold specimen_query_key. now rewrite Es1, Es2, Hq.
Qed.

Lemma one_assignment_per_specimen_and_query_witness :
  assignment (nth 0 (label_hits ex_runtime ex_plain_args ex_selected ["q1"; "q2"])
                  (null_hit ""))
  = assignment (nth 1 (label_hits ex_runtime ex_plain_args ex_selected ["q1"; "q2"])
                    (null_hit "")).
Proof.
  pose proof (one_assignment_per_specimen_and_query ex_runtime ex_plain_args ex_selected
                ["q1"; "q2"]
                (nth 0 (label_hits ex_runtime ex_plain_args ex_selected ["q1"; "q2"])
                     (null_hit ""))
                (nth 1 (label_hits ex_runtime ex_plain_args ex_selected ["q1"; "q2"])
                     (null_hit ""))) as H.
  destruct H as [H _].
  - vm_compute. left. reflexivity.
  - vm_compute. right. left. reflexivity.
  - vm_compute. discriminate.
  - vm_compute. discriminate.
  - vm_compute. reflexivity.
  - apply H. vm_compute. reflexivity.
Defined.

(** ** From the blast file to the classified hits *)

Lemma join_inner_inv {A B K : Type} `{EqDecision K} (key : A -> option K)
    (rkey : B -> K) (set : B -> A -> A) (right : list B) (left : list A) (a' : A) :
  In a' (join_inner key rkey set right left) ->
  exists a b, In a left /\ In b right /\ key a = Some (rkey b) /\ a' = set b a.
Proof.
  unfold join_inner. intros H. apply in_flat_map in H as (a & Ha & H).
  destruct (key a) as [k|] eqn:E; [|destruct H].
  apply in_map_iff in H as (b & <- & Hb).
  pose proof (group_rows_key _ _ _ _ Hb) as Hk. apply filter_In in Hb as [Hb _].
  exists a, b. rewrite E, Hk. auto.
Qed.

Lemma join_left_inv {A B K : Type} `{EqDecision K} (key : A -> option K)
    (rkey : B -> K) (set : B -> A -> A) (unset : A -> A) (right : list B)
    (left : list A) (a' : A) :
  In a' (join_left key rkey set unset right left) ->
  exists a, In a left /\
    ((a' = unset a /\ forall b, In b right -> key a <> Some (rkey b))
     \/ exists b, In b right /\ key a = Some (rkey b) /\ a' = set b a).
Proof.
  unfold join_left. intros H. apply in_flat_map in H as (a & Ha & H).
  exists a. split; [assumption|].
  destruct (key a) as [k|] eqn:E.
  - destruct (group_rows rkey k right) as [|b0 g] eqn:Eg.
    + destruct H as [<-|[]]. left. split; [reflexivity|].
      intros b Hb Heq. injection Heq as ->.
      assert (Hin : In b (group_rows rkey (rkey b) right)).
      { apply filter_In. split; [assumption|]. now apply bool_decide_eq_true_2. }
      rewrite Eg in Hin. destruct Hin.
    + right. apply in_map_iff in H as (b & <- & Hb). rewrite <- Eg in Hb.
      pose proof (group_rows_key _ _ _ _ Hb) as Hk. apply filter_In in Hb as [Hb _].
      exists b. rewrite Hk. auto.
  - destruct H as [<-|[]]. left. split; [reflexivity|]. intros b _. discriminate.
Qed.

Lemma rmapM_Raise_inv {A B : Type} (f : A -> result B) (l : list A) (e : exn) :
  rmapM f l = Raise e -> exists a, In a l /\ f a = Raise e.
Proof.
  induction l as [|a l IH]; simpl; [discriminate|].
  destruct (f a) as [b|e'] eqn:Ea.
  - rewrite bind_Ok_l. destruct (rmapM f l) as [bs|e'] eqn:El.
    + discriminate.
    + intros H. injection H as ->. destruct (IH eq_refl) as (x & Hx & Hfx). eauto.
  - intros H. injection H as ->. eauto.
Qed.

(** A row returned by the selector, with the hit it comes from. *)
Lemma select_valid_hits_row_inv (df : list hit) (ranks : list string) (out : list hit)
    (h' : hit) :
  select_valid_hits df ranks = Ok (Some out) -> In h' out ->
  exists r h t k, In r ranks /\ In h df /\ flt (threshold h r) (pident h) = true /\
    h' = set_assignment (Some t) (threshold h r) h /\
    In k (ranks_from ranks r) /\ rank_ids h !! k = Some t.
Proof.
  unfold select_valid_hits. rewrite select_loop_find.
  destruct (List.find (selectable df) ranks) as [r|] eqn:Ef; [|discriminate].
  destruct (assign_at (valid_hits df r) r ranks) as [o|e] eqn:Ea; [|discriminate].
  intros H Hh'. injection H as <-.
  apply find_first in Ef as (pre & post & Hranks & _ & _).
  assert (Hr : In r ranks) by (rewrite Hranks; apply in_elt).
  apply assign_at_Ok in Ea. rewrite Ea in Hh'.
  apply list_elem_of_In, list_elem_of_omap in Hh' as (h & Hh & Hrow).
  apply list_elem_of_In, valid_hits_In in Hh as [Hh Hv].
  unfold selected_row in Hrow.
  destruct (resolved_tax_id (valid_hits df r) r ranks h) as [[t|]|] eqn:Er;
    try discriminate.
  injection Hrow as <-.
  destruct (resolved_tax_id_own_cell _ _ _ _ _ Hr Er) as (k & Hk & Hkt).
  exists r, h, t, k. repeat split; assumption.
Qed.

Lemma select_per_query_inv (blast_results : list hit) (ranks : list string)
    (out : list hit) (h' : hit) :
  select_per_query blast_results ranks = Ok out -> In h' out ->
  exists r h t k, In r ranks /\ In h blast_results /\
    flt (threshold h r) (pident h) = true /\
    h' = set_assignment (Some t) (threshold h r) h /\
    In k (ranks_from (rev ranks) r) /\ rank_ids h !! k = Some t.
Proof.
  unfold select_per_query. intros H Hh'.
  apply bind_Ok in H as (selected & Hsel & H). injection H as <-.
  unfold select_groups in Hsel. cbv zeta in Hsel.
  apply List.in_concat in Hh' as (o & Ho & Hh').
  apply list_elem_of_In, list_elem_of_omap in Ho as (x & Hx & Hid).
  destruct x as [o'|]; [|discriminate]. injection Hid as ->.
  apply list_elem_of_In in Hx. apply rmapM_Ok in Hsel.
  destruct (Forall2_In_r _ _ _ _ Hsel Hx) as (g & Hg & Hsv).
  destruct (select_valid_hits_row_inv _ _ _ _ Hsv Hh')
    as (r & h & t & k & Hr & Hh & Hv & -> & Hk & Hkt).
  exists r, h, t, k. split; [now apply in_rev|].
  split; [|auto].
  unfold groupby in Hg. apply in_map_iff in Hg as (q & <- & _). cbn [snd] in Hh.
  apply filter_In in Hh as [Hh _]. now apply (proj1 (sort_by_In _ _ _)) in Hh.
Qed.

Lemma load_blast_results_In (a : Args.t) (h : hit) :
  In h (load_blast_results a) ->
  exists row, In row (Args.blast_file a) /\ h = read_blast_row row.
Proof.
  unfold load_blast_results. intros H. apply in_map_iff in H as (row & <- & Hrow).
  exists row. split; [|reflexivity].
  destruct (Args.limit a) as [n|]; [|assumption].
  rewrite <- (firstn_skipn n (Args.blast_file a)). apply in_or_app. now left.
Qed.

(** What a run that classifies its hits went through. *)
Lemma classify_hits_Ok (a : Args.t) (out : list hit) :
  classify_hits a = Ok out ->
  exists groups,
    select_groups (joined_hits a) (Args.ranks a) = Ok groups
    /\ joined_hits a <> [] /\ forallb isnull groups = false
    /\ out = join_left assignment_tax_id t_tax_id
               (fun t => set_assignment_taxon (t_tax_name t) (t_rank t))
               (set_assignment_taxon None None) (Args.taxonomy a)
               (map drop_rank_columns (concat (omap id groups))).
Proof.
  unfold classify_hits. cbv zeta. intros H.
  apply bind_Ok in H as (groups & Hg & H). exists groups.
  destruct (joined_hits a) as [|h0 J] eqn:EJ; [discriminate H|].
  rewrite bool_decide_eq_false_2 in H by (cbn; lia).
  destruct (forallb isnull groups) eqn:Enone.
  - destruct (Args.ranks a); discriminate H.
  - injection H as <-. repeat split; [assumption|discriminate].
Qed.

Lemma classified_hit_inv (a : Args.t) (out : list hit) (h' : hit) :
  classify_hits a = Ok out -> In h' out ->
  exists s si t r k tid row,
    In (qseqid h', Some s, pident h', qcovs h') (Args.blast_file a)
    /\ sseqid h' = Some s
    /\ In si (Args.seq_info a) /\ si_seqname si = s
    /\ si_tax_id si = Some (t_tax_id t) /\ In t (Args.taxonomy a)
    /\ tax_id h' = Some (t_tax_id t) /\ accession h' = si_accession si
    /\ tax_name h' = t_tax_name t /\ rank h' = t_rank t
    /\ In r (Args.ranks a)
    /\ In k (ranks_from (rev (Args.ranks a)) r) /\ t_rank_ids t !! k = Some tid
    /\ assignment_tax_id h' = Some tid
    /\ In row (merge_rank_thresholds (Args.default_rank_thresholds a)
                 (Args.rank_thresholds a))
    /\ row.1 = t_tax_id t /\ assignment_threshold h' = cell row.2 r
    /\ flt (assignment_threshold h') (pident h') = true
    /\ ((assignment_tax_name h' = None /\ assignment_rank h' = None /\
         forall t', In t' (Args.taxonomy a) -> t_tax_id t' <> tid)
        \/ exists t', In t' (Args.taxonomy a) /\ t_tax_id t' = tid /\
             assignment_tax_name h' = t_tax_name t' /\ assignment_rank h' = t_rank t').
Proof.
  intros H Hh'. apply classify_hits_Ok in H as (groups & Hg & _ & _ & ->).
  set (merged := merge_rank_thresholds _ _).
  assert (Hsel : select_per_query (joined_hits a) (Args.ranks a)
                 = Ok (concat (omap id groups))).
  { unfold select_per_query. now rewrite Hg. }
  clear Hg.
  apply join_left_inv in Hh' as (h3 & Hh3 & Hname).
  apply in_map_iff in Hh3 as (h2 & <- & Hh2).
  destruct (select_per_query_inv _ _ _ _ Hsel Hh2)
    as (r & h1 & tid & k & Hr & Hh1 & Hv & -> & Hk & Hkt).
  unfold joined_hits in Hh1. cbv zeta in Hh1.
  rewrite (raw_filtering_unset _ None None None) in Hh1 by reflexivity.
  apply join_left_inv in Hh1 as (h0 & Hh0 & Hthr).
  apply join_inner_inv in Hh0 as (hh & t & Hhh & Ht & Htid & ->).
  apply join_inner_inv in Hhh as (hf & si & Hhf & Hsi & Hseq & ->).
  apply filter_In in Hhf as [Hhf Hnn].
  apply load_blast_results_In in Hhf as ([[[q s] p] c] & Hrow & ->).
  cbn in Hnn, Hseq, Htid. destruct s as [s|]; [|discriminate].
  injection Hseq as Hseq.
  destruct Hthr as [[-> _]|(row & Hrowin & Hrowkey & ->)].
  { cbn in Hv. discriminate. }
  cbn in Hrowkey, Hkt, Hv.
  exists s, si, t, r, k, tid, row.
  assert (Hcols : forall nm rk,
            let x := set_assignment_taxon nm rk
                       (drop_rank_columns
                          (set_assignment (Some tid)
                             (threshold
                                (set_thresholds row.2
                                   (set_taxonomy t
                                      (set_seq_info si (read_blast_row (q, Some s, p, c)))))
                                r)
                             (set_thresholds row.2
                                (set_taxonomy t
                                   (set_seq_info si (read_blast_row (q, Some s, p, c))))))) in
            In (qseqid x, Some s, pident x, qcovs x) (Args.blast_file a)
            /\ sseqid x = Some s
            /\ In si (Args.seq_info a) /\ si_seqname si = s
            /\ si_tax_id si = Some (t_tax_id t) /\ In t (Args.taxonomy a)
            /\ tax_id x = Some (t_tax_id t) /\ accession x = si_accession si
            /\ tax_name x = t_tax_name t /\ rank x = t_rank t
            /\ In r (Args.ranks a)
            /\ In k (ranks_from (rev (Args.ranks a)) r) /\ t_rank_ids t !! k = Some tid
            /\ assignment_tax_id x = Some tid
            /\ In row merged
            /\ row.1 = t_tax_id t /\ assignment_threshold x = cell row.2 r
            /\ flt (assignment_threshold x) (pident x) = true).
  { intros nm rk x. subst x. cbn.
    repeat (split; [first [assumption | reflexivity | congruence]|]).
    exact Hv. }
  destruct Hname as [[-> Hnone]|(t' & Ht' & Hkey & ->)].
  - destruct (Hcols None None) as
      (C1 & C2 & C3 & C4 & C5 & C6 & C7 & C8 & C9 & C10 & C11 & C12 & C13 & C14 & C15
       & C16 & C17 & C18).
    repeat (split; [assumption|]). left.
    split; [reflexivity|]. split; [reflexivity|].
    intros t' Ht' Heq. apply (Hnone t' Ht'). cbn. now rewrite Heq.
  - destruct (Hcols (t_tax_name t') (t_rank t')) as
      (C1 & C2 & C3 & C4 & C5 & C6 & C7 & C8 & C9 & C10 & C11 & C12 & C13 & C14 & C15
       & C16 & C17 & C18).
    repeat (split; [assumption|]). right.
    exists t'. cbn in Hkey. injection Hkey as Hkey.
    split; [assumption|]. split; [now symmetry|]. split; reflexivity.
Qed.

(** X13: every classified hit is a row of the blast file that names a
    reference sequence; the sequence is listed in seq_info and its tax_id in
    the taxonomy.  The hit lies strictly above the threshold that the merged
    threshold table gives for its tax_id at the rank [r] of the selection,
    its assignment_tax_id is one of the rank cells of its own taxonomy row, at
    [r] or at a less specific rank, and the name and rank of the assignment
    are those of the taxonomy row of the assignment_tax_id, or null when the
    taxonomy has no such row. *)
Theorem classified_hits_provenance (a : Args.t) (out : list hit) (h' : hit) :
  classify_hits a = Ok out -> In h' out ->
  exists s si t r k tid row,
    In (qseqid h', Some s, pident h', qcovs h') (Args.blast_file a)
    /\ sseqid h' = Some s
    /\ In si (Args.seq_info a) /\ si_seqname si = s
    /\ si_tax_id si = Some (t_tax_id t) /\ In t (Args.taxonomy a)
    /\ tax_id h' = Some (t_tax_id t) /\ accession h' = si_accession si
    /\ tax_name h' = t_tax_name t /\ rank h' = t_rank t
    /\ In r (Args.ranks a)
    /\ In k (ranks_from (rev (Args.ranks a)) r) /\ t_rank_ids t !! k = Some tid
    /\ assignment_tax_id h' = Some tid
    /\ In row (merge_rank_thresholds (Args.default_rank_thresholds a)
                 (Args.rank_thresholds a))
    /\ row.1 = t_tax_id t /\ assignment_threshold h' = cell row.2 r
    /\ flt (assignment_threshold h') (pident h') = true
    /\ ((assignment_tax_name h' = None /\ assignment_rank h' = None /\
         forall t', In t' (Args.taxonomy a) -> t_tax_id t' <> tid)
        \/ exists t', In t' (Args.taxonomy a) /\ t_tax_id t' = tid /\
             assignment_tax_name h' = t_tax_name t' /\ assignment_rank h' = t_rank t').
Proof. exact (classified_hit_inv a out h'). Qed.

Lemma classified_hits_provenance_witness :
  exists s, sseqid (hd (null_hit "") ex_classified) = Some s.
Proof.
  assert (Hc : classify_hits ex_run_args = Ok ex_classified)
    by (vm_compute; reflexivity).
  assert (Hin : In (hd (null_hit "") ex_classified) ex_classified)
    by (left; reflexivity).
  destruct (classified_hits_provenance ex_run_args ex_classified
              (hd (null_hit "") ex_classified) Hc Hin)
    as (s & si & t & r & k & tid & row & _ & Hs & _).
  exists s. exact Hs.
Defined.


(** ** Reads and clusters *)

Lemma Qsum_ones (l : list Q) :
  (forall x, In x l -> x = 1%Q) -> (Qsum l == inject_Z (Z.of_nat (length l)))%Q.
Proof.
  induction l as [|x l IH]; intros Hall.
  - reflexivity.
  - cbn [Qsum foldr length]. fold (Qsum l).
    rewrite (Hall x (or_introl eq_refl)), IH by (intros y Hy; apply Hall; now right).
    rewrite Nat2Z.inj_succ. unfold Z.succ. rewrite inject_Z_plus. ring.
Qed.

Lemma pyround_inject_Z (q : Q) (n : Z) :
  (0 <= n)%Z -> (q == inject_Z n)%Q -> pyround q = n.
Proof.
  intros Hn Hq. unfold pyround.
  assert (Hpos : Qle_bool 0 q = true).
  { apply Qle_bool_iff. rewrite Hq. change 0%Q with (inject_Z 0).
    now rewrite <- Zle_Qle. }
  rewrite Hpos, Hq. unfold Qplus, inject_Z, Qfloor. cbn [Qnum Qden].
  symmetry. apply (Z.div_unique _ _ n 1); lia.
Qed.

Lemma cluster_stats_unit_weights (a : Args.t) (blast_results : list hit)
    (c : string * option (string * Z) * Q) :
  Args.weights a = None -> In c (cluster_stats a blast_results) -> c.2 = 1%Q.
Proof.
  intros Hw Hc. unfold cluster_stats in Hc.
  apply (proj1 (unique_In _ _)) in Hc. apply in_flat_map in Hc as (h & _ & Hc).
  unfold query_weights in Hc. rewrite Hw in Hc.
  destruct Hc as [<-|[]]. reflexivity.
Qed.

(** X16: without a weights file every cluster counts as one read: in every
    row of the summary the column [reads] equals the column [clusters]. *)
Theorem reads_equal_clusters_without_weights
    (rt : runtime) (a : Args.t) (blast_results : list hit) (out : list out_row)
    (o : out_row) :
  Args.weights a = None ->
  summarize rt a blast_results = Ok out -> In o out ->
  o_reads o = o_clusters o /\ (0 <= o_clusters o)%Z.
Proof.
  intros Hw Hout Ho.
  apply summarize_Ok in Hout as (rows & Hrows & ->).
  apply sort_and_number_inv in Ho as (i & o0 & Ho0 & ->).
  unfold summary_rows in Hrows.
  apply bind_Ok in Hrows as (corrections & _ & Er).
  apply rmapM_Ok in Er.
  destruct (Forall2_In_r _ _ _ o0 Er Ho0) as (k & _ & Hk).
  apply bind_Ok in Hk as (rk & _ & Hk). injection Hk as <-.
  cbn [o_reads o_clusters set_assignment_id drop_assignment_hash].
  unfold group_clusters. split; [|lia].
  apply pyround_inject_Z; [lia|].
  unfold group_reads. rewrite <- (length_map snd). apply Qsum_ones.
  intros x Hx. apply in_map_iff in Hx as (c & <- & Hc).
  apply filter_In in Hc as [Hc _].
  now apply (cluster_stats_unit_weights a blast_results).
Qed.

Lemma reads_equal_clusters_without_weights_witness :
  o_reads (hd null_out_row ex_summary) = o_clusters (hd null_out_row ex_summary).
Proof.
  assert (Hs : summarize ex_runtime ex_plain_args
                 (label_hits ex_runtime ex_plain_args ex_selected ["q1"; "q2"])
               = Ok ex_summary) by (vm_compute; reflexivity).
  assert (Hin : In (hd null_out_row ex_summary) ex_summary) by (left; reflexivity).
  exact (proj1 (reads_equal_clusters_without_weights ex_runtime ex_plain_args
                  (label_hits ex_runtime ex_plain_args ex_selected ["q1"; "q2"])
                  ex_summary (hd null_out_row ex_summary) eq_refl Hs Hin)).
Defined.

(** ** The star of a group in the details *)

Lemma star_stage_In (a : Args.t) (df : list hit) (h' : hit) :
  In h' (star_stage a df) <->
  exists h k, In h df /\ star_key h = Some k /\
    h' = set_starred
           (existsb (fun x => fge x (Args.starred a))
                    (map pident (group_rows star_key (Some k) df))) h.
Proof.
  unfold star_stage. rewrite groupby_apply_In. unfold star. split.
  - intros (k & _ & H). apply in_map_iff in H as (h & <- & Hh).
    exists h, k. split; [now apply filter_In in Hh as [Hh _]|].
    split; [now apply group_rows_key in Hh|reflexivity].
  - intros (h & k & Hh & Hk & ->). exists k. split.
    + rewrite <- Hk. now apply in_map.
    + apply in_map. apply filter_In. split; [assumption|].
      now apply bool_decide_eq_true_2.
Qed.

Lemma assign_stage_fwd (rt : runtime) (a : Args.t) (df : list hit) (h : hit) :
  In h df -> is_Some (assignment_key h) ->
  exists l, In (set_assignment_label l h) (assign_stage rt a df).
Proof.
  intros Hh [k Hk]. unfold assign_stage. eexists. apply groupby_apply_In.
  exists k. split.
  - rewrite <- Hk. now apply in_map.
  - unfold assign. cbv zeta. apply in_map. apply filter_In. split; [assumption|].
    now apply bool_decide_eq_true_2.
Qed.

Lemma labelled_hits_sseqid (rt : runtime) (a : Args.t) (selected : list hit)
    (qseqids : list string) (row : hit) :
  In row (labelled_hits rt a selected qseqids) -> sseqid row <> None.
Proof.
  intros H. apply labelled_hits_inv in H as (h & c & n & b & l & _ & Hs & _ & ->).
  exact Hs.
Qed.

Lemma star_key_components (x y : hit) :
  is_Some (star_key x) ->
  (star_key x = star_key y <->
   specimen x = specimen y /\ assignment_hash x = assignment_hash y /\
   condensed_id x = condensed_id y).
Proof.
  unfold star_key. intros [k Hk]. split.
  - destruct (specimen x), (assignment_hash x), (condensed_id x); try discriminate.
    destruct (specimen y), (assignment_hash y), (condensed_id y); try discriminate.
    intros H. injection H as -> -> ->. auto.
  - intros (-> & -> & ->). reflexivity.
Qed.

Lemma star_flag_group_iff
    (rt : runtime) (a : Args.t) (selected : list hit) (qseqids : list string)
    (row : hit) :
  In row (label_hits rt a selected qseqids) -> sseqid row <> None ->
  (starred row = Some true <->
   exists row2, In row2 (label_hits rt a selected qseqids) /\ sseqid row2 <> None /\
     specimen row2 = specimen row /\ assignment_hash row2 = assignment_hash row /\
     condensed_id row2 = condensed_id row /\
     fge (pident row2) (Args.starred a) = true).
Proof.
  intros Hrow Hs.
  apply label_hits_In in Hrow as [[_ Hrow]|[Hnull _]]; [|congruence].
  rewrite label_hits_stages. unfold labelled_hits in *.
  set (C := condense_stage rt a _) in *.
  assert (HC : forall y, In y C -> sseqid y <> None).
  { intros y Hy. subst C. apply condense_stage_inv in Hy as (h & c & x & Hh & ->).
    apply (proj1 (sort_by_In _ _ _)) in Hh. apply filter_In in Hh as [_ Hnn].
    cbn. intros E. rewrite E in Hnn. discriminate Hnn. }
  clearbody C.
  apply assign_stage_inv in Hrow as (x & l & Hx & _ & ->).
  apply (proj1 (sort_by_In _ _ _)) in Hx.
  apply star_stage_In in Hx as (y & k & Hy & Hk & ->).
  cbn [starred specimen assignment_hash condensed_id set_assignment_label set_starred].
  split.
  - intros Hb. injection Hb as Hb.
    apply existsb_exists in Hb as (p & Hp & Hge).
    apply in_map_iff in Hp as (y2 & <- & Hy2).
    pose proof (group_rows_key _ _ _ _ Hy2) as Hk2. apply filter_In in Hy2 as [Hy2 _].
    assert (Hst : In (set_starred
                        (existsb (fun x => fge x (Args.starred a))
                                 (map pident (group_rows star_key (Some k) C))) y2)
                     (star_stage a C)).
    { apply star_stage_In. exists y2, k. auto. }
    apply (sort_by_In assignment_hash_le) in Hst.
    assert (Hcomp : specimen y2 = specimen y /\ assignment_hash y2 = assignment_hash y /\
                    condensed_id y2 = condensed_id y).
    { apply star_key_components; [rewrite Hk2; eauto|congruence]. }
    destruct (assign_stage_fwd rt a _ _ Hst) as [l2 Hl2].
    { unfold star_key in Hk2. unfold assignment_key. cbn.
      destruct (specimen y2), (assignment_hash y2); try discriminate; eauto. }
    eexists. split; [apply in_or_app; left; exact Hl2|].
    cbn. split; [now apply HC|].
    destruct Hcomp as (E1 & E2 & E3). auto.
  - intros (row2 & Hrow2 & Hs2 & E1 & E2 & E3 & Hge).
    apply in_app_or in Hrow2 as [Hrow2|Hrow2].
    + apply assign_stage_inv in Hrow2 as (x2 & l2 & Hx2 & _ & ->).
      apply (proj1 (sort_by_In _ _ _)) in Hx2.
      apply star_stage_In in Hx2 as (y2 & k2 & Hy2 & Hk2 & ->).
      cbn in E1, E2, E3, Hge.
      assert (Hkeys : star_key y2 = star_key y).
      { apply star_key_components; [rewrite Hk2; eauto|auto]. }
      f_equal. apply existsb_exists. exists (pident y2). split; [|assumption].
      apply in_map. apply filter_In. split; [assumption|].
      apply bool_decide_eq_true_2. congruence.
    + apply no_hits_inv in Hrow2 as (h & _ & Hnull & ->). now cbn in Hs2.
Qed.

(** X17: in the details a hit is starred exactly when some hit of its
    group, the rows with a reference sequence that have the same specimen,
    assignment_hash and condensed_id, has a percent identity of at least
    [--starred]. *)
Theorem star_flag_shared_by_group
    (rt : runtime) (a : Args.t) (selected : list hit) (qseqids : list string)
    (row : hit) :
  In row (label_hits rt a selected qseqids) -> sseqid row <> None ->
  (starred row = Some true <->
   exists row2, In row2 (label_hits rt a selected qseqids) /\ sseqid row2 <> None /\
     specimen row2 = specimen row /\ assignment_hash row2 = assignment_hash row /\
     condensed_id row2 = condensed_id row /\
     fge (pident row2) (Args.starred a) = true).
Proof. exact (star_flag_group_iff rt a selected qseqids row). Qed.

Lemma star_flag_shared_by_group_witness :
  ~ exists row2,
      In row2 (label_hits ex_runtime ex_plain_args ex_selected ["q1"; "q2"]) /\
      sseqid row2 <> None /\
      specimen row2
      = specimen (hd (null_hit "")
                     (label_hits ex_runtime ex_plain_args ex_selected ["q1"; "q2"])) /\
      assignment_hash row2
      = assignment_hash
          (hd (null_hit "")
              (label_hits ex_runtime ex_plain_args ex_selected ["q1"; "q2"])) /\
      condensed_id row2
      = condensed_id
          (hd (null_hit "")
              (label_hits ex_runtime ex_plain_args ex_selected ["q1"; "q2"])) /\
      fge (pident row2) (Args.starred ex_plain_args) = true.
Proof.
  assert (Hin : In (hd (null_hit "")
                       (label_hits ex_runtime ex_plain_args ex_selected ["q1"; "q2"]))
                   (label_hits ex_runtime ex_plain_args ex_selected ["q1"; "q2"]))
    by (vm_compute; left; reflexivity).
  assert (Hs : sseqid (hd (null_hit "")
                          (label_hits ex_runtime ex_plain_args ex_selected ["q1"; "q2"]))
               <> None)
    by (vm_compute; discriminate).
  intros Hex.
  apply (proj2 (star_flag_shared_by_group ex_runtime ex_plain_args ex_selected
                  ["q1"; "q2"] _ Hin Hs)) in Hex.
  vm_compute in Hex. discriminate Hex.
Defined.

(** ** No selected hit is lost *)

Lemma condense_stage_fwd (rt : runtime) (a : Args.t) (df : list hit) (h : hit) :
  (forall ids tax ranks n t, In t ids ->
     is_Some (sequtils_condense_ids rt ids tax ranks n !! t)) ->
  In h df -> is_Some (specimen h) -> is_Some (assignment_tax_id h) ->
  exists c n, In (set_condensed (Some c) (Some n) h) (condense_stage rt a df).
Proof.
  intros Htot Hh [sp Hsp] [t Ht]. unfold condense_stage.
  assert (Hk : specimen_query_key h = Some (sp, qseqid h)).
  { unfold specimen_query_key. now rewrite Hsp. }
  set (g := group_rows specimen_query_key (Some (sp, qseqid h)) df).
  assert (Hg : In h g).
  { apply filter_In. split; [assumption|]. now apply bool_decide_eq_true_2. }
  destruct (Htot (unique (omap assignment_tax_id g)) (Args.taxonomy a) (Args.ranks a)
              (Args.max_group_size a) t) as [c Hc].
  { apply (proj2 (unique_In _ _)). apply list_elem_of_In, list_elem_of_omap.
    exists h. split; [now apply list_elem_of_In|assumption]. }
  exists c. eexists. apply groupby_apply_In. exists (sp, qseqid h). split.
  - rewrite <- Hk. now apply in_map.
  - fold g. unfold condense_ids. cbv zeta. apply in_map_iff. exists h.
    split; [|assumption]. rewrite Ht. cbn [mbind option_bind]. rewrite Hc. reflexivity.
Qed.

Lemma selected_hit_labelled
    (rt : runtime) (a : Args.t) (selected : list hit) (qseqids : list string)
    (h : hit) (sp : string) :
  (forall ids tax ranks n t, In t ids ->
     is_Some (sequtils_condense_ids rt ids tax ranks n !! t)) ->
  In h selected -> sseqid h <> None -> assignment_tax_id h <> None ->
  In sp (specimens_of a (qseqid h)) ->
  exists row, In row (label_hits rt a selected qseqids) /\
    same_classified_columns row h /\ specimen row = Some sp /\
    is_Some (assignment row) /\ is_Some (assignment_hash row).
Proof.
  intros Htot Hh Hs Ht Hsp. rewrite label_hits_stages. unfold labelled_hits.
  assert (H0 : In (set_specimen sp h) (hits_and_queries a selected qseqids)).
  { unfold hits_and_queries. apply join_specimens_row; [|assumption].
    unfold join_qseqids. apply in_or_app. now left. }
  set (L := hits_and_queries a selected qseqids) in *. clearbody L.
  assert (H1 : In (set_specimen sp h)
                  (sort_by qseqid_le (List.filter (fun h => notnull (sseqid h)) L))).
  { apply (proj2 (sort_by_In _ _ _)), filter_In. split; [assumption|].
    cbn. destruct (sseqid h); [reflexivity|congruence]. }
  destruct (condense_stage_fwd rt a _ _ Htot H1) as (c & n & H2).
  { cbn. eauto. }
  { cbn. destruct (assignment_tax_id h); [eauto|congruence]. }
  set (C := condense_stage rt a _) in *. clearbody C.
  assert (H3 : exists b, In (set_starred b
                               (set_condensed (Some c) (Some n) (set_specimen sp h)))
                            (star_stage a C)).
  { eexists. apply star_stage_In. eexists _, (sp, n, c). split; [exact H2|].
    split; reflexivity. }
  destruct H3 as [b H3]. apply (proj2 (sort_by_In assignment_hash_le _ _)) in H3.
  destruct (assign_stage_fwd rt a _ _ H3) as [l H4].
  { unfold assignment_key. cbn. eauto. }
  eexists. split; [apply in_or_app; left; exact H4|].
  split; [apply same_classified_columns_stages|].
  split; [reflexivity|]. split; cbn; eauto.
Qed.

(** X18: when the condensing step keeps every tax_id it is given (the map
    returned by [sequtils.condense_ids] has a key for each of them), no
    selected hit is lost: for every specimen of its query the details hold a
    row with the columns of the hit, that specimen and an assignment. *)
Theorem selected_hits_all_labelled
    (rt : runtime) (a : Args.t) (selected : list hit) (qseqids : list string)
    (h : hit) (sp : string) :
  (forall ids tax ranks n t, In t ids ->
     is_Some (sequtils_condense_ids rt ids tax ranks n !! t)) ->
  In h selected -> sseqid h <> None -> assignment_tax_id h <> None ->
  In sp (specimens_of a (qseqid h)) ->
  exists row, In row (label_hits rt a selected qseqids) /\
    same_classified_columns row h /\ specimen row = Some sp /\
    is_Some (assignment row) /\ is_Some (assignment_hash row).
Proof. exact (selected_hit_labelled rt a selected qseqids h sp). Qed.

Lemma ex_runtime_condense_total (ids : list string) (tax : list taxon)
    (ranks : list string) (n : Z) (t : string) :
  In t ids -> is_Some (sequtils_condense_ids ex_runtime ids tax ranks n !! t).
Proof.
  intros Ht. cbn [sequtils_condense_ids ex_runtime].
  destruct (_ !! t) as [c|] eqn:E; [eauto|exfalso].
  apply not_elem_of_list_to_map in E. apply E.
  apply list_elem_of_fmap. exists (t, t). split; [reflexivity|].
  apply list_elem_of_In, in_map_iff. exists t. auto.
Qed.

Lemma selected_hits_all_labelled_witness :
  exists row, In row (label_hits ex_runtime ex_plain_args ex_selected ["q1"; "q2"]) /\
    same_classified_columns row (set_assignment (Some "S1") (Fin (97#1)) ex_species_hit) /\
    specimen row = Some "q1".
Proof.
  destruct (selected_hits_all_labelled ex_runtime ex_plain_args ex_selected ["q1"; "q2"]
              (set_assignment (Some "S1") (Fin (97#1)) ex_species_hit) "q1")
    as (row & Hin & Hcols & Hsp & _).
  - exact ex_runtime_condense_total.
  - left. reflexivity.
  - discriminate.
  - discriminate.
  - left. reflexivity.
  - exists row. exact (conj Hin (conj Hcols Hsp)).
Defined.

(** ** The groups of a table cover it *)

Lemma Permutation_filter_split {A : Type} (p : A -> bool) (l : list A) :
  Permutation l (List.filter p l ++ List.filter (fun x => negb (p x)) l).
Proof.
  induction l as [|x l IH]; [constructor|].
  cbn [List.filter]. destruct (p x); cbn [negb app].
  - now apply perm_skip.
  - now apply Permutation_cons_app.
Qed.

Lemma group_rows_cover {A K : Type} `{EqDecision K} (key : A -> K) (ks : list K)
    (l : list A) :
  List.NoDup ks -> (forall a, In a l -> In (key a) ks) ->
  Permutation (concat (map (fun k => group_rows key k l) ks)) l.
Proof.
  intros Hnd. revert l. induction Hnd as [|k ks Hk Hnd IH]; intros l Hcover.
  - destruct l as [|a l]; [constructor|]. destruct (Hcover a (or_introl eq_refl)).
  - cbn [map concat].
    set (rest := List.filter (fun a => negb (bool_decide (key a = k))) l).
    assert (Hsame : map (fun k' => group_rows key k' l) ks
                    = map (fun k' => group_rows key k' rest) ks).
    { apply map_ext_in. intros k' Hk'. unfold rest, group_rows.
      rewrite filter_filter_andb. apply List.filter_ext. intros a.
      destruct (decide (key a = k')) as [E|E].
      - rewrite (bool_decide_eq_true_2 _ E).
        rewrite bool_decide_eq_false_2; [reflexivity|]. congruence.
      - rewrite (bool_decide_eq_false_2 _ E). now rewrite andb_false_r. }
    rewrite Hsame.
    apply Permutation_trans with (group_rows key k l ++ rest).
    + apply Permutation_app_head. apply IH. intros a Ha.
      apply filter_In in Ha as [Ha Hne].
      destruct (Hcover a Ha) as [E|Hin]; [|assumption].
      rewrite bool_decide_eq_true_2 in Hne by (now symmetry). discriminate.
    + symmetry. apply Permutation_filter_split.
Qed.

Lemma groupby_cover {A K : Type} `{EqDecision K} (key : A -> K) (l : list A) :
  Permutation (concat (map snd (groupby key l))) l.
Proof.
  unfold groupby. rewrite map_map. cbn [snd].
  apply group_rows_cover; [apply unique_NoDup|].
  intros a Ha. apply (proj2 (unique_In _ _)). now apply in_map.
Qed.

Lemma sort_and_number_length (ties : out_row -> out_row -> bool) (copy_numbers : bool)
    (output : list out_row) :
  length (sort_and_number ties copy_numbers output) = length output.
Proof.
  unfold sort_and_number.
  set (sorted := sort_by (sort_index_le ties) _).
  assert (Hlen : forall G : list (string * list out_row),
            length (concat (map (fun g => assignment_id g.2) G))
            = length (concat (map snd G))).
  { induction G as [|g G IH]; [reflexivity|].
    cbn [map concat]. rewrite !length_app, IH. unfold assignment_id.
    now rewrite length_imap. }
  rewrite Hlen, (Permutation_length (groupby_cover o_specimen sorted)).
  unfold sorted.
  rewrite (Permutation_length (sort_by_Permutation _ _)), length_map.
  apply Permutation_length, sort_by_Permutation.
Qed.

(** X19: the summary has exactly one row for every (specimen,
    assignment_hash, assignment) of the details, no more and no less: the
    final sorts and groupings neither lose nor repeat a row.  Every row has
    lost its assignment_hash and received an assignment_id. *)
Theorem summary_has_one_row_per_assignment
    (rt : runtime) (a : Args.t) (blast_results : list hit) (out : list out_row) :
  summarize rt a blast_results = Ok out ->
  length out = length (summary_index blast_results)
  /\ (forall o, In o out ->
        (exists k, In k (summary_index blast_results) /\
           o_specimen o = k.1.1 /\ o_assignment o = k.2)
        /\ o_assignment_hash o = None /\ is_Some (o_assignment_id o))
  /\ (forall k, In k (summary_index blast_results) ->
        exists o, In o out /\ o_specimen o = k.1.1 /\ o_assignment o = k.2).
Proof.
  intros Hout. split; [|split].
  - apply summarize_Ok in Hout as (rows & Hrows & ->).
    rewrite sort_and_number_length.
    apply summary_rows_inv in Hrows. symmetry. exact (List.Forall2_length Hrows).
  - intros o Ho.
    apply summarize_Ok in Hout as (rows & Hrows & ->).
    apply sort_and_number_inv in Ho as (i & o0 & Ho0 & ->).
    apply summary_rows_inv in Hrows.
    destruct (Forall2_In_r _ _ _ o0 Hrows Ho0) as (k & Hk & Hs & _ & Hl & _).
    cbn [o_specimen o_assignment o_assignment_hash o_assignment_id set_assignment_id
         drop_assignment_hash].
    split; [exists k; auto|]. split; [reflexivity|eauto].
  - intros k Hk. exact (summarize_rows rt a blast_results out k Hout Hk).
Qed.

Lemma summary_has_one_row_per_assignment_witness :
  length ex_summary
  = length (summary_index
              (label_hits ex_runtime ex_plain_args ex_selected ["q1"; "q2"])).
Proof.
  apply (summary_has_one_row_per_assignment ex_runtime ex_plain_args
           (label_hits ex_runtime ex_plain_args ex_selected ["q1"; "q2"]) ex_summary).
  vm_compute. reflexivity.
Defined.

(** ** A run that completes *)

Lemma action_Ok (rt : runtime) (a : Args.t) (out : list out_row) (details : list hit) :
  action rt a = Ok (out, details) ->
  exists selected,
    classify_hits a = Ok selected
    /\ starred_hits rt a selected (unique (map qseqid (load_blast_results a))) <> []
    /\ details = label_hits rt a selected (unique (map qseqid (load_blast_results a)))
    /\ summarize rt a details = Ok out.
Proof.
  unfold action. cbv zeta. intros H.
  apply bind_Ok in H as (selected & Hsel & H).
  apply bind_Ok in H as (br & Hbr & H).
  apply bind_Ok in H as (output & Hout & H).
  injection H as <- <-.
  exists selected. split; [exact Hsel|].
  unfold label_details in Hbr.
  destruct (starred_hits rt a selected _) as [|x l] eqn:E; [discriminate Hbr|].
  injection Hbr as <-.
  split; [discriminate|]. split; [reflexivity|exact Hout].
Qed.

(** C5 (as the program has it): in a run that completes, every row of the
    summary is the row of a (specimen, assignment_hash) group of the details,
    and its target_rank is a most specific rank among the assignment ranks
    of the hits of that group: one of them, and none of them stands later in
    the root-first list of ranks; every group has such a row.  So does
    [target_rank] on every group that is not empty. *)
Theorem target_rank_most_specific_present
    (rt : runtime) (a : Args.t) (out : list out_row) (details : list hit) :
  action rt a = Ok (out, details) ->
  (forall o, In o out ->
     exists k, In k (summary_index details)
       /\ o_specimen o = k.1.1 /\ o_assignment o = k.2
       /\ most_specific_present (Args.ranks a)
            (map assignment_rank (assignment_group details k.1)) (o_target_rank o))
  /\ (forall k, In k (summary_index details) ->
        exists o, In o out /\ o_specimen o = k.1.1 /\ o_assignment o = k.2
          /\ most_specific_present (Args.ranks a)
               (map assignment_rank (assignment_group details k.1)) (o_target_rank o))
  /\ (forall s ranks, s <> [] ->
        exists x, target_rank s ranks = Ok x /\ most_specific_present ranks s x).
Proof.
  intros Hact.
  apply action_Ok in Hact as (selected & _ & _ & _ & Hsum).
  apply summarize_Ok in Hsum as (rows & Hrows & ->).
  apply summary_rows_inv in Hrows.
  split; [|split].
  - intros o Ho.
    apply sort_and_number_inv in Ho as (i & o0 & Ho0 & ->).
    destruct (Forall2_In_r _ _ _ o0 Hrows Ho0) as (k & Hk & Hs & _ & Hl & Hrk).
    exists k. cbn [o_specimen o_assignment o_target_rank set_assignment_id
                   drop_assignment_hash].
    split; [exact Hk|]. split; [exact Hs|]. split; [exact Hl|].
    exact (target_rank_greatest _ _ _ Hrk).
  - intros k Hk.
    destruct (Forall2_In_l _ _ _ k Hrows Hk) as (o0 & Ho0 & Hs & _ & Hl & Hrk).
    destruct (sort_and_number_In (sort_index_ties rt)
                (bool_decide (is_Some (Args.copy_numbers a))) rows o0 Ho0) as [i Hi].
    exists (set_assignment_id i (drop_assignment_hash o0)).
    cbn [o_specimen o_assignment o_target_rank set_assignment_id drop_assignment_hash].
    split; [exact Hi|]. split; [exact Hs|]. split; [exact Hl|].
    exact (target_rank_greatest _ _ _ Hrk).
  - intros s ranks Hs.
    destruct (target_rank_Ok s ranks Hs) as [x Hx].
    exists x. split; [exact Hx|]. exact (target_rank_greatest _ _ _ Hx).
Qed.

Lemma target_rank_most_specific_present_witness :
  exists k, In k (summary_index ex_two_ranks_details)
    /\ o_specimen (hd null_out_row ex_two_ranks_output) = k.1.1
    /\ o_assignment (hd null_out_row ex_two_ranks_output) = k.2
    /\ most_specific_present (Args.ranks ex_two_ranks_args)
         (map assignment_rank (assignment_group ex_two_ranks_details k.1))
         (o_target_rank (hd null_out_row ex_two_ranks_output)).
Proof.
  assert (Hact : action ex_runtime_star ex_two_ranks_args
                 = Ok (ex_two_ranks_output, ex_two_ranks_details))
    by (vm_compute; reflexivity).
  destruct (target_rank_most_specific_present ex_runtime_star ex_two_ranks_args
              ex_two_ranks_output ex_two_ranks_details Hact) as [Hrows _].
  apply Hrows. left. reflexivity.
Defined.

(** C5, counterexample: the run on a query with a hit of species S1 and a
    hit of genus G2 completes with one summary row; its group has the
    assignment ranks species and genus and the row reports species, which is
    not the least specific of the two. *)
Lemma target_rank_not_least_specific :
  action ex_runtime_star ex_two_ranks_args = Ok (ex_two_ranks_output, ex_two_ranks_details)
  /\ map (fun o => (o_specimen o, o_assignment o, o_target_rank o)) ex_two_ranks_output
     = [("q1", "S1;G2", Some "species")]
  /\ summary_index ex_two_ranks_details = [("q1", 11%Z, "S1;G2")]
  /\ map assignment_rank (assignment_group ex_two_ranks_details ("q1", 11%Z))
     = [Some "species"; Some "genus"]
  /\ ~ least_specific_present (Args.ranks ex_two_ranks_args)
         (map assignment_rank (assignment_group ex_two_ranks_details ("q1", 11%Z)))
         (Some "species").
Proof.
  split; [vm_compute; reflexivity|].
  split; [vm_compute; reflexivity|].
  split; [vm_compute; reflexivity|].
  split; [vm_compute; reflexivity|].
  intros [_ H].
  specialize (H (Some "genus")).
  assert (Hin : In (Some "genus")
                  (map assignment_rank
                     (assignment_group ex_two_ranks_details ("q1", 11%Z)))).
  { vm_compute. right. left. reflexivity. }
  specialize (H Hin). vm_compute in H. apply H. reflexivity.
Qed.

(** C6 (as the program has it): in a run that completes, when the sort of
    line 787 keeps the order of the rows of a specimen, the rows of a
    specimen in the output are the summary rows of that specimen, sorted by
    count descending, then clusters descending, then assignment label
    descending, and numbered 0, 1, 2, ... in that order. *)
Theorem output_sorted_and_numbered_per_specimen
    (rt : runtime) (a : Args.t) (out : list out_row) (details : list hit) (s : string) :
  keeps_order (sort_index_ties rt) ->
  action rt a = Ok (out, details) ->
  let copy_numbers := bool_decide (is_Some (Args.copy_numbers a)) in
  exists rows sorted,
    summary_rows rt a details = Ok rows
    /\ Permutation sorted (group_rows o_specimen s rows)
    /\ StronglySorted (fun x y => sort_columns_le copy_numbers x y = true) sorted
    /\ group_rows o_specimen s out
       = imap (fun i o => set_assignment_id i (drop_assignment_hash o)) sorted
    /\ (forall x y, sort_columns_le copy_numbers x y = true <->
          (count_column copy_numbers y < count_column copy_numbers x)%Z
          \/ (count_column copy_numbers x = count_column copy_numbers y /\
              ((o_clusters y < o_clusters x)%Z
               \/ (o_clusters x = o_clusters y /\
                   String.leb (o_assignment y) (o_assignment x) = true)))).
Proof.
  intros Hties Hact copy_numbers.
  apply action_Ok in Hact as (selected & _ & _ & _ & Hsum).
  apply summarize_Ok in Hsum as (rows & Hrows & ->).
  exists rows, (group_rows o_specimen s (sort_by (sort_columns_le copy_numbers) rows)).
  split; [exact Hrows|]. split; [|split; [|split]].
  - unfold group_rows. apply Permutation_filter_list, sort_by_Permutation.
  - unfold group_rows. apply StronglySorted_filter.
    apply sort_by_StronglySorted.
    + apply sort_columns_le_total.
    + apply sort_columns_le_trans.
  - apply sort_and_number_group. exact Hties.
  - apply sort_columns_le_spec.
Qed.

Lemma output_sorted_and_numbered_per_specimen_witness :
  exists rows sorted,
    summary_rows ex_runtime_star ex_tie_args ex_tie_details = Ok rows
    /\ Permutation sorted (group_rows o_specimen "s" rows)
    /\ StronglySorted (fun x y => sort_columns_le false x y = true) sorted
    /\ group_rows o_specimen "s" ex_tie_output
       = imap (fun i o => set_assignment_id i (drop_assignment_hash o)) sorted
    /\ (forall x y, sort_columns_le false x y = true <->
          (count_column false y < count_column false x)%Z
          \/ (count_column false x = count_column false y /\
              ((o_clusters y < o_clusters x)%Z
               \/ (o_clusters x = o_clusters y /\
                   String.leb (o_assignment y) (o_assignment x) = true)))).
Proof.
  apply (output_sorted_and_numbered_per_specimen ex_runtime_star ex_tie_args
           ex_tie_output ex_tie_details "s").
  - intros x y _. reflexivity.
  - vm_compute. reflexivity.
Defined.

(** C6, counterexample: two queries of specimen s, one with a hit of
    species S1 and one with a hit of species S2.  The run completes with an
    order-keeping sort; the two summary rows tie on reads and on clusters,
    the row of S2 comes first and gets assignment_id 0, the row of S1 gets
    1: the labels descend. *)
Lemma tie_on_counts_orders_label_descending :
  keeps_order (sort_index_ties ex_runtime_star)
  /\ action ex_runtime_star ex_tie_args = Ok (ex_tie_output, ex_tie_details)
  /\ map (fun o => (o_specimen o, o_reads o, o_clusters o, o_assignment o,
                    o_assignment_id o)) ex_tie_output
     = [("s", 1%Z, 1%Z, "S2", Some 0%nat); ("s", 1%Z, 1%Z, "S1", Some 1%nat)]
  /\ ~ StronglySorted (fun x y => label_ascending_le false x y = true)
         (group_rows o_specimen "s" ex_tie_output).
Proof.
  split; [intros x y _; reflexivity|].
  split; [vm_compute; reflexivity|].
  split; [vm_compute; reflexivity|].
  intros H. vm_compute in H.
  apply StronglySorted_inv in H as [_ H].
  apply Forall_inv in H. discriminate H.
Qed.

(** With a sort of line 787 that does not keep the order of the rows of a
    specimen the counts need not descend: on three queries of specimen s,
    two of species S1 and one of species S2, a sort that reverses the rows
    puts the row with one read before the row with two. *)
Lemma reversing_sort_index_breaks_count_order :
  ~ keeps_order (sort_index_ties ex_runtime_reversing)
  /\ run_output (action ex_runtime_reversing ex_counts_args) = ex_counts_output
  /\ map (fun o => (o_specimen o, o_reads o, o_assignment o, o_assignment_id o))
         ex_counts_output
     = [("s", 1%Z, "S2", Some 0%nat); ("s", 2%Z, "S1", Some 1%nat)].
Proof.
  split; [|split; vm_compute; reflexivity].
  intros H. specialize (H null_out_row null_out_row eq_refl). discriminate H.
Qed.

(** C9 (as the program has it): in a run that completes, a query of the
    input of which no hit is selected has, for every specimen it is given, a
    row with the label '[no blast result]' and assignment_hash 0 in the
    details, and the summary has a row of that specimen with that label.  A
    query is given a specimen unless a specimen map is supplied that does
    not list it. *)
Theorem query_without_hit_gets_sentinel_row
    (rt : runtime) (a : Args.t) (out : list out_row) (details selected : list hit)
    (q sp : string) :
  action rt a = Ok (out, details) ->
  classify_hits a = Ok selected ->
  In q (map qseqid (load_blast_results a)) ->
  (forall h, In h selected -> qseqid h <> q) ->
  In sp (specimens_of a q) ->
  (exists row, In row details /\ qseqid row = q /\ specimen row = Some sp /\
     sseqid row = None /\ assignment row = Some "[no blast result]" /\
     assignment_hash row = Some 0%Z)
  /\ (exists o, In o out /\ o_specimen o = sp /\ o_assignment o = "[no blast result]")
  /\ (specimens_of a q <> [] <->
      match Args.specimen_map a with
      | Some spec_map => In q (map fst spec_map)
      | None => True
      end).
Proof.
  intros Hact Hsel Hq Hno Hsp.
  apply action_Ok in Hact as (selected' & Hsel' & _ & Hdetails & Hsum).
  rewrite Hsel in Hsel'. injection Hsel' as <-.
  set (row := set_assignment_hash 0
                (set_assignment_label "[no blast result]" (set_specimen sp (null_hit q)))).
  assert (Hrow : In row details).
  { rewrite Hdetails. unfold label_hits. apply in_or_app. right.
    apply no_hits_row; [|reflexivity].
    apply join_specimens_row; [|exact Hsp].
    apply join_qseqids_null_row; [|exact Hno].
    apply (proj2 (unique_In _ _)). exact Hq. }
  clear Hdetails.
  split; [|split].
  - exists row. split; [exact Hrow|]. repeat split.
  - assert (Hidx : In (sp, 0%Z, "[no blast result]") (summary_index details)).
    { apply (summary_index_In details row); [exact Hrow|reflexivity..]. }
    destruct (summarize_rows rt a details out _ Hsum Hidx) as (o & Ho & Hs & Hl).
    exists o. split; [exact Ho|]. split; [exact Hs|exact Hl].
  - apply specimens_of_nonempty.
Qed.

Lemma query_without_hit_gets_sentinel_row_witness :
  (exists row, In row ex_no_hit_details /\ qseqid row = "q2" /\
     specimen row = Some "q2" /\ sseqid row = None /\
     assignment row = Some "[no blast result]" /\ assignment_hash row = Some 0%Z)
  /\ (exists o, In o ex_no_hit_output /\ o_specimen o = "q2" /\
        o_assignment o = "[no blast result]")
  /\ (specimens_of ex_no_hit_args "q2" <> [] <->
      match Args.specimen_map ex_no_hit_args with
      | Some spec_map => In "q2" (map fst spec_map)
      | None => True
      end).
Proof.
  apply (query_without_hit_gets_sentinel_row ex_runtime_star ex_no_hit_args
           ex_no_hit_output ex_no_hit_details ex_no_hit_selected "q2" "q2").
  - vm_compute. reflexivity.
  - vm_compute. reflexivity.
  - vm_compute. right. left. reflexivity.
  - intros h Hh. vm_compute in Hh. destruct Hh as [<-|[]]. discriminate.
  - vm_compute. left. reflexivity.
Defined.

(** C9, counterexample: query q1 has a hit, query q2 has none, and the
    specimen map lists q1 only.  The run completes, no hit of q2 is
    selected, and the inner join with the specimens drops q2: neither the
    details nor the summary have a row for it. *)
Lemma query_absent_from_specimen_map_not_reported :
  action ex_runtime_star ex_unmapped_args = Ok (ex_unmapped_output, ex_unmapped_details)
  /\ In "q2" (map qseqid (load_blast_results ex_unmapped_args))
  /\ map qseqid ex_unmapped_details = ["q1"]
  /\ map o_assignment ex_unmapped_output = ["S1"]
  /\ ~ every_query_without_hit_reported ex_runtime_star ex_unmapped_args.
Proof.
  split; [vm_compute; reflexivity|].
  split; [vm_compute; right; left; reflexivity|].
  split; [vm_compute; reflexivity|].
  split; [vm_compute; reflexivity|].
  intros (output & details & selected & Hact & Hsel & H).
  assert (Hact' : action ex_runtime_star ex_unmapped_args
                  = Ok (ex_unmapped_output, ex_unmapped_details))
    by (vm_compute; reflexivity).
  rewrite Hact' in Hact. injection Hact as <- <-.
  assert (Hsel' : classify_hits ex_unmapped_args = Ok ex_no_hit_selected)
    by (vm_compute; reflexivity).
  rewrite Hsel' in Hsel. injection Hsel as <-.
  destruct (H "q2") as (row & Hrow & Hq & _).
  - vm_compute. right. left. reflexivity.
  - intros h Hh. vm_compute in Hh. destruct Hh as [<-|[]]. discriminate.
  - vm_compute in Hrow. destruct Hrow as [<-|[]]. discriminate Hq.
Qed.

(** ** The groups of the starring step in the details *)

Lemma star_group_In (details : list hit) (row h : hit) :
  In h (star_group details row) <->
  In h details /\ sseqid h <> None /\ star_key h = star_key row.
Proof.
  unfold star_group. rewrite filter_In, andb_true_iff, bool_decide_eq_true.
  unfold notnull. destruct (sseqid h); cbn [isnull negb]; intuition congruence.
Qed.

Lemma labelled_row_star_key (rt : runtime) (a : Args.t) (selected : list hit)
    (qseqids : list string) (row : hit) :
  In row (label_hits rt a selected qseqids) -> sseqid row <> None ->
  is_Some (star_key row) /\ exists b, starred row = Some b.
Proof.
  intros Hrow Hs.
  destruct (label_hits_In _ _ _ _ _ Hrow) as [[_ Hin]|[Hnone _]]; [|congruence].
  apply labelled_hits_inv in Hin as (h & c & n & b & l & _ & _ & [sp Hsp] & ->).
  split; [|exists b; reflexivity].
  unfold star_key.
  cbn [specimen assignment_hash condensed_id set_assignment_label set_starred
       set_condensed].
  rewrite Hsp. eauto.
Qed.

(** C7: in the details, the hits of a (specimen, assignment_hash,
    condensed_id) group all carry the same starred flag, and the flag is
    true exactly when some hit of the group has [pident] greater than or
    equal to the star threshold, that is, when the maximum of [pident] over
    the group reaches it; a hit with [pident] equal to the threshold makes
    the flag true. *)
Theorem star_iff_some_hit_reaches_threshold
    (rt : runtime) (a : Args.t) (selected : list hit) (qseqids : list string)
    (row : hit) :
  In row (label_hits rt a selected qseqids) -> sseqid row <> None ->
  (starred row = Some true <->
   exists h, In h (star_group (label_hits rt a selected qseqids) row) /\
             fge (pident h) (Args.starred a) = true)
  /\ (starred row = Some true <->
      fge (column_max (map pident (star_group (label_hits rt a selected qseqids) row)))
          (Args.starred a) = true)
  /\ (starred row = Some true \/ starred row = Some false)
  /\ ((exists h, In h (star_group (label_hits rt a selected qseqids) row) /\
                 feq (pident h) (Args.starred a) = true) ->
      starred row = Some true)
  /\ (forall h, In h (star_group (label_hits rt a selected qseqids) row) ->
        starred h = starred row)
  /\ In row (star_group (label_hits rt a selected qseqids) row).
Proof.
  intros Hrow Hs.
  set (details := label_hits rt a selected qseqids) in *.
  assert (Hkeys : forall x y, In x details -> sseqid x <> None ->
            (star_key x = star_key y <->
             specimen x = specimen y /\ assignment_hash x = assignment_hash y /\
             condensed_id x = condensed_id y)).
  { intros x y Hx Hxs. apply star_key_components.
    exact (proj1 (labelled_row_star_key rt a selected qseqids x Hx Hxs)). }
  assert (Hbool : forall x, In x details -> sseqid x <> None ->
            exists b, starred x = Some b).
  { intros x Hx Hxs.
    exact (proj2 (labelled_row_star_key rt a selected qseqids x Hx Hxs)). }
  assert (Hiff0 : forall x, In x details -> sseqid x <> None ->
            (starred x = Some true <->
             exists row2, In row2 details /\ sseqid row2 <> None /\
               specimen row2 = specimen x /\ assignment_hash row2 = assignment_hash x /\
               condensed_id row2 = condensed_id x /\
               fge (pident row2) (Args.starred a) = true)).
  { intros x Hx Hxs. exact (star_flag_group_iff rt a selected qseqids x Hx Hxs). }
  clearbody details.
  assert (Hgroup : forall x, In x details -> sseqid x <> None ->
            (starred x = Some true <->
             exists h, In h (star_group details x) /\
                       fge (pident h) (Args.starred a) = true)).
  { intros x Hx Hxs. rewrite (Hiff0 x Hx Hxs). split.
    - intros (h & Hh & Hhs & H1 & H2 & H3 & Hge). exists h. split; [|exact Hge].
      apply star_group_In. split; [exact Hh|]. split; [exact Hhs|].
      apply (Hkeys h x Hh Hhs). exact (conj H1 (conj H2 H3)).
    - intros (h & Hh & Hge). apply star_group_In in Hh as (Hh & Hhs & Hk).
      apply (Hkeys h x Hh Hhs) in Hk as (H1 & H2 & H3).
      exists h. exact (conj Hh (conj Hhs (conj H1 (conj H2 (conj H3 Hge))))). }
  assert (Hflag : starred row = Some true <->
            exists h, In h (star_group details row) /\
                      fge (pident h) (Args.starred a) = true)
    by exact (Hgroup row Hrow Hs).
  split; [exact Hflag|]. split; [|split; [|split; [|split]]].
  - rewrite Hflag, <- any_fge_column_max, existsb_exists. split.
    + intros (h & Hh & Hge). exists (pident h). split; [|exact Hge].
      apply in_map. exact Hh.
    + intros (x & Hx & Hge). apply in_map_iff in Hx as (h & <- & Hh).
      exists h. exact (conj Hh Hge).
  - destruct (Hbool row Hrow Hs) as [[|] Hb]; [left|right]; exact Hb.
  - intros (h & Hh & Heq). apply Hflag. exists h. split; [exact Hh|].
    apply feq_fge. exact Heq.
  - intros h Hh.
    assert (Hsame : forall x, In x (star_group details h) <-> In x (star_group details row)).
    { intros x. rewrite !star_group_In.
      apply star_group_In in Hh as (_ & _ & Hk). rewrite Hk. reflexivity. }
    apply star_group_In in Hh as (Hh & Hhs & Hk).
    destruct (Hbool h Hh Hhs) as [b1 Hb1].
    destruct (Hbool row Hrow Hs) as [b2 Hb2].
    pose proof (Hgroup h Hh Hhs) as Hfh.
    assert (Hiff : starred h = Some true <-> starred row = Some true).
    { rewrite Hfh, Hflag. split; intros (x & Hx & Hge); exists x;
        (split; [apply Hsame; exact Hx|exact Hge]). }
    rewrite Hb1, Hb2 in *.
    destruct b1, b2; try reflexivity.
    + symmetry. apply Hiff. reflexivity.
    + apply Hiff. reflexivity.
  - apply star_group_In. split; [exact Hrow|]. split; [exact Hs|reflexivity].
Qed.

Lemma star_iff_some_hit_reaches_threshold_witness :
  starred (hd (null_hit "") ex_star_details) = Some true
  /\ feq (pident (hd (null_hit "") ex_star_details)) (Args.starred ex_star_args) = true.
Proof.
  assert (Hin : In (hd (null_hit "") ex_star_details)
                   (label_hits ex_runtime_star ex_star_args ex_star_selected ["q1"; "q2"])).
  { vm_compute. left. reflexivity. }
  assert (Hs : sseqid (hd (null_hit "") ex_star_details) <> None).
  { vm_compute. discriminate. }
  destruct (star_iff_some_hit_reaches_threshold ex_runtime_star ex_star_args
              ex_star_selected ["q1"; "q2"] (hd (null_hit "") ex_star_details) Hin Hs)
    as (_ & _ & _ & Hb & _ & Hself).
  split; [|vm_compute; reflexivity].
  apply Hb. exists (hd (null_hit "") ex_star_details).
  split; [exact Hself|vm_compute; reflexivity].
Defined.

(** ** The hash of a group in the details *)

Lemma condense_stage_hash_value (rt : runtime) (a : Args.t) (df : list hit) (h : hit)
    (n : Z) :
  In h (condense_stage rt a df) -> assignment_hash h = Some n ->
  exists sp, specimen h = Some sp /\
    n = hash_frozenset rt
          (condensed_id_set (group_condensed rt a df (sp, qseqid h))).
Proof.
  unfold condense_stage. intros H E.
  apply groupby_apply_In in H as (k & _ & H).
  assert (K : specimen_query_key h = Some k).
  { destruct (condense_ids_inv _ _ _ _ _ _ H) as (h0 & c & x & Hh & ->).
    apply group_rows_key in Hh. exact Hh. }
  rewrite (condense_ids_hash _ _ _ _ _ _ _ H E).
  unfold specimen_query_key in K.
  destruct (specimen h) as [sp|]; [|discriminate K].
  injection K as <-. exists sp. split; reflexivity.
Qed.

Lemma labelled_hits_hash (rt : runtime) (a : Args.t) (selected : list hit)
    (qseqids : list string) (row : hit) (sp : string) :
  In row (labelled_hits rt a selected qseqids) -> specimen row = Some sp ->
  assignment_hash row
  = Some (hash_frozenset rt
            (condensed_id_set
               (group_condensed rt a (specimen_hits a selected qseqids)
                  (sp, qseqid row)))).
Proof.
  unfold labelled_hits. fold (specimen_hits a selected qseqids).
  intros Hrow Hsp.
  apply assign_stage_inv in Hrow as (h1 & l & Hh1 & _ & ->).
  apply (proj1 (sort_by_In _ _ _)) in Hh1.
  apply star_stage_inv in Hh1 as (h2 & b & Hh2 & Hkey & ->).
  cbn [specimen assignment_hash qseqid set_assignment_label set_starred] in Hsp |- *.
  destruct Hkey as [k Hk]. unfold star_key in Hk.
  destruct (assignment_hash h2) as [n|] eqn:En;
    [|destruct (specimen h2); discriminate Hk].
  destruct (condense_stage_hash_value rt a _ h2 n Hh2 En) as (sp' & Hsp' & ->).
  rewrite Hsp in Hsp'. injection Hsp' as <-. reflexivity.
Qed.

(** C4 (as the program has it): in the details the assignment_hash of a hit
    is the hash of the set of the condensed ids of its group of specimen and
    query.  So two groups whose sets of condensed ids are equal have the
    same assignment_hash, whatever the order and the multiplicity of the
    ids, and when they belong to the same specimen they carry the same
    assignment label.  The converse, and the same label across specimens,
    are not claimed. *)
Theorem equal_condensed_sets_equal_hash
    (rt : runtime) (a : Args.t) (selected : list hit) (qseqids : list string)
    (row1 row2 : hit) (sp1 sp2 : string) :
  In row1 (label_hits rt a selected qseqids) ->
  In row2 (label_hits rt a selected qseqids) ->
  sseqid row1 <> None -> sseqid row2 <> None ->
  specimen row1 = Some sp1 -> specimen row2 = Some sp2 ->
  condensed_id_set
    (group_condensed rt a (specimen_hits a selected qseqids) (sp1, qseqid row1))
  = condensed_id_set
      (group_condensed rt a (specimen_hits a selected qseqids) (sp2, qseqid row2)) ->
  assignment_hash row1 = assignment_hash row2
  /\ assignment_hash row1
     = Some (hash_frozenset rt
               (condensed_id_set
                  (group_condensed rt a (specimen_hits a selected qseqids)
                     (sp1, qseqid row1))))
  /\ (sp1 = sp2 -> assignment row1 = assignment row2)
  /\ (forall ids1 ids2, (forall x, In x ids1 <-> In x ids2) ->
        hash_of_ids (hash_frozenset rt) ids1 = hash_of_ids (hash_frozenset rt) ids2).
Proof.
  intros H1 H2 Hs1 Hs2 Hsp1 Hsp2 Hset.
  destruct (label_hits_In _ _ _ _ _ H1) as [[_ Hl1]|[Hn _]]; [|congruence].
  destruct (label_hits_In _ _ _ _ _ H2) as [[_ Hl2]|[Hn _]]; [|congruence].
  clear H1 H2.
  pose proof (labelled_hits_hash rt a selected qseqids row1 sp1 Hl1 Hsp1) as E1.
  pose proof (labelled_hits_hash rt a selected qseqids row2 sp2 Hl2 Hsp2) as E2.
  assert (Hhash : assignment_hash row1 = assignment_hash row2).
  { rewrite E1, E2, Hset. reflexivity. }
  split; [exact Hhash|]. split; [exact E1|]. split.
  - intros <-.
    apply (assign_stage_label rt a _ row1 row2 Hl1 Hl2).
    unfold assignment_key. rewrite Hsp1, Hsp2, Hhash. reflexivity.
  - intros ids1 ids2 H. unfold hash_of_ids. rewrite (ids_set_eq ids1 ids2 H).
    reflexivity.
Qed.

Lemma equal_condensed_sets_equal_hash_witness :
  map sseqid
      (group_rows specimen_query_key (Some ("s", "q1"))
         (specimen_hits ex_same_set_args ex_same_set_selected ["q1"; "q2"]))
  = [Some "sA"; Some "sD"]
  /\ map sseqid
       (group_rows specimen_query_key (Some ("s", "q2"))
          (specimen_hits ex_same_set_args ex_same_set_selected ["q1"; "q2"]))
     = [Some "sA"]
  /\ assignment_hash (nth 0 ex_same_set_details (null_hit ""))
     = assignment_hash (nth 2 ex_same_set_details (null_hit ""))
  /\ assignment (nth 0 ex_same_set_details (null_hit ""))
     = assignment (nth 2 ex_same_set_details (null_hit "")).
Proof.
  split; [vm_compute; reflexivity|].
  split; [vm_compute; reflexivity|].
  assert (H1 : In (nth 0 ex_same_set_details (null_hit ""))
                  (label_hits ex_runtime_star ex_same_set_args ex_same_set_selected
                     ["q1"; "q2"])).
  { vm_compute. left. reflexivity. }
  assert (H2 : In (nth 2 ex_same_set_details (null_hit ""))
                  (label_hits ex_runtime_star ex_same_set_args ex_same_set_selected
                     ["q1"; "q2"])).
  { vm_compute. right. right. left. reflexivity. }
  assert (Hs1 : sseqid (nth 0 ex_same_set_details (null_hit "")) <> None).
  { vm_compute. discriminate. }
  assert (Hs2 : sseqid (nth 2 ex_same_set_details (null_hit "")) <> None).
  { vm_compute. discriminate. }
  assert (Hsp1 : specimen (nth 0 ex_same_set_details (null_hit "")) = Some "s").
  { vm_compute. reflexivity. }
  assert (Hsp2 : specimen (nth 2 ex_same_set_details (null_hit "")) = Some "s").
  { vm_compute. reflexivity. }
  assert (Hset :
    condensed_id_set
      (group_condensed ex_runtime_star ex_same_set_args
         (specimen_hits ex_same_set_args ex_same_set_selected ["q1"; "q2"])
         ("s", qseqid (nth 0 ex_same_set_details (null_hit ""))))
    = condensed_id_set
        (group_condensed ex_runtime_star ex_same_set_args
           (specimen_hits ex_same_set_args ex_same_set_selected ["q1"; "q2"])
           ("s", qseqid (nth 2 ex_same_set_details (null_hit ""))))).
  { vm_compute. reflexivity. }
  destruct (equal_condensed_sets_equal_hash ex_runtime_star ex_same_set_args
              ex_same_set_selected ["q1"; "q2"]
              (nth 0 ex_same_set_details (null_hit ""))
              (nth 2 ex_same_set_details (null_hit "")) "s" "s"
              H1 H2 Hs1 Hs2 Hsp1 Hsp2 Hset) as (Hh & _ & Hl & _).
  split; [exact Hh|exact (Hl eq_refl)].
Defined.

(** C4, counterexample.  First, no hash with values in a bounded range of
    integers is equal on two lists of condensed ids only when their sets are
    equal.  Second, queries q1 and q2, each a specimen of its own, hit the
    same reference sequence, q1 at the star threshold and q2 below it: the
    run completes, the two groups have the same set of condensed ids and the
    same assignment_hash, and the labels differ, since the star is given
    per specimen. *)
Lemma equal_set_groups_differ_in_label :
  (~ exists hash : gset string -> Z,
       machine_hash hash /\
       forall ids1 ids2,
         hash_of_ids hash ids1 = hash_of_ids hash ids2 <->
         (forall x, In x ids1 <-> In x ids2))
  /\ action ex_runtime_star ex_star_args = Ok (ex_star_output, ex_star_details)
  /\ classify_hits ex_star_args = Ok ex_star_selected
  /\ condensed_id_set
       (group_condensed ex_runtime_star ex_star_args
          (specimen_hits ex_star_args ex_star_selected ["q1"; "q2"]) ("q1", "q1"))
     = condensed_id_set
         (group_condensed ex_runtime_star ex_star_args
            (specimen_hits ex_star_args ex_star_selected ["q1"; "q2"]) ("q2", "q2"))
  /\ map (fun h => (specimen h, qseqid h, assignment_hash h, assignment h))
         ex_star_details
     = [(Some "q1", "q1", Some 11%Z, Some "S1*");
        (Some "q2", "q2", Some 11%Z, Some "S1")]
  /\ map o_assignment ex_star_output = ["S1*"; "S1"].
Proof.
  split; [exact bounded_hash_not_injective|].
  repeat split; vm_compute; reflexivity.
Qed.

(** ** The errors of a run *)

Lemma select_valid_hits_Raise (df : list hit) (ranks : list string) (e : exn) :
  select_valid_hits df ranks = Raise e -> e = IndexError.
Proof.
  unfold select_valid_hits. rewrite select_loop_find.
  destruct (List.find (selectable df) ranks) as [r|] eqn:Ef; [|discriminate].
  apply find_first in Ef as (pre0 & post0 & Hranks & _ & _).
  assert (Hr : In r ranks) by (rewrite Hranks; apply in_elt).
  clear Hranks. apply index_In in Hr as (pre & rest & -> & Hn).
  rewrite assign_at_resolved.
  destruct (rmapM (resolved_tax_id (valid_hits df r) r (pre ++ r :: rest))
                  (valid_hits df r)) as [ts|e'] eqn:Em; [discriminate|].
  intros H. injection H as ->.
  apply rmapM_Raise_inv in Em as (h & _ & Hh).
  destruct (resolved_tax_id_Ok_or_IndexError (valid_hits df r) r pre rest h Hn)
    as [[b Hb]|Hb]; congruence.
Qed.

Lemma select_groups_Raise (blast_results : list hit) (ranks : list string) (e : exn) :
  select_groups blast_results ranks = Raise e -> e = IndexError.
Proof.
  unfold select_groups. cbv zeta. intros Em.
  apply rmapM_Raise_inv in Em as (g & _ & Hg).
  now apply select_valid_hits_Raise in Hg.
Qed.

Lemma classify_hits_Raise (a : Args.t) (e : exn) :
  classify_hits a = Raise e ->
  (e = IndexError /\ select_groups (joined_hits a) (Args.ranks a) = Raise IndexError)
  \/ (e = ZeroDivisionError /\ joined_hits a = [])
  \/ (((e = ValueError /\ Args.ranks a <> []) \/ (e = KeyError /\ Args.ranks a = []))
      /\ joined_hits a <> []
      /\ exists groups, select_groups (joined_hits a) (Args.ranks a) = Ok groups
           /\ forall g, In g groups -> g = None).
Proof.
  unfold classify_hits. cbv zeta.
  destruct (select_groups (joined_hits a) (Args.ranks a)) as [groups|e0] eqn:Es.
  - rewrite bind_Ok_l.
    destruct (bool_decide (length (joined_hits a) = 0%nat)) eqn:Elen.
    + intros H. injection H as <-. right. left. split; [reflexivity|].
      apply bool_decide_eq_true_1 in Elen.
      destruct (joined_hits a); [reflexivity|discriminate Elen].
    + apply bool_decide_eq_false_1 in Elen.
      destruct (forallb isnull groups) eqn:Enull; [|discriminate].
      intros H. right. right.
      assert (Hg : forall g, In g groups -> g = None).
      { intros g Hin. rewrite forallb_forall in Enull. specialize (Enull g Hin).
        destruct g; [discriminate Enull|reflexivity]. }
      assert (Hne : joined_hits a <> []).
      { intros E. rewrite E in Elen. apply Elen. reflexivity. }
      destruct (Args.ranks a) as [|r0 more]; injection H as <-.
      * split; [right; split; reflexivity|]. split; [exact Hne|].
        exists groups. split; [reflexivity|exact Hg].
      * split; [left; split; [reflexivity|discriminate]|]. split; [exact Hne|].
        exists groups. split; [reflexivity|exact Hg].
  - intros H. injection H as <-.
    apply select_groups_Raise in Es. subst e0. left. split; reflexivity.
Qed.

(** X14: a run on tables that have been read fails in five ways only, the
    copy numbers being positive.  IndexError, when the selection of the
    hits raises it (a valid hit without any tax_id from the selected rank
    on).  ZeroDivisionError, when no hit is left after the joins with the
    sequence information and the taxonomy (the percentage of the log line
    of line 634).  ValueError (KeyError with an empty list of ranks), when
    there are hits and the selector returns None for every query (the
    column drop of line 638 on a table without columns).  KeyError, when
    hits are classified but none has a specimen and a condensed id (lines
    702 and 706).  KeyError, when the hits are labelled and the copy number
    table has no row for tax_id 1.  The ValueError of [ranks.index(r)] in
    [find_tax_id] cannot occur: the rank handed to it is always one of the
    list. *)
Theorem action_fails_in_five_ways (rt : runtime) (a : Args.t) (e : exn) :
  positive_copy_numbers a ->
  action rt a = Raise e ->
  (e = IndexError /\ select_groups (joined_hits a) (Args.ranks a) = Raise IndexError)
  \/ (e = ZeroDivisionError /\ joined_hits a = [])
  \/ (((e = ValueError /\ Args.ranks a <> []) \/ (e = KeyError /\ Args.ranks a = []))
      /\ joined_hits a <> []
      /\ exists groups, select_groups (joined_hits a) (Args.ranks a) = Ok groups
           /\ forall g, In g groups -> g = None)
  \/ (e = KeyError /\
      exists selected, classify_hits a = Ok selected /\
        starred_hits rt a selected (unique (map qseqid (load_blast_results a))) = [])
  \/ (e = KeyError /\ (exists selected, classify_hits a = Ok selected) /\
      exists cn, Args.copy_numbers a = Some cn /\ group_rows fst "1" cn = []).
Proof.
  intros _. unfold action. cbv zeta.
  destruct (classify_hits a) as [selected|e0] eqn:Ec.
  - rewrite bind_Ok_l. unfold label_details.
    destruct (starred_hits rt a selected _) as [|x l] eqn:Est.
    + intros H. injection H as <-. right. right. right. left.
      split; [reflexivity|]. exists selected. split; [reflexivity|exact Est].
    + rewrite bind_Ok_l.
      set (blast_results := label_hits _ _ _ _). clearbody blast_results.
      destruct (summarize rt a blast_results) as [out|e1] eqn:Es; [discriminate|].
      intros H. injection H as ->.
      apply summarize_Raise in Es as [-> Hcn].
      right. right. right. right.
      split; [reflexivity|]. split; [exists selected; reflexivity|exact Hcn].
  - intros H. injection H as ->.
    apply classify_hits_Raise in Ec.
    destruct Ec as [Hc|[Hc|Hc]].
    + left. exact Hc.
    + right. left. exact Hc.
    + right. right. left. exact Hc.
Qed.

Lemma action_fails_in_five_ways_witness :
  action ex_runtime ex_args = Raise ZeroDivisionError /\ joined_hits ex_args = [].
Proof.
  assert (Hact : action ex_runtime ex_args = Raise ZeroDivisionError)
    by (vm_compute; reflexivity).
  split; [exact Hact|].
  destruct (action_fails_in_five_ways ex_runtime ex_args ZeroDivisionError I Hact)
    as [[H _]|[[_ H]|[[[[H _]|[H _]] _]|[[H _]|[H _]]]]];
    try discriminate H.
  exact H.
Defined.

(** ** A run that completes without fail *)

Lemma Forall2_combine_In {A B : Type} (P : A -> B -> Prop) (l : list A) (l' : list B)
    (x : A) :
  Forall2 P l l' -> In x l -> exists y, In (x, y) (combine l l') /\ P x y.
Proof.
  induction 1 as [|a b l l' Hab _ IH]; intros Hin; [destruct Hin|].
  destruct Hin as [<-|Hin].
  - exists b. split; [now left|assumption].
  - destruct (IH Hin) as (y & Hy & Hp). exists y. split; [now right|assumption].
Qed.

Lemma select_valid_hits_selectable (df : list hit) (ranks : list string) (r : string)
    (res : option (list hit)) :
  In r ranks -> selectable df r = true ->
  select_valid_hits df ranks = Ok res ->
  exists out h', res = Some out /\ In h' out.
Proof.
  intros Hr Hsel. unfold select_valid_hits. rewrite select_loop_find.
  destruct (List.find (selectable df) ranks) as [r'|] eqn:Ef.
  - intros H. apply bind_Ok in H as (out & Hout & H). injection H as <-.
    apply find_some in Ef as [_ Hsel'].
    rewrite assign_at_resolved in Hout.
    apply bind_Ok in Hout as (tax_ids & Hids & Hout). injection Hout as <-.
    apply rmapM_Ok in Hids.
    unfold selectable in Hsel'. apply negb_true_iff in Hsel'.
    assert (Hex : exists h, In h (valid_hits df r') /\ isnull (rank_ids h !! r') = false).
    { clear -Hsel'. induction (valid_hits df r') as [|h l IH]; [discriminate Hsel'|].
      cbn [forallb] in Hsel'. apply andb_false_iff in Hsel' as [Hh|Hl].
      - exists h. split; [now left|exact Hh].
      - destruct (IH Hl) as (h' & Hin & Hh'). exists h'. split; [now right|exact Hh']. }
    destruct Hex as (h & Hh & Hnn).
    destruct (Forall2_combine_In _ _ _ h Hids Hh) as (t & Hin & Ht).
    unfold resolved_tax_id in Ht. rewrite Hnn in Ht. injection Ht as <-.
    destruct (rank_ids h !! r') as [t|] eqn:Et; [|discriminate Hnn].
    eexists. exists (set_assignment (Some t) (threshold h r') h).
    split; [reflexivity|].
    apply filter_In. split; [|reflexivity].
    apply in_map_iff. exists (h, Some t). split; [reflexivity|exact Hin].
  - pose proof (proj1 (find_none _ _) Ef r Hr) as Hf. congruence.
Qed.

Lemma select_valid_hits_total_rooted (df : list hit) (pre0 : list string) (root : string) :
  (forall h, In h df -> is_Some (rank_ids h !! root)) ->
  exists res, select_valid_hits df (pre0 ++ [root]) = Ok res.
Proof.
  intros Hroot. unfold select_valid_hits. rewrite select_loop_find.
  destruct (List.find (selectable df) (pre0 ++ [root])) as [r|] eqn:Ef; [|eauto].
  apply find_first in Ef as (p0 & q0 & Hranks & _ & _).
  assert (Hr : In r (pre0 ++ [root])) by (rewrite Hranks; apply in_elt).
  apply index_In in Hr as (pre & rest & Hsplit & Hn).
  assert (Hin : In root (r :: rest)).
  { pose proof (last_snoc root pre0) as Hl. rewrite Hsplit, last_app_cons in Hl.
    apply last_Some_elem_of, list_elem_of_In in Hl. exact Hl. }
  rewrite Hsplit, assign_at_resolved.
  destruct (rmapM_total (resolved_tax_id (valid_hits df r) r (pre ++ r :: rest))
              (valid_hits df r)) as [ts Hts].
  { intros h Hh. apply resolved_tax_id_total; [assumption|].
    exists root. split; [assumption|]. apply valid_hits_In in Hh as [Hh _].
    destruct (Hroot h Hh) as [x Hx]. congruence. }
  rewrite Hts. eexists. reflexivity.
Qed.

Lemma joined_hits_rooted (a : Args.t) (root : string) (h : hit) :
  (forall t, In t (Args.taxonomy a) -> is_Some (t_rank_ids t !! root)) ->
  In h (joined_hits a) -> is_Some (rank_ids h !! root).
Proof.
  intros Htax Hh. unfold joined_hits in Hh. cbv zeta in Hh.
  apply join_left_inv in Hh as (h0 & Hh0 & Hcase).
  apply join_inner_inv in Hh0 as (hh & t & _ & Ht & _ & ->).
  destruct Hcase as [[-> _]|(row & _ & _ & ->)];
    cbn [rank_ids set_thresholds set_taxonomy]; now apply Htax.
Qed.

Lemma select_groups_total_rooted (blast_results : list hit) (root : string)
    (more : list string) :
  (forall h, In h blast_results -> is_Some (rank_ids h !! root)) ->
  exists groups, select_groups blast_results (root :: more) = Ok groups.
Proof.
  intros Hroot. unfold select_groups. cbv zeta.
  apply rmapM_total. intros g Hg. cbn [rev].
  apply select_valid_hits_total_rooted.
  intros h Hh. apply Hroot. unfold groupby in Hg.
  apply in_map_iff in Hg as (q & <- & _). cbn [snd] in Hh.
  apply filter_In in Hh as [Hh _]. now apply (proj1 (sort_by_In _ _ _)) in Hh.
Qed.

Lemma join_left_fwd {A B K : Type} `{EqDecision K} (key : A -> option K)
    (rkey : B -> K) (set : B -> A -> A) (unset : A -> A) (right : list B)
    (left : list A) (a : A) :
  In a left -> exists a', In a' (join_left key rkey set unset right left).
Proof.
  intros Ha. unfold join_left.
  assert (Hrow : exists a',
            In a' (match key a with
                   | Some k => match group_rows rkey k right with
                               | [] => [unset a]
                               | rows => map (fun b => set b a) rows
                               end
                   | None => [unset a]
                   end)).
  { destruct (key a) as [k|]; [|exists (unset a); now left].
    destruct (group_rows rkey k right) as [|b rows]; [exists (unset a); now left|].
    exists (set b a). now left. }
  destruct Hrow as [a' Ha']. exists a'. apply in_flat_map. exists a. split; assumption.
Qed.

Lemma classify_hits_selects (a : Args.t) (root : string) (more : list string) (h : hit)
    (r : string) :
  Args.ranks a = root :: more ->
  (forall t, In t (Args.taxonomy a) -> is_Some (t_rank_ids t !! root)) ->
  In h (joined_hits a) -> In r (Args.ranks a) ->
  flt (threshold h r) (pident h) = true -> is_Some (rank_ids h !! r) ->
  exists selected h', classify_hits a = Ok selected /\ In h' selected.
Proof.
  intros Hranks Htax Hh Hr Hvalid Hid.
  destruct (select_groups_total_rooted (joined_hits a) root more) as [groups Hgroups].
  { intros x Hx. exact (joined_hits_rooted a root x Htax Hx). }
  rewrite <- Hranks in Hgroups.
  unfold classify_hits. cbv zeta. rewrite Hgroups, bind_Ok_l.
  assert (Hne : joined_hits a <> []) by (intros E; rewrite E in Hh; destruct Hh).
  rewrite bool_decide_eq_false_2
    by (intros E; apply Hne; destruct (joined_hits a); [reflexivity|discriminate E]).
  unfold select_groups in Hgroups. cbv zeta in Hgroups.
  apply rmapM_Ok in Hgroups.
  set (sorted := sort_by (fun x y => String.leb (qseqid x) (qseqid y)) (joined_hits a))
    in *.
  assert (Hhs : In h sorted) by (apply (proj2 (sort_by_In _ _ _)); exact Hh).
  clearbody sorted.
  set (g := (qseqid h, group_rows qseqid (qseqid h) sorted)).
  assert (Hg : In g (groupby qseqid sorted)).
  { unfold groupby. apply in_map_iff. exists (qseqid h). split; [reflexivity|].
    apply (proj2 (unique_In _ _)). apply in_map. exact Hhs. }
  destruct (Forall2_In_l _ _ _ g Hgroups Hg) as (res & Hres & Hsel).
  assert (Hselectable : selectable g.2 r = true).
  { unfold selectable. apply negb_true_iff.
    destruct (forallb _ (valid_hits g.2 r)) eqn:Ef; [|reflexivity].
    rewrite forallb_forall in Ef. specialize (Ef h).
    destruct Hid as [t Ht]. rewrite Ht in Ef. cbn [isnull] in Ef.
    symmetry. apply Ef. apply valid_hits_In. split; [|exact Hvalid].
    unfold g. cbn [snd]. apply filter_In. split; [exact Hhs|].
    apply bool_decide_eq_true_2. reflexivity. }
  destruct (select_valid_hits_selectable g.2 (rev (Args.ranks a)) r res)
    as (out & x & -> & Hx); [apply (proj1 (in_rev _ _)); exact Hr|exact Hselectable|
                             exact Hsel|].
  assert (Hnull : forallb isnull groups = false).
  { destruct (forallb isnull groups) eqn:Ef; [|reflexivity].
    rewrite forallb_forall in Ef. specialize (Ef _ Hres). discriminate Ef. }
  rewrite Hnull.
  assert (Hx' : In (drop_rank_columns x)
                   (map drop_rank_columns (concat (omap id groups)))).
  { apply in_map, in_concat. exists out. split; [|exact Hx].
    apply list_elem_of_In, list_elem_of_omap. exists (Some out).
    split; [apply list_elem_of_In; exact Hres|reflexivity]. }
  destruct (join_left_fwd assignment_tax_id t_tax_id
              (fun t => set_assignment_taxon (t_tax_name t) (t_rank t))
              (set_assignment_taxon None None) (Args.taxonomy a) _ _ Hx') as [h' Hh'].
  eexists. exists h'. split; [reflexivity|exact Hh'].
Qed.

Lemma starred_hits_nonempty (rt : runtime) (a : Args.t) (selected : list hit)
    (qseqids : list string) (h : hit) (sp : string) :
  (forall ids tax ranks n t, In t ids ->
     is_Some (sequtils_condense_ids rt ids tax ranks n !! t)) ->
  In h selected -> sseqid h <> None -> assignment_tax_id h <> None ->
  In sp (specimens_of a (qseqid h)) ->
  starred_hits rt a selected qseqids <> [].
Proof.
  intros Htot Hh Hs Ht Hsp.
  change (starred_hits rt a selected qseqids)
    with (star_stage a (condense_stage rt a (specimen_hits a selected qseqids))).
  assert (H0 : In (set_specimen sp h) (hits_and_queries a selected qseqids)).
  { unfold hits_and_queries. apply join_specimens_row; [|assumption].
    unfold join_qseqids. apply in_or_app. now left. }
  unfold specimen_hits.
  set (L := hits_and_queries a selected qseqids) in *. clearbody L.
  assert (H1 : In (set_specimen sp h)
                  (sort_by qseqid_le (List.filter (fun h => notnull (sseqid h)) L))).
  { apply (proj2 (sort_by_In _ _ _)), filter_In. split; [assumption|].
    cbn. destruct (sseqid h); [reflexivity|congruence]. }
  destruct (condense_stage_fwd rt a _ _ Htot H1) as (c & n & H2).
  { cbn. eauto. }
  { cbn. destruct (assignment_tax_id h); [eauto|congruence]. }
  set (C := condense_stage rt a _) in *. clearbody C.
  assert (H3 : exists b, In (set_starred b
                               (set_condensed (Some c) (Some n) (set_specimen sp h)))
                            (star_stage a C)).
  { eexists. apply star_stage_In. eexists _, (sp, n, c). split; [exact H2|].
    split; reflexivity. }
  destruct H3 as [b H3]. intros E. rewrite E in H3. destruct H3.
Qed.

(** X15: a run completes and returns the summary and the details when the
    list of ranks starts with a rank that every row of the taxonomy has
    filled (the root); some hit, joined with its sequence information, its
    taxon and its thresholds, is above the threshold of a rank at which its
    taxon has an id; no specimen map is given; the condensing step keeps
    every tax_id it is given; and the copy numbers, if given, are positive
    and have a row for tax_id 1. *)
Theorem action_succeeds_with_rooted_taxonomy
    (rt : runtime) (a : Args.t) (root : string) (more : list string) (h : hit)
    (r : string) :
  Args.ranks a = root :: more ->
  (forall t, In t (Args.taxonomy a) -> is_Some (t_rank_ids t !! root)) ->
  In h (joined_hits a) -> In r (Args.ranks a) ->
  flt (threshold h r) (pident h) = true -> is_Some (rank_ids h !! r) ->
  Args.specimen_map a = None ->
  (forall ids tax ranks n t, In t ids ->
     is_Some (sequtils_condense_ids rt ids tax ranks n !! t)) ->
  positive_copy_numbers a ->
  match Args.copy_numbers a with
  | Some copy_numbers => group_rows fst "1" copy_numbers <> []
  | None => True
  end ->
  exists output details, action rt a = Ok (output, details)
    /\ output <> [] /\ details <> [].
Proof.
  intros Hranks Htax Hh Hr Hvalid Hid Hmap Htot _ Hcn.
  destruct (classify_hits_selects a root more h r Hranks Htax Hh Hr Hvalid Hid)
    as (selected & h' & Hsel & Hh').
  destruct (classified_hit_inv a selected h' Hsel Hh')
    as (s & si & t & r' & k & tid & row & _ & Hs & _ & _ & _ & _ & _ & _ & _ & _ & _
        & _ & _ & Htid & _).
  assert (Hs' : sseqid h' <> None) by (rewrite Hs; discriminate).
  assert (Htid' : assignment_tax_id h' <> None) by (rewrite Htid; discriminate).
  assert (Hsp : exists sp, In sp (specimens_of a (qseqid h'))).
  { pose proof (proj2 (specimens_of_nonempty a (qseqid h'))) as Hne.
    rewrite Hmap in Hne. specialize (Hne I).
    destruct (specimens_of a (qseqid h')) as [|sp l]; [congruence|].
    exists sp. now left. }
  destruct Hsp as [sp Hsp].
  set (qseqids := unique (map qseqid (load_blast_results a))).
  destruct (summarize_total rt a (label_hits rt a selected qseqids) Hcn) as [out Hout].
  destruct (selected_hit_labelled rt a selected qseqids h' sp Htot Hh' Hs' Htid' Hsp)
    as (lrow & Hlrow & _ & Hlsp & [l Hl] & [n Hn]).
  exists out, (label_hits rt a selected qseqids).
  split; [|split].
  - unfold action. cbv zeta. fold qseqids. rewrite Hsel, bind_Ok_l.
    unfold label_details.
    destruct (starred_hits rt a selected qseqids) eqn:Est.
    + exfalso. revert Est.
      exact (starred_hits_nonempty rt a selected qseqids h' sp Htot Hh' Hs' Htid' Hsp).
    + rewrite bind_Ok_l, Hout. reflexivity.
  - pose proof (summary_index_In _ lrow sp l n Hlrow Hlsp Hn Hl) as Hidx.
    destruct (summarize_rows rt a _ out _ Hout Hidx) as (o & Ho & _).
    intros E. rewrite E in Ho. destruct Ho.
  - intros E. rewrite E in Hlrow. destruct Hlrow.
Qed.

Lemma action_succeeds_with_rooted_taxonomy_witness :
  exists output details, action ex_runtime ex_run_args = Ok (output, details)
    /\ output <> [] /\ details <> [].
Proof.
  apply (action_succeeds_with_rooted_taxonomy ex_runtime ex_run_args "root"
           ["genus"; "species"] (hd (null_hit "") (joined_hits ex_run_args)) "species").
  - reflexivity.
  - intros t [<-|[]]. vm_compute. eauto.
  - vm_compute. left. reflexivity.
  - vm_compute. right. right. left. reflexivity.
  - vm_compute. reflexivity.
  - vm_compute. eauto.
  - reflexivity.
  - exact ex_runtime_condense_total.
  - exact I.
  - exact I.
Defined.

